(** * The StatsBomb event deserializer of kloppy

    A shallow embedding of
    [kloppy/infra/serializers/event/statsbomb/deserializer.py] and the
    properties of its coordinate resolver, fidelity detector, attribute
    mappers and timeline assembler.

    Conventions of the embedding.
    - A JSON object is a record; a key the code tests with [in] or reads
      with [.get] is an [option] field, and subscripting an absent key
      raises [KeyError].
    - Python exceptions are the constructors of [error]; a function that
      may raise returns [res].
    - Coordinates, time stamps and durations are binary64 floats (Rocq's
      primitive floats), so the arithmetic of [_parse_coordinates], of
      [parse_str_ts] and of the period boundaries is the one Python
      performs, rounding included.
    - Vendor ids are integers; [str] is Python's decimal rendering.
    - The [Period] objects live in a store (the list [periods]); the
      variable [period] and the events refer to them by position, so the
      assignment to [period.end_timestamp] is seen by every holder. *)

From Stdlib Require Import ZArith Lia Floats.
From stdpp Require Import base option list strings pretty gmap.

Set Warnings "-inexact-float".
Set Default Proof Using "Type".
Open Scope Z_scope.

(** ** Exceptions and the result monad *)

Inductive error : Type :=
| DeserializationError (msg : string)
| KeyError (key : string)
| IndexError
| ValueError
| TypeError
| AttributeError (attr : string)
(* not a Python exception: a reference that is not in the store
   (not raised by the period code, see [period_transition_no_dangling]) *)
| DanglingReference.

Inductive res (A : Type) : Type :=
| Ok (a : A)
| Raise (e : error).
Arguments Ok {A} a.
Arguments Raise {A} e.

Definition bind {A B : Type} (m : res A) (k : A -> res B) : res B :=
  match m with
  | Ok a => k a
  | Raise e => Raise e
  end.

Notation "'let*' x := m 'in' k" := (bind m (fun x => k))
  (at level 10, x name, m at level 100, k at level 200, only parsing).
Notation "'let*' ( x , y ) := m 'in' k" :=
  (bind m (fun xy => let (x, y) := xy in k))
  (at level 10, x name, y name, m at level 100, k at level 200,
   only parsing).

(** [dict[key]] on an optional key. *)
Definition subscript {A : Type} (key : string) (field : option A) : res A :=
  match field with
  | Some a => Ok a
  | None => Raise (KeyError key)
  end.

(** A [for] loop whose body may raise: the first exception ends it. *)
Fixpoint for_each {S A : Type} (body : S -> A -> res S) (l : list A) (s : S)
  : res S :=
  match l with
  | [] => Ok s
  | a :: l' => let* s' := body s a in for_each body l' s'
  end.

(** Python's [str] on an integer. *)
Definition str (n : Z) : string := pretty n.

(** ** Vendor constants *)

Definition SB_EVENT_TYPE_RECOVERY : Z := 2.
Definition SB_EVENT_TYPE_DRIBBLE : Z := 14.
Definition SB_EVENT_TYPE_SHOT : Z := 16.
Definition SB_EVENT_TYPE_PASS : Z := 30.
Definition SB_EVENT_TYPE_CARRY : Z := 43.

Definition SB_EVENT_TYPE_HALF_START : Z := 18.
Definition SB_EVENT_TYPE_HALF_END : Z := 34.
Definition SB_EVENT_TYPE_STARTING_XI : Z := 35.

Definition SB_EVENT_TYPE_SUBSTITUTION : Z := 19.
Definition SB_EVENT_TYPE_FOUL_COMMITTED : Z := 22.
Definition SB_EVENT_TYPE_BAD_BEHAVIOUR : Z := 24.
Definition SB_EVENT_TYPE_PLAYER_ON : Z := 26.
Definition SB_EVENT_TYPE_PLAYER_OFF : Z := 27.

Definition SB_PASS_OUTCOME_COMPLETE : Z := 8.
Definition SB_PASS_OUTCOME_INCOMPLETE : Z := 9.
Definition SB_PASS_OUTCOME_INJURY_CLEARANCE : Z := 74.
Definition SB_PASS_OUTCOME_OUT : Z := 75.
Definition SB_PASS_OUTCOME_OFFSIDE : Z := 76.
Definition SB_PASS_OUTCOME_UNKNOWN : Z := 77.

Definition SB_SHOT_OUTCOME_BLOCKED : Z := 96.
Definition SB_SHOT_OUTCOME_GOAL : Z := 97.
Definition SB_SHOT_OUTCOME_OFF_TARGET : Z := 98.
Definition SB_SHOT_OUTCOME_POST : Z := 99.
Definition SB_SHOT_OUTCOME_SAVED : Z := 100.
Definition SB_SHOT_OUTCOME_OFF_WAYWARD : Z := 101.
Definition SB_SHOT_OUTCOME_SAVED_OFF_TARGET : Z := 115.
Definition SB_SHOT_OUTCOME_SAVED_TO_POST : Z := 116.

Definition SB_EVENT_TYPE_FREE_KICK : Z := 62.
Definition SB_EVENT_TYPE_THROW_IN : Z := 67.
Definition SB_EVENT_TYPE_KICK_OFF : Z := 65.
Definition SB_EVENT_TYPE_CORNER_KICK : Z := 61.
Definition SB_EVENT_TYPE_PENALTY : Z := 88.
Definition SB_EVENT_TYPE_GOAL_KICK : Z := 63.

Definition SB_BODYPART_BOTH_HANDS : Z := 35.
Definition SB_BODYPART_CHEST : Z := 36.
Definition SB_BODYPART_HEAD : Z := 37.
Definition SB_BODYPART_LEFT_FOOT : Z := 38.
Definition SB_BODYPART_LEFT_HAND : Z := 39.
Definition SB_BODYPART_RIGHT_FOOT : Z := 40.
Definition SB_BODYPART_RIGHT_HAND : Z := 41.
Definition SB_BODYPART_DROP_KICK : Z := 68.
Definition SB_BODYPART_KEEPER_ARM : Z := 69.
Definition SB_BODYPART_OTHER : Z := 70.
Definition SB_BODYPART_NO_TOUCH : Z := 106.

(** ** The domain enumerations ([kloppy.domain]) *)

Module BallState.
Inductive t : Set := ALIVE | DEAD.
End BallState.

Module Ground.
Inductive t : Set := HOME | AWAY.
End Ground.

Module PassResult.
Inductive t : Set := COMPLETE | INCOMPLETE | OUT | OFFSIDE.
End PassResult.

Module ShotResult.
Inductive t : Set := GOAL | OFF_TARGET | POST | BLOCKED | SAVED.
End ShotResult.

Module TakeOnResult.
Inductive t : Set := COMPLETE | INCOMPLETE | OUT.
End TakeOnResult.

Module CarryResult.
Inductive t : Set := COMPLETE | INCOMPLETE.
End CarryResult.

Module CardType.
Inductive t : Set := FIRST_YELLOW | SECOND_YELLOW | RED.
End CardType.

Module SetPieceType.
Inductive t : Set :=
  GOAL_KICK | FREE_KICK | THROW_IN | CORNER_KICK | PENALTY | KICK_OFF.
End SetPieceType.

Module BodyPart.
Inductive t : Set :=
  RIGHT_FOOT | LEFT_FOOT | HEAD | BOTH_HANDS | CHEST | LEFT_HAND
| RIGHT_HAND | DROP_KICK | KEEPER_ARM | OTHER | NO_TOUCH.
End BodyPart.

(** The value of an event's [result] attribute: a member of one of the
    result enumerations ([None] is [option]'s). Members of different
    enumerations are never equal. *)
Inductive ResultType : Set :=
| pass_result (r : PassResult.t)
| shot_result (r : ShotResult.t)
| take_on_result (r : TakeOnResult.t)
| carry_result (r : CarryResult.t).

#[global] Instance PassResult_eq_dec : EqDecision PassResult.t.
Proof. solve_decision. Defined.
#[global] Instance ShotResult_eq_dec : EqDecision ShotResult.t.
Proof. solve_decision. Defined.
#[global] Instance TakeOnResult_eq_dec : EqDecision TakeOnResult.t.
Proof. solve_decision. Defined.
#[global] Instance CarryResult_eq_dec : EqDecision CarryResult.t.
Proof. solve_decision. Defined.
#[global] Instance ResultType_eq_dec : EqDecision ResultType.
Proof. solve_decision. Defined.

Inductive Qualifier : Set :=
| SetPieceQualifier (value : SetPieceType.t)
| BodyPartQualifier (value : BodyPart.t).

Record Point : Set := mkPoint { point_x : float; point_y : float }.

(** A player; the back reference to the owning team is its id. *)
Record Player : Set := mkPlayer {
  player_id : string;
  player_team : string;
  player_name : string;
  jersey_no : Z;
  starting : bool }.

Record Team : Set := mkTeam {
  team_id : string;
  team_name : string;
  ground : Ground.t;
  players : list Player }.

Module Period.
Record t : Set := mk {
  id : Z;
  start_timestamp : float;
  end_timestamp : option float }.

(** [period.end_timestamp = v] *)
Definition set_end_timestamp (p : t) (v : option float) : t :=
  {| id := id p; start_timestamp := start_timestamp p; end_timestamp := v |}.
End Period.

(** ** The raw vendor records (parsed JSON) *)

(** The clock string [HH:MM:SS.ffffff], kept as its three fields: what
    [int] reads from the first two and [float] from the third. *)
Record RawTimestamp : Set := mkRawTimestamp {
  hours : Z;
  minutes : Z;
  seconds : float }.

(** The [pass] sub-object. *)
Record PassDict : Set := mkPassDict {
  pass_outcome : option Z;               (* ["outcome"]["id"] *)
  pass_recipient : option Z;             (* ["recipient"]["id"] *)
  pass_end_location : option (list float);
  pass_type : option Z;                  (* ["type"]["id"] *)
  pass_body_part : option Z }.           (* ["body_part"]["id"] *)

Record ShotDict : Set := mkShotDict {
  shot_outcome : option Z;
  shot_type : option Z;
  shot_body_part : option Z }.

(** The [dribble] sub-object; an outcome has an id and a name. *)
Record DribbleDict : Set := mkDribbleDict {
  dribble_outcome : option (Z * string) }.

Record CarryDict : Set := mkCarryDict {
  carry_end_location : option (list float) }.

Record SubstitutionDict : Set := mkSubstitutionDict {
  replacement : Z }.                     (* ["replacement"]["id"] *)

(** The [bad_behaviour] and [foul_committed] sub-objects. *)
Record CardHolderDict : Set := mkCardHolderDict {
  card : option Z }.                     (* ["card"]["id"] *)

Record RawEvent : Set := mkRawEvent {
  raw_id : string;
  raw_type_id : Z;
  raw_type_name : string;
  raw_timestamp : RawTimestamp;
  raw_period : Z;
  raw_team_id : Z;
  raw_possession_team_id : Z;
  raw_possession_team_name : string;
  raw_player : option Z;                 (* ["player"]["id"] *)
  raw_location : option (list float);
  raw_duration : option float;
  raw_pass : option PassDict;
  raw_shot : option ShotDict;
  raw_dribble : option DribbleDict;
  raw_carry : option CarryDict;
  raw_substitution : option SubstitutionDict;
  raw_bad_behaviour : option CardHolderDict;
  raw_foul_committed : option CardHolderDict;
  raw_tactics : option (list Z) }.       (* ["tactics"]["lineup"][i]["player"]["id"] *)

Record LineupPlayer : Set := mkLineupPlayer {
  lineup_player_id : Z;
  lineup_player_name : string;
  lineup_jersey_number : Z }.

Record Lineup : Set := mkLineup {
  lineup_team_id : Z;
  lineup_team_name : string;
  lineup : list LineupPlayer }.

Record StatsbombInputs : Set := mkStatsbombInputs {
  event_data : list RawEvent;
  lineup_data : Lineup * Lineup }.

(** ** Normalized events *)

(** [generic_event_kwargs]: the fields every event is created from. *)
Record GenericEventKwargs : Set := mkKwargs {
  kw_period : nat;                       (* the Period object, by position *)
  kw_timestamp : float;
  kw_ball_owning_team : Team;
  kw_ball_state : BallState.t;
  kw_event_id : string;
  kw_team : Team;
  kw_player : option Player;
  kw_coordinates : option Point;
  kw_raw_event : RawEvent }.

(** [generic_event_kwargs["ball_state"] = v] *)
Definition set_ball_state (kw : GenericEventKwargs) (v : BallState.t)
  : GenericEventKwargs :=
  mkKwargs (kw_period kw) (kw_timestamp kw) (kw_ball_owning_team kw) v
    (kw_event_id kw) (kw_team kw) (kw_player kw) (kw_coordinates kw)
    (kw_raw_event kw).

(** [generic_event_kwargs["coordinates"] = v] *)
Definition set_coordinates (kw : GenericEventKwargs) (v : option Point)
  : GenericEventKwargs :=
  mkKwargs (kw_period kw) (kw_timestamp kw) (kw_ball_owning_team kw)
    (kw_ball_state kw) (kw_event_id kw) (kw_team kw) (kw_player kw) v
    (kw_raw_event kw).

(** The event classes, each with the keyword arguments the deserializer
    passes to its [create]; [result=None] and [qualifiers=None] are left
    implicit. *)
Inductive Event : Set :=
| PassEvent (receive_timestamp : float) (result : option PassResult.t)
    (receiver_coordinates : option Point) (receiver_player : option Player)
    (qualifiers : list Qualifier) (kw : GenericEventKwargs)
| ShotEvent (result : ShotResult.t) (qualifiers : list Qualifier)
    (kw : GenericEventKwargs)
| TakeOnEvent (result : TakeOnResult.t) (kw : GenericEventKwargs)
| CarryEvent (end_timestamp : float) (result : CarryResult.t)
    (end_coordinates : Point) (kw : GenericEventKwargs)
| SubstitutionEvent (replacement_player : Player) (kw : GenericEventKwargs)
| CardEvent (card_type : CardType.t) (kw : GenericEventKwargs)
| FoulCommittedEvent (kw : GenericEventKwargs)
| PlayerOnEvent (kw : GenericEventKwargs)
| PlayerOffEvent (kw : GenericEventKwargs)
| RecoveryEvent (kw : GenericEventKwargs)
| GenericEvent (event_name : string) (kw : GenericEventKwargs)
| BallOutEvent (kw : GenericEventKwargs).

(** [event.result] *)
Definition event_result (event : Event) : option ResultType :=
  match event with
  | PassEvent _ r _ _ _ _ => pass_result <$> r
  | ShotEvent r _ _ => Some (shot_result r)
  | TakeOnEvent r _ => Some (take_on_result r)
  | CarryEvent _ r _ _ => Some (carry_result r)
  | _ => None
  end.

(** [event.receiver_coordinates]: an attribute of pass events only. *)
Definition event_receiver_coordinates (event : Event) : res (option Point) :=
  match event with
  | PassEvent _ _ c _ _ _ => Ok c
  | _ => Raise (AttributeError "receiver_coordinates")
  end.

Definition OUT_EVENT_RESULTS : list (option ResultType) :=
  [Some (pass_result PassResult.OUT); Some (take_on_result TakeOnResult.OUT)].

Record Metadata : Set := mkMetadata {
  metadata_teams : list Team;
  metadata_periods : list Period.t }.

Record EventDataset : Set := mkEventDataset {
  metadata : Metadata;
  records : list Event }.

(** ** Leaf functions *)

(** An [int] converted to a [float], as Python does when it adds the two:
    rounded to the nearest binary64 value, ties to even. Beyond the range
    of the floats, where Python raises [OverflowError] (a clock reading of
    more than 1e304 hours), the conversion gives an infinity. *)
Definition Z2float (n : Z) : float :=
  SF2Prim (binary_normalize prec emax n 0 false).

(** [int(h) * 3600 + int(m) * 60 + float(s)]: the two products and their
    sum are integers, the last addition is one of floats. *)
Definition parse_str_ts (timestamp : RawTimestamp) : float :=
  (Z2float (hours timestamp * 3600 + minutes timestamp * 60)
   + seconds timestamp)%float.

(** [coordinates[i]] on a list. *)
Definition index {A : Type} (l : list A) (i : nat) : res A :=
  match l !! i with
  | Some a => Ok a
  | None => Raise IndexError
  end.

Definition _parse_coordinates (coordinates : list float)
  (fidelity_version : Z) : res Point :=
  let cell_side := if decide (fidelity_version = 2) then 0.1%float else 1.0%float in
  let cell_relative_center := (cell_side / 2)%float in
  let* c0 := index coordinates 0 in
  let* c1 := index coordinates 1 in
  Ok {| point_x := (c0 - cell_relative_center)%float;
        point_y := (c1 - cell_relative_center)%float |}.

(** [event_dict["body_part"]["id"]] mapped to the body part. *)
Definition _parse_bodypart (bodypart_id : Z) : res BodyPart.t :=
  if decide (bodypart_id = SB_BODYPART_BOTH_HANDS) then Ok BodyPart.BOTH_HANDS
  else if decide (bodypart_id = SB_BODYPART_CHEST) then Ok BodyPart.CHEST
  else if decide (bodypart_id = SB_BODYPART_HEAD) then Ok BodyPart.HEAD
  else if decide (bodypart_id = SB_BODYPART_LEFT_FOOT) then Ok BodyPart.LEFT_FOOT
  else if decide (bodypart_id = SB_BODYPART_LEFT_HAND) then Ok BodyPart.LEFT_HAND
  else if decide (bodypart_id = SB_BODYPART_RIGHT_FOOT) then Ok BodyPart.RIGHT_FOOT
  else if decide (bodypart_id = SB_BODYPART_RIGHT_HAND) then Ok BodyPart.RIGHT_HAND
  else if decide (bodypart_id = SB_BODYPART_DROP_KICK) then Ok BodyPart.DROP_KICK
  else if decide (bodypart_id = SB_BODYPART_KEEPER_ARM) then Ok BodyPart.KEEPER_ARM
  else if decide (bodypart_id = SB_BODYPART_OTHER) then Ok BodyPart.OTHER
  else if decide (bodypart_id = SB_BODYPART_NO_TOUCH) then Ok BodyPart.NO_TOUCH
  else Raise (DeserializationError ("Unknown body part: " +:+ str bodypart_id)).

(** The two optional signals of a sub-object: its [type] and [body_part]. *)
Definition _get_event_qualifiers (type_ : option Z) (body_part : option Z)
  : res (list Qualifier) :=
  let qualifiers :=
    match type_ with
    | Some type_id =>
        if decide (type_id = SB_EVENT_TYPE_CORNER_KICK)
        then [SetPieceQualifier SetPieceType.CORNER_KICK]
        else if decide (type_id = SB_EVENT_TYPE_FREE_KICK)
        then [SetPieceQualifier SetPieceType.FREE_KICK]
        else if decide (type_id = SB_EVENT_TYPE_PENALTY)
        then [SetPieceQualifier SetPieceType.PENALTY]
        else if decide (type_id = SB_EVENT_TYPE_THROW_IN)
        then [SetPieceQualifier SetPieceType.THROW_IN]
        else if decide (type_id = SB_EVENT_TYPE_KICK_OFF)
        then [SetPieceQualifier SetPieceType.KICK_OFF]
        else if decide (type_id = SB_EVENT_TYPE_GOAL_KICK)
        then [SetPieceQualifier SetPieceType.GOAL_KICK]
        else []
    | None => []
    end in
  match body_part with
  | Some bodypart_id =>
      let* body_part := _parse_bodypart bodypart_id in
      Ok (qualifiers ++ [BodyPartQualifier body_part])
  | None => Ok qualifiers
  end.

(** The bundle [_parse_pass] returns. *)
Record PassKwargs : Set := mkPassKwargs {
  pk_result : option PassResult.t;
  pk_receiver_coordinates : Point;
  pk_receiver_player : option Player;
  pk_qualifiers : list Qualifier }.

Definition _parse_shot (shot_dict : ShotDict)
  : res (ShotResult.t * list Qualifier) :=
  let* outcome_id := subscript "outcome" (shot_outcome shot_dict) in
  let* result :=
    if decide (outcome_id = SB_SHOT_OUTCOME_OFF_TARGET) then Ok ShotResult.OFF_TARGET
    else if decide (outcome_id = SB_SHOT_OUTCOME_SAVED) then Ok ShotResult.SAVED
    else if decide (outcome_id = SB_SHOT_OUTCOME_SAVED_OFF_TARGET) then Ok ShotResult.SAVED
    else if decide (outcome_id = SB_SHOT_OUTCOME_SAVED_TO_POST) then Ok ShotResult.SAVED
    else if decide (outcome_id = SB_SHOT_OUTCOME_POST) then Ok ShotResult.POST
    else if decide (outcome_id = SB_SHOT_OUTCOME_OFF_WAYWARD) then Ok ShotResult.OFF_TARGET
    else if decide (outcome_id = SB_SHOT_OUTCOME_BLOCKED) then Ok ShotResult.BLOCKED
    else if decide (outcome_id = SB_SHOT_OUTCOME_GOAL) then Ok ShotResult.GOAL
    else Raise (DeserializationError ("Unknown shot outcome: " +:+ str outcome_id)) in
  let* qualifiers :=
    _get_event_qualifiers (shot_type shot_dict) (shot_body_part shot_dict) in
  Ok (result, qualifiers).

Definition _parse_carry (carry_dict : CarryDict) (fidelity_version : Z)
  : res (CarryResult.t * Point) :=
  let* end_location := subscript "end_location" (carry_end_location carry_dict) in
  let* end_coordinates := _parse_coordinates end_location fidelity_version in
  Ok (CarryResult.COMPLETE, end_coordinates).

Definition _parse_take_on (take_on_dict : DribbleDict) : res TakeOnResult.t :=
  match dribble_outcome take_on_dict with
  | Some (outcome_id, outcome_name) =>
      if decide (outcome_id = SB_PASS_OUTCOME_OUT) then Ok TakeOnResult.OUT
      else if decide (outcome_id = SB_PASS_OUTCOME_INCOMPLETE)
      then Ok TakeOnResult.INCOMPLETE
      else if decide (outcome_id = SB_PASS_OUTCOME_COMPLETE)
      then Ok TakeOnResult.COMPLETE
      else Raise (DeserializationError
                    ("Unknown pass outcome: " +:+ outcome_name +:+ "("
                     +:+ str outcome_id +:+ ")"))
  | None => Ok TakeOnResult.COMPLETE
  end.

(** The [for ... else] scan of the roster: the first player whose id is
    the replacement's, or the error naming the replacement. *)
Fixpoint _parse_substitution_loop (replacement_id : Z) (roster : list Player)
  : res Player :=
  match roster with
  | [] => Raise (DeserializationError
                   ("Could not find replacement player " +:+ str replacement_id))
  | player :: roster' =>
      if decide (player_id player = str replacement_id) then Ok player
      else _parse_substitution_loop replacement_id roster'
  end.

Definition _parse_substitution (substitution_dict : SubstitutionDict)
  (team : Team) : res Player :=
  _parse_substitution_loop (replacement substitution_dict) (players team).

Definition _parse_card (card_id : Z) : res CardType.t :=
  if decide (card_id = 5 \/ card_id = 65) then Ok CardType.RED
  else if decide (card_id = 6 \/ card_id = 66) then Ok CardType.SECOND_YELLOW
  else if decide (card_id = 7 \/ card_id = 67) then Ok CardType.FIRST_YELLOW
  else Raise (DeserializationError ("Unknown card id " +:+ str card_id)).

(** The returned dict holds the key [card] exactly when the input does. *)
Definition _parse_bad_behaviour (bad_behaviour_dict : CardHolderDict)
  : res (option CardType.t) :=
  match card bad_behaviour_dict with
  | Some card_id => let* card_type := _parse_card card_id in Ok (Some card_type)
  | None => Ok None
  end.

Definition _parse_foul_committed (foul_committed_dict : CardHolderDict)
  : res (option CardType.t) :=
  match card foul_committed_dict with
  | Some card_id => let* card_type := _parse_card card_id in Ok (Some card_type)
  | None => Ok None
  end.

(** [float.is_integer]: finite and without fractional part. A finite
    binary64 number is [m * 2 ^ e]. *)
Definition is_integer (x : float) : bool :=
  match Prim2SF x with
  | S754_zero _ => true
  | S754_infinity _ | S754_nan => false
  | S754_finite _ m e => bool_decide (0 <= e \/ Z.pos m mod 2 ^ (- e) = 0)
  end.

(** The body of the loop of [_determine_xy_fidelity_versions]; the state
    is [(shot_fidelity_version, xy_fidelity_version)]. Unpacking
    [x, y, *_] needs two components. *)
Definition fidelity_step (versions : Z * Z) (event : RawEvent) : res (Z * Z) :=
  let '(shot_fidelity_version, xy_fidelity_version) := versions in
  match raw_location event with
  | Some (x :: y :: _) =>
      if negb (is_integer x) || negb (is_integer y) then
        let event_type := raw_type_id event in
        if decide (event_type = SB_EVENT_TYPE_SHOT)
        then Ok (2, xy_fidelity_version)
        else if decide (event_type = SB_EVENT_TYPE_CARRY
                        \/ event_type = SB_EVENT_TYPE_DRIBBLE
                        \/ event_type = SB_EVENT_TYPE_PASS)
        then Ok (shot_fidelity_version, 2)
        else Ok versions
      else Ok versions
  | Some _ => Raise ValueError
  | None => Ok versions
  end.

Definition _determine_xy_fidelity_versions (events : list RawEvent)
  : res (Z * Z) :=
  for_each fidelity_step events (1, 1).

(** ** The deserializer

    Three collaborators are not part of this file: the roster lookup
    [Team.get_player_by_id], the inclusion filter
    [should_include_event] of the deserializer's base class, and the
    coordinate transformer's [transform_event]. The deserializer is
    parametric in them. *)

(** The variables of the loop of [deserialize]; [st_period] is the
    reference held by the variable [period]. *)
Record State : Set := mkState {
  st_periods : list Period.t;
  st_period : option nat;
  st_events : list Event }.

(** What the first half of the loop body computes for a raw event. *)
Record Context : Set := mkContext {
  ctx_periods : list Period.t;
  ctx_period : nat;
  ctx_fidelity_version : Z;
  ctx_kwargs : GenericEventKwargs }.

(** Reading the object a reference points to. *)
Definition deref (periods : list Period.t) (ref : nat) : res Period.t :=
  match periods !! ref with
  | Some p => Ok p
  | None => Raise DanglingReference
  end.

(** Lines 441-454: open a period or extend the open one. Adding [None]
    to a number is a [TypeError]. *)
Definition period_transition (periods : list Period.t) (period : option nat)
  (timestamp : float) (period_id : Z) : res (list Period.t * nat) :=
  match period with
  | None =>
      Ok (periods ++ [Period.mk period_id timestamp None], length periods)
  | Some ref =>
      let* p := deref periods ref in
      if decide (Period.id p <> period_id) then
        let* start_timestamp :=
          match Period.end_timestamp p with
          | Some end_timestamp => Ok (timestamp + end_timestamp + 0.001)%float
          | None => Raise TypeError
          end in
        Ok (periods ++ [Period.mk period_id start_timestamp None],
            length periods)
      else
        Ok (<[ref := Period.set_end_timestamp p
                       (Some (Period.start_timestamp p + timestamp)%float)]> periods,
            ref)
  end.

(** Lines 371-376: the ids announced by the starting-eleven events. *)
Definition starting_player_ids_step (ids : gset string) (raw_event : RawEvent)
  : res (gset string) :=
  if decide (raw_type_id raw_event = SB_EVENT_TYPE_STARTING_XI) then
    let* tactics_lineup := subscript "tactics" (raw_tactics raw_event) in
    Ok (ids ∪ list_to_set (str <$> tactics_lineup))
  else Ok ids.

(** Lines 377-407: a team and its players from a lineup record. *)
Definition build_team (team_lineup : Lineup) (side : Ground.t)
  (starting_player_ids : gset string) : Team :=
  let id := str (lineup_team_id team_lineup) in
  {| team_id := id;
     team_name := lineup_team_name team_lineup;
     ground := side;
     players :=
       (fun player =>
          {| player_id := str (lineup_player_id player);
             player_team := id;
             player_name := lineup_player_name player;
             jersey_no := lineup_jersey_number player;
             starting :=
               bool_decide (str (lineup_player_id player) ∈ starting_player_ids) |})
       <$> lineup team_lineup |}.

(** ** Sample collaborators and inputs *)

(** Modelled from the spec: [Team.get_player_by_id], the id lookup in a
    team's roster ([kloppy.domain]); the first player with the id, and a
    hard error when there is none. *)
Definition roster_lookup (team : Team) (id : Z) : res (option Player) :=
  match list_find (fun player => player_id player = str id) (players team) with
  | Some (_, player) => Ok (Some player)
  | None => Raise (DeserializationError ("Unknown player_id " +:+ str id))
  end.

(** An inclusion filter that keeps every event, and a transformer that
    leaves events as they are. *)
Definition include_all (event : Event) : bool := true.
Definition no_transform (event : Event) : Event := event.

(** A raw event of the home team with no optional key. *)
Definition sample_event (type_id period : Z) (clock : float) : RawEvent :=
  {| raw_id := "a3f7"; raw_type_id := type_id; raw_type_name := "Half Start";
     raw_timestamp := mkRawTimestamp 0 0 clock; raw_period := period;
     raw_team_id := 217; raw_possession_team_id := 217;
     raw_possession_team_name := "Barcelona";
     raw_player := None; raw_location := None; raw_duration := None;
     raw_pass := None; raw_shot := None; raw_dribble := None;
     raw_carry := None; raw_substitution := None;
     raw_bad_behaviour := None; raw_foul_committed := None;
     raw_tactics := None |}.

(** A raw event of the given category with a location. *)
Definition sample_located (type_id : Z) (location : list float) : RawEvent :=
  let e := sample_event type_id 1 0 in
  {| raw_id := raw_id e; raw_type_id := raw_type_id e;
     raw_type_name := raw_type_name e;
     raw_timestamp := raw_timestamp e; raw_period := raw_period e;
     raw_team_id := raw_team_id e;
     raw_possession_team_id := raw_possession_team_id e;
     raw_possession_team_name := raw_possession_team_name e;
     raw_player := None; raw_location := Some location;
     raw_duration := None;
     raw_pass := None; raw_shot := None; raw_dribble := None;
     raw_carry := None; raw_substitution := None;
     raw_bad_behaviour := None; raw_foul_committed := None;
     raw_tactics := None |}.

Definition sample_pass_dict (outcome : option Z) : PassDict :=
  {| pass_outcome := outcome; pass_recipient := Some 5503;
     pass_end_location := Some [70; 80]%float; pass_type := None;
     pass_body_part := Some SB_BODYPART_RIGHT_FOOT |}.

(** A pass by player 5203 with the given outcome. *)
Definition sample_pass (outcome : option Z) (period : Z) (clock : float)
  : RawEvent :=
  let e := sample_event SB_EVENT_TYPE_PASS period clock in
  {| raw_id := raw_id e; raw_type_id := raw_type_id e; raw_type_name := "Pass";
     raw_timestamp := raw_timestamp e; raw_period := raw_period e;
     raw_team_id := raw_team_id e;
     raw_possession_team_id := raw_possession_team_id e;
     raw_possession_team_name := raw_possession_team_name e;
     raw_player := Some 5203; raw_location := Some [61; 40.5]%float;
     raw_duration := Some 1.5%float;
     raw_pass := Some (sample_pass_dict outcome); raw_shot := None;
     raw_dribble := None; raw_carry := None; raw_substitution := None;
     raw_bad_behaviour := None; raw_foul_committed := None;
     raw_tactics := None |}.

(** A dribble with the given outcome. *)
Definition sample_dribble (outcome : option (Z * string)) (period : Z)
  (clock : float) : RawEvent :=
  let e := sample_event SB_EVENT_TYPE_DRIBBLE period clock in
  {| raw_id := raw_id e; raw_type_id := raw_type_id e;
     raw_type_name := "Dribble";
     raw_timestamp := raw_timestamp e; raw_period := raw_period e;
     raw_team_id := raw_team_id e;
     raw_possession_team_id := raw_possession_team_id e;
     raw_possession_team_name := raw_possession_team_name e;
     raw_player := Some 5203; raw_location := Some [61; 40]%float;
     raw_duration := None;
     raw_pass := None; raw_shot := None;
     raw_dribble := Some (mkDribbleDict outcome); raw_carry := None;
     raw_substitution := None;
     raw_bad_behaviour := None; raw_foul_committed := None;
     raw_tactics := None |}.

(** A substitution that brings on the player with the given id. *)
Definition sample_substitution (replacement_id : Z) (period : Z) (clock : float)
  : RawEvent :=
  let e := sample_event SB_EVENT_TYPE_SUBSTITUTION period clock in
  {| raw_id := raw_id e; raw_type_id := raw_type_id e;
     raw_type_name := "Substitution";
     raw_timestamp := raw_timestamp e; raw_period := raw_period e;
     raw_team_id := raw_team_id e;
     raw_possession_team_id := raw_possession_team_id e;
     raw_possession_team_name := raw_possession_team_name e;
     raw_player := Some 5203; raw_location := None; raw_duration := None;
     raw_pass := None; raw_shot := None; raw_dribble := None;
     raw_carry := None;
     raw_substitution := Some (mkSubstitutionDict replacement_id);
     raw_bad_behaviour := None; raw_foul_committed := None;
     raw_tactics := None |}.

(** A foul with the given [foul_committed] sub-object. *)
Definition sample_foul (foul_committed : option CardHolderDict) (period : Z)
  (clock : float) : RawEvent :=
  let e := sample_event SB_EVENT_TYPE_FOUL_COMMITTED period clock in
  {| raw_id := raw_id e; raw_type_id := raw_type_id e;
     raw_type_name := "Foul Committed";
     raw_timestamp := raw_timestamp e; raw_period := raw_period e;
     raw_team_id := raw_team_id e;
     raw_possession_team_id := raw_possession_team_id e;
     raw_possession_team_name := raw_possession_team_name e;
     raw_player := Some 5203; raw_location := Some [30; 22]%float;
     raw_duration := None;
     raw_pass := None; raw_shot := None; raw_dribble := None;
     raw_carry := None; raw_substitution := None;
     raw_bad_behaviour := None; raw_foul_committed := foul_committed;
     raw_tactics := None |}.

Definition sample_lineups : Lineup * Lineup :=
  ({| lineup_team_id := 217; lineup_team_name := "Barcelona";
      lineup := [mkLineupPlayer 5203 "Sergio Busquets" 5;
                 mkLineupPlayer 5503 "Lionel Messi" 10] |},
   {| lineup_team_id := 206; lineup_team_name := "Alaves";
      lineup := [mkLineupPlayer 6581 "Jonathan Calleri" 12] |}).

Definition sample_inputs (raw_events : list RawEvent) : StatsbombInputs :=
  {| event_data := raw_events; lineup_data := sample_lineups |}.

(** Two halves, each with its first and its last event. *)
Definition two_halves_events : list RawEvent :=
  [sample_event SB_EVENT_TYPE_HALF_START 1 0;
   sample_event SB_EVENT_TYPE_HALF_END 1 2700;
   sample_event SB_EVENT_TYPE_HALF_START 2 0;
   sample_event SB_EVENT_TYPE_HALF_END 2 2700].

(** The two halves followed by an event that carries the first period's
    number again. *)
Definition revisited_period_events : list RawEvent :=
  two_halves_events ++ [sample_event SB_EVENT_TYPE_HALF_START 1 100].


(** A first half with a pass that goes out and a foul that is punished
    with a red card. *)
Definition out_pass_events : list RawEvent :=
  [sample_event SB_EVENT_TYPE_HALF_START 1 0;
   sample_pass (Some SB_PASS_OUTCOME_OUT) 1 10;
   sample_foul (Some (mkCardHolderDict (Some 5))) 1 62.5;
   sample_event SB_EVENT_TYPE_HALF_END 1 2700].

(** The starting eleven of the home team, the bench left out. *)
Definition sample_starting_xi : RawEvent :=
  let e := sample_event SB_EVENT_TYPE_STARTING_XI 1 0 in
  {| raw_id := raw_id e; raw_type_id := raw_type_id e;
     raw_type_name := "Starting XI";
     raw_timestamp := raw_timestamp e; raw_period := raw_period e;
     raw_team_id := raw_team_id e;
     raw_possession_team_id := raw_possession_team_id e;
     raw_possession_team_name := raw_possession_team_name e;
     raw_player := None; raw_location := None; raw_duration := None;
     raw_pass := None; raw_shot := None; raw_dribble := None;
     raw_carry := None; raw_substitution := None;
     raw_bad_behaviour := None; raw_foul_committed := None;
     raw_tactics := Some [5203] |}.

(** A raw event of a team that plays in another match. *)
Definition sample_stranger : RawEvent :=
  let e := sample_event SB_EVENT_TYPE_HALF_START 1 5 in
  {| raw_id := raw_id e; raw_type_id := raw_type_id e;
     raw_type_name := raw_type_name e;
     raw_timestamp := raw_timestamp e; raw_period := raw_period e;
     raw_team_id := 999;
     raw_possession_team_id := raw_possession_team_id e;
     raw_possession_team_name := raw_possession_team_name e;
     raw_player := None; raw_location := None; raw_duration := None;
     raw_pass := None; raw_shot := None; raw_dribble := None;
     raw_carry := None; raw_substitution := None;
     raw_bad_behaviour := None; raw_foul_committed := None;
     raw_tactics := None |}.



Definition sample_home_team : Team :=
  build_team (fst sample_lineups) Ground.HOME ∅.

Definition sample_away_team : Team :=
  build_team (snd sample_lineups) Ground.AWAY ∅.

(** The generic arguments of a foul in the first minute. *)
Definition sample_kwargs : GenericEventKwargs :=
  {| kw_period := 0; kw_timestamp := 62.5;
     kw_ball_owning_team := sample_home_team;
     kw_ball_state := BallState.ALIVE; kw_event_id := "a3f7";
     kw_team := sample_home_team; kw_player := None;
     kw_coordinates := None;
     kw_raw_event := sample_foul (Some (mkCardHolderDict (Some 5))) 1 62.5 |}.

Section Deserializer.

Variable get_player_by_id : Team -> Z -> res (option Player).
Variable should_include_event : Event -> bool.
Variable transform_event : Event -> Event.

Definition _parse_pass (pass_dict : PassDict) (team : Team)
  (fidelity_version : Z) : res PassKwargs :=
  let* (result, receiver_player) :=
    match pass_outcome pass_dict with
    | Some outcome_id =>
        let* result :=
          if decide (outcome_id = SB_PASS_OUTCOME_OUT)
          then Ok (Some PassResult.OUT)
          else if decide (outcome_id = SB_PASS_OUTCOME_INCOMPLETE)
          then Ok (Some PassResult.INCOMPLETE)
          else if decide (outcome_id = SB_PASS_OUTCOME_OFFSIDE)
          then Ok (Some PassResult.OFFSIDE)
          else if decide (outcome_id = SB_PASS_OUTCOME_INJURY_CLEARANCE)
          then Ok (Some PassResult.OUT)
          else if decide (outcome_id = SB_PASS_OUTCOME_UNKNOWN)
          then Ok None
          else Raise (DeserializationError
                        ("Unknown pass outcome: " +:+ str outcome_id)) in
        Ok (result, None)
    | None =>
        let* recipient_id := subscript "recipient" (pass_recipient pass_dict) in
        let* receiver_player := get_player_by_id team recipient_id in
        Ok (Some PassResult.COMPLETE, receiver_player)
    end in
  let* end_location := subscript "end_location" (pass_end_location pass_dict) in
  let* receiver_coordinates := _parse_coordinates end_location fidelity_version in
  let* qualifiers :=
    _get_event_qualifiers (pass_type pass_dict) (pass_body_part pass_dict) in
  Ok {| pk_result := result;
        pk_receiver_coordinates := receiver_coordinates;
        pk_receiver_player := receiver_player;
        pk_qualifiers := qualifiers |}.

(** Lines 415-492: team, possession team, period, player, fidelity and
    the generic keyword arguments of a raw event. *)
Definition resolve_context (home_lineup away_lineup : Lineup)
  (home_team away_team : Team) (shot_fidelity_version xy_fidelity_version : Z)
  (st : State) (raw_event : RawEvent) : res Context :=
  let* team :=
    if decide (raw_team_id raw_event = lineup_team_id home_lineup)
    then Ok home_team
    else if decide (raw_team_id raw_event = lineup_team_id away_lineup)
    then Ok away_team
    else Raise (DeserializationError
                  ("Unknown team_id " +:+ str (raw_team_id raw_event))) in
  let* possession_team :=
    if decide (raw_possession_team_id raw_event = lineup_team_id home_lineup)
    then Ok home_team
    else if decide (raw_possession_team_id raw_event = lineup_team_id away_lineup)
    then Ok away_team
    else Raise (DeserializationError
                  ("Unknown possession_team_id: {'id': "
                   +:+ str (raw_possession_team_id raw_event)
                   +:+ ", 'name': '" +:+ raw_possession_team_name raw_event
                   +:+ "'}")) in
  let timestamp := parse_str_ts (raw_timestamp raw_event) in
  let period_id := raw_period raw_event in
  let* (periods, period) :=
    period_transition (st_periods st) (st_period st) timestamp period_id in
  let* player :=
    match raw_player raw_event with
    | Some id => get_player_by_id team id
    | None => Ok None
    end in
  let event_type := raw_type_id raw_event in
  let fidelity_version :=
    if decide (event_type = SB_EVENT_TYPE_SHOT) then shot_fidelity_version
    else if decide (event_type = SB_EVENT_TYPE_CARRY
                    \/ event_type = SB_EVENT_TYPE_DRIBBLE
                    \/ event_type = SB_EVENT_TYPE_PASS)
    then xy_fidelity_version
    else xy_fidelity_version in
  let* coordinates :=
    match raw_location raw_event with
    | Some location =>
        let* point := _parse_coordinates location fidelity_version in
        Ok (Some point)
    | None => Ok None
    end in
  Ok {| ctx_periods := periods;
        ctx_period := period;
        ctx_fidelity_version := fidelity_version;
        ctx_kwargs :=
          {| kw_period := period;
             kw_timestamp := timestamp;
             kw_ball_owning_team := possession_team;
             kw_ball_state := BallState.ALIVE;
             kw_event_id := raw_id raw_event;
             kw_team := team;
             kw_player := player;
             kw_coordinates := coordinates;
             kw_raw_event := raw_event |} |}.

(** Lines 494-622: the events a raw event is turned into. *)
Definition new_events_of (raw_event : RawEvent) (fidelity_version : Z)
  (generic_event_kwargs : GenericEventKwargs) : res (list Event) :=
  let event_type := raw_type_id raw_event in
  let team := kw_team generic_event_kwargs in
  let timestamp := kw_timestamp generic_event_kwargs in
  if decide (event_type = SB_EVENT_TYPE_PASS) then
    let* pass_dict := subscript "pass" (raw_pass raw_event) in
    let* pass_event_kwargs := _parse_pass pass_dict team fidelity_version in
    let* duration := subscript "duration" (raw_duration raw_event) in
    Ok [PassEvent (timestamp + duration)%float
          (pk_result pass_event_kwargs)
          (Some (pk_receiver_coordinates pass_event_kwargs))
          (pk_receiver_player pass_event_kwargs)
          (pk_qualifiers pass_event_kwargs)
          generic_event_kwargs]
  else if decide (event_type = SB_EVENT_TYPE_SHOT) then
    let* shot_dict := subscript "shot" (raw_shot raw_event) in
    let* (result, qualifiers) := _parse_shot shot_dict in
    Ok [ShotEvent result qualifiers generic_event_kwargs]
  else if decide (event_type = SB_EVENT_TYPE_DRIBBLE) then
    let* take_on_dict := subscript "dribble" (raw_dribble raw_event) in
    let* result := _parse_take_on take_on_dict in
    Ok [TakeOnEvent result generic_event_kwargs]
  else if decide (event_type = SB_EVENT_TYPE_CARRY) then
    let* carry_dict := subscript "carry" (raw_carry raw_event) in
    let* (result, end_coordinates) := _parse_carry carry_dict fidelity_version in
    Ok [CarryEvent (timestamp + default 0%float (raw_duration raw_event))%float
          result end_coordinates generic_event_kwargs]
  else if decide (event_type = SB_EVENT_TYPE_SUBSTITUTION) then
    let* substitution_dict :=
      subscript "substitution" (raw_substitution raw_event) in
    let* replacement_player := _parse_substitution substitution_dict team in
    Ok [SubstitutionEvent replacement_player generic_event_kwargs]
  else if decide (event_type = SB_EVENT_TYPE_BAD_BEHAVIOUR) then
    let* bad_behaviour_kwargs :=
      _parse_bad_behaviour
        (default (mkCardHolderDict None) (raw_bad_behaviour raw_event)) in
    match bad_behaviour_kwargs with
    | Some card_type => Ok [CardEvent card_type generic_event_kwargs]
    | None => Ok []
    end
  else if decide (event_type = SB_EVENT_TYPE_FOUL_COMMITTED) then
    let* foul_committed_kwargs :=
      _parse_foul_committed
        (default (mkCardHolderDict None) (raw_foul_committed raw_event)) in
    let new_events := [FoulCommittedEvent generic_event_kwargs] in
    match foul_committed_kwargs with
    | Some card_type =>
        Ok (new_events ++ [CardEvent card_type generic_event_kwargs])
    | None => Ok new_events
    end
  else if decide (event_type = SB_EVENT_TYPE_PLAYER_ON) then
    Ok [PlayerOnEvent generic_event_kwargs]
  else if decide (event_type = SB_EVENT_TYPE_PLAYER_OFF) then
    Ok [PlayerOffEvent generic_event_kwargs]
  else if decide (event_type = SB_EVENT_TYPE_RECOVERY) then
    Ok [RecoveryEvent generic_event_kwargs]
  else
    Ok [GenericEvent (raw_type_name raw_event) generic_event_kwargs].

(** [if self.should_include_event(e): events.append(transform_event(e))] *)
Definition append_if_included (events : list Event) (event : Event)
  : list Event :=
  if should_include_event event then events ++ [transform_event event]
  else events.

(** Lines 624-647: the body of the loop over [new_events]; the state is
    [(events, generic_event_kwargs)]. *)
Definition emit (acc : list Event * GenericEventKwargs) (event : Event)
  : res (list Event * GenericEventKwargs) :=
  let '(events, generic_event_kwargs) := acc in
  let events := append_if_included events event in
  if decide (event_result event ∈ OUT_EVENT_RESULTS) then
    let generic_event_kwargs :=
      set_ball_state generic_event_kwargs BallState.DEAD in
    let* receiver_coordinates := event_receiver_coordinates event in
    match receiver_coordinates with
    | Some point =>
        let generic_event_kwargs :=
          set_coordinates generic_event_kwargs (Some point) in
        let ball_out_event := BallOutEvent generic_event_kwargs in
        Ok (append_if_included events ball_out_event, generic_event_kwargs)
    | None => Ok (events, generic_event_kwargs)
    end
  else Ok (events, generic_event_kwargs).

(** Lines 414-647: the body of the loop over [raw_events]. *)
Definition loop_body (home_lineup away_lineup : Lineup)
  (home_team away_team : Team) (shot_fidelity_version xy_fidelity_version : Z)
  (st : State) (raw_event : RawEvent) : res State :=
  let* ctx :=
    resolve_context home_lineup away_lineup home_team away_team
      shot_fidelity_version xy_fidelity_version st raw_event in
  let* new_events :=
    new_events_of raw_event (ctx_fidelity_version ctx) (ctx_kwargs ctx) in
  let* (events, _) := for_each emit new_events (st_events st, ctx_kwargs ctx) in
  Ok {| st_periods := ctx_periods ctx;
        st_period := Some (ctx_period ctx);
        st_events := events |}.

Definition initial_state : State :=
  {| st_periods := []; st_period := None; st_events := [] |}.

(** The teams built from the two lineup records (lines 371-409). *)
Definition build_teams (inputs : StatsbombInputs) : res (Team * Team) :=
  let '(home_lineup, away_lineup) := lineup_data inputs in
  let* starting_player_ids :=
    for_each starting_player_ids_step (event_data inputs) ∅ in
  Ok (build_team home_lineup Ground.HOME starting_player_ids,
      build_team away_lineup Ground.AWAY starting_player_ids).

(** The loop of [deserialize] run on a list of raw events. *)
Definition run_loop (inputs : StatsbombInputs) (teams : Team * Team)
  (versions : Z * Z) (raw_events : list RawEvent) (st : State) : res State :=
  for_each
    (loop_body (fst (lineup_data inputs)) (snd (lineup_data inputs))
       (fst teams) (snd teams) (fst versions) (snd versions))
    raw_events st.

(** The coordinate system and the pitch dimensions, which the metadata
    takes from the transformer, are left out. *)
Definition deserialize (inputs : StatsbombInputs) : res EventDataset :=
  let raw_events := event_data inputs in
  let* versions := _determine_xy_fidelity_versions raw_events in
  let* teams := build_teams inputs in
  let* st := run_loop inputs teams versions raw_events initial_state in
  Ok {| metadata :=
          {| metadata_teams := [fst teams; snd teams];
             metadata_periods := st_periods st |};
        records := st_events st |}.

(** * The vocabulary of the properties *)

(** The raw event carries a location whose x or y is not a whole number. *)
Definition fractional_location (event : RawEvent) : bool :=
  match raw_location event with
  | Some (x :: y :: _) => negb (is_integer x) || negb (is_integer y)
  | _ => false
  end.

Definition is_shot (event : RawEvent) : bool :=
  bool_decide (raw_type_id event = SB_EVENT_TYPE_SHOT).

Definition is_movement (event : RawEvent) : bool :=
  bool_decide (raw_type_id event = SB_EVENT_TYPE_CARRY
               \/ raw_type_id event = SB_EVENT_TYPE_DRIBBLE
               \/ raw_type_id event = SB_EVENT_TYPE_PASS).

(** Every location has the two components that are unpacked. *)
Definition locations_unpack (events : list RawEvent) : Prop :=
  forall event location,
    event ∈ events -> raw_location event = Some location ->
    (2 <= length location)%nat.

(** The card id inside the [foul_committed] sub-object, if there is one. *)
Definition foul_card (raw_event : RawEvent) : option Z :=
  raw_foul_committed raw_event ≫= card.

(** The vendor code of a set piece, as the constants name it. *)
Definition set_piece_code (value : SetPieceType.t) : Z :=
  match value with
  | SetPieceType.GOAL_KICK => SB_EVENT_TYPE_GOAL_KICK
  | SetPieceType.FREE_KICK => SB_EVENT_TYPE_FREE_KICK
  | SetPieceType.THROW_IN => SB_EVENT_TYPE_THROW_IN
  | SetPieceType.CORNER_KICK => SB_EVENT_TYPE_CORNER_KICK
  | SetPieceType.PENALTY => SB_EVENT_TYPE_PENALTY
  | SetPieceType.KICK_OFF => SB_EVENT_TYPE_KICK_OFF
  end.

(** The card id inside the [bad_behaviour] sub-object, if there is one. *)
Definition bad_behaviour_card (raw_event : RawEvent) : option Z :=
  raw_bad_behaviour raw_event ≫= card.

(** The acting team of the raw event, as told by the team ids of the
    lineup records, lists no player with the id. *)
Definition acting_lineup_lacks (lineups : Lineup * Lineup)
  (raw_event : RawEvent) (id : Z) : Prop :=
  (raw_team_id raw_event = lineup_team_id lineups.1 ->
   Forall (fun player => lineup_player_id player <> id) (lineup lineups.1))
  /\ (raw_team_id raw_event = lineup_team_id lineups.2 ->
      Forall (fun player => lineup_player_id player <> id) (lineup lineups.2)).

(** What one raw event does to the list of periods, as a relation: the
    first event opens the first period; an event with another period
    number than the last period's opens the next one, which needs the last
    period's end; an event with the same number sets the last period's
    end. *)
Inductive period_step (timestamp : float) (period_id : Z)
  : list Period.t -> list Period.t -> Prop :=
| step_open_first :
    period_step timestamp period_id []
      [Period.mk period_id timestamp None]
| step_open_next (periods : list Period.t) (p : Period.t) (e : float) :
    last periods = Some p ->
    Period.id p <> period_id ->
    Period.end_timestamp p = Some e ->
    period_step timestamp period_id periods
      (periods ++ [Period.mk period_id (timestamp + e + 0.001)%float None])
| step_extend (periods : list Period.t) (p : Period.t) :
    Period.id p = period_id ->
    period_step timestamp period_id (periods ++ [p])
      (periods ++ [Period.set_end_timestamp p
                     (Some (Period.start_timestamp p + timestamp)%float)]).

(** The variable [period] refers to the last object of [periods]. *)
Definition period_ref_ok (periods : list Period.t) (period : option nat)
  : Prop :=
  match period with
  | None => periods = []
  | Some ref => S ref = length periods
  end.


(** The invariant of the loop on the periods. *)
Definition state_ok (st : State) : Prop :=
  period_ref_ok (st_periods st) (st_period st).


(** Successive ids differ. *)
Definition ids_alternate (ids : list Z) : Prop :=
  forall i a b, ids !! i = Some a -> ids !! S i = Some b -> a <> b.

(** The ids grow strictly. *)
Definition ids_increasing (ids : list Z) : Prop :=
  forall i j a b,
    (i < j)%nat -> ids !! i = Some a -> ids !! j = Some b -> a < b.

(** The period numbers of the raw events never decrease. *)
Definition period_numbers_sorted (raw_events : list RawEvent) : Prop :=
  forall i j e1 e2,
    (i <= j)%nat -> raw_events !! i = Some e1 -> raw_events !! j = Some e2 ->
    raw_period e1 <= raw_period e2.



(** A spec float that is neither negative nor a NaN, and a float whose
    comparison with zero says so. *)
Definition sf_nonneg (x : spec_float) : Prop :=
  match x with
  | S754_zero _ | S754_infinity false | S754_finite false _ _ => True
  | _ => False
  end.

Definition nonneg (x : float) : Prop := (0 <=? x)%float = true.



(** [event.period], [event.ball_state], [event.coordinates] and the other
    generic fields of an event. *)
Definition event_kwargs (event : Event) : GenericEventKwargs :=
  match event with
  | PassEvent _ _ _ _ _ kw | ShotEvent _ _ kw | TakeOnEvent _ kw
  | CarryEvent _ _ _ kw | SubstitutionEvent _ kw | CardEvent _ kw
  | FoulCommittedEvent kw | PlayerOnEvent kw | PlayerOffEvent kw
  | RecoveryEvent kw | GenericEvent _ kw | BallOutEvent kw => kw
  end.

(** The location of the raw event is too short to be unpacked. *)
Definition short_location (event : RawEvent) : Prop :=
  exists location,
    raw_location event = Some location /\ (length location < 2)%nat.

(** A starting-eleven raw event announces the player id. *)
Definition announced (raw_events : list RawEvent) (id : string) : Prop :=
  exists raw_event tactics_lineup player,
    raw_event ∈ raw_events
    /\ raw_type_id raw_event = SB_EVENT_TYPE_STARTING_XI
    /\ raw_tactics raw_event = Some tactics_lineup
    /\ player ∈ tactics_lineup
    /\ id = str player.

(** Two sets of generic arguments made for the same raw event: they
    differ in the ball state and the coordinates at most. *)
Definition same_origin (kw kw0 : GenericEventKwargs) : Prop :=
  kw_period kw = kw_period kw0
  /\ kw_timestamp kw = kw_timestamp kw0
  /\ kw_raw_event kw = kw_raw_event kw0
  /\ kw_event_id kw = kw_event_id kw0
  /\ kw_team kw = kw_team kw0
  /\ kw_ball_owning_team kw = kw_ball_owning_team kw0
  /\ kw_player kw = kw_player kw0.

(** The event names its raw event's id, the team and the possession team
    that the raw event's team ids select among the two lineups, the home
    lineup being looked at first, and the player that the roster lookup
    gives for the raw event's player id. *)
Definition event_attributed
  (get_player_by_id : Team -> Z -> res (option Player))
  (home_lineup away_lineup : Lineup) (home_team away_team : Team)
  (event : Event) : Prop :=
  let kw := event_kwargs event in
  let raw_event := kw_raw_event kw in
  kw_event_id kw = raw_id raw_event
  /\ (raw_team_id raw_event = lineup_team_id home_lineup
      /\ kw_team kw = home_team
      \/ raw_team_id raw_event <> lineup_team_id home_lineup
         /\ raw_team_id raw_event = lineup_team_id away_lineup
         /\ kw_team kw = away_team)
  /\ (raw_possession_team_id raw_event = lineup_team_id home_lineup
      /\ kw_ball_owning_team kw = home_team
      \/ raw_possession_team_id raw_event <> lineup_team_id home_lineup
         /\ raw_possession_team_id raw_event = lineup_team_id away_lineup
         /\ kw_ball_owning_team kw = away_team)
  /\ match raw_player raw_event with
     | Some id => get_player_by_id (kw_team kw) id = Ok (kw_player kw)
     | None => kw_player kw = None
     end.

(** An event as the loop makes it: its period is in the list and has the
    period number of its raw event, its time stamp is the clock reading
    of that raw event, and the ball is alive, or dead with coordinates for
    a ball-out event. *)
Definition event_sound (periods : list Period.t) (event : Event) : Prop :=
  let kw := event_kwargs event in
  (exists p,
     periods !! kw_period kw = Some p
     /\ Period.id p = raw_period (kw_raw_event kw))
  /\ kw_timestamp kw = parse_str_ts (raw_timestamp (kw_raw_event kw))
  /\ match event with
     | BallOutEvent _ =>
         kw_ball_state kw = BallState.DEAD /\ is_Some (kw_coordinates kw)
     | _ => kw_ball_state kw = BallState.ALIVE
     end.

(** A record of the output: the transform of an event the filter keeps. *)
Definition record_of (should_include_event : Event -> bool)
  (transform_event : Event -> Event) (P : Event -> Prop) (record : Event)
  : Prop :=
  exists event,
    record = transform_event event
    /\ should_include_event event = true /\ P event.

(** The records made from one raw event: at most two, each the
    transform of an event that the filter keeps, that was made from the
    raw event and is sound for the periods. *)
Definition made_records (should_include_event : Event -> bool)
  (transform_event : Event -> Event) (periods : list Period.t)
  (raw_event : RawEvent) (chunk : list Event) : Prop :=
  (length chunk <= 2)%nat
  /\ Forall (record_of should_include_event transform_event
               (fun event =>
                  event_sound periods event
                  /\ kw_raw_event (event_kwargs event) = raw_event)) chunk.

(** An event made from [kw0], or the ball-out event that follows it. *)
Definition made_from (kw0 : GenericEventKwargs) (event : Event) : Prop :=
  same_origin (event_kwargs event) kw0
  /\ match event with
     | BallOutEvent kw =>
         kw_ball_state kw = BallState.DEAD /\ is_Some (kw_coordinates kw)
     | _ => event_kwargs event = kw0
     end.

(** A list of numbers with every run of equal neighbours cut down to its
    first member. *)
Fixpoint compress (numbers : list Z) : list Z :=
  match numbers with
  | [] => []
  | x :: rest =>
      match rest with
      | [] => [x]
      | y :: _ => if decide (x = y) then compress rest else x :: compress rest
      end
  end.

(** The raw event has a type whose mapper reads the sub-object [key],
    and has no such key. *)
Definition missing_sub_object (raw_event : RawEvent) (key : string) : Prop :=
  (raw_type_id raw_event = SB_EVENT_TYPE_PASS
   /\ raw_pass raw_event = None /\ key = "pass")
  \/ (raw_type_id raw_event = SB_EVENT_TYPE_SHOT
      /\ raw_shot raw_event = None /\ key = "shot")
  \/ (raw_type_id raw_event = SB_EVENT_TYPE_DRIBBLE
      /\ raw_dribble raw_event = None /\ key = "dribble")
  \/ (raw_type_id raw_event = SB_EVENT_TYPE_CARRY
      /\ raw_carry raw_event = None /\ key = "carry")
  \/ (raw_type_id raw_event = SB_EVENT_TYPE_SUBSTITUTION
      /\ raw_substitution raw_event = None /\ key = "substitution").

(** Two runs that end alike: with related values, or with the same
    exception. *)
Definition res_rel {A B : Type} (R : A -> B -> Prop) (x : res A) (y : res B)
  : Prop :=
  match x, y with
  | Ok a, Ok b => R a b
  | Raise e, Raise e' => e = e'
  | _, _ => False
  end.

(** The filter and the transformer applied to a list of events. *)
Definition keep_and_transform (should_include_event : Event -> bool)
  (transform_event : Event -> Event) (events : list Event) : list Event :=
  transform_event <$> List.filter should_include_event events.

(** A pass that went out and the ball-out event made from it: the
    ball-out event has the generic arguments of the pass, with a dead ball
    and the receiver coordinates of the pass as coordinates. *)
Definition out_pass (pass ball_out : Event) : Prop :=
  exists receive_timestamp point receiver_player qualifiers kw,
    pass = PassEvent receive_timestamp (Some PassResult.OUT) (Some point)
             receiver_player qualifiers kw
    /\ ball_out
       = BallOutEvent
           (set_coordinates (set_ball_state kw BallState.DEAD) (Some point)).

(** Neither a ball-out event nor an event with an out result. *)
Definition plain_event (event : Event) : Prop :=
  (event_result event ∉ OUT_EVENT_RESULTS)
  /\ forall kw, event <> BallOutEvent kw.

(** Every ball-out event comes directly after the pass it was made from,
    and every event with an out result is a pass directly followed by its
    ball-out event. *)
Definition ball_out_after_pass (events : list Event) : Prop :=
  (forall i kw,
     events !! i = Some (BallOutEvent kw) ->
     exists j pass,
       i = S j /\ events !! j = Some pass
       /\ out_pass pass (BallOutEvent kw))
  /\ (forall j event,
        events !! j = Some event ->
        event_result event ∈ OUT_EVENT_RESULTS ->
        exists ball_out,
          events !! S j = Some ball_out /\ out_pass event ball_out).

(** The events follow the order of the raw events they were made from. *)
Definition in_feed_order (raw_events : list RawEvent) (events : list Event)
  : Prop :=
  forall i j e1 e2,
    (i <= j)%nat -> events !! i = Some e1 -> events !! j = Some e2 ->
    exists a b,
      (a <= b)%nat
      /\ raw_events !! a = Some (kw_raw_event (event_kwargs e1))
      /\ raw_events !! b = Some (kw_raw_event (event_kwargs e2)).

(** * Properties *)

(** ** The result monad and the loops *)

Lemma bind_Ok {A B : Type} (m : res A) (k : A -> res B) (b : B) :
  bind m k = Ok b <-> exists a, m = Ok a /\ k a = Ok b.
Proof.
  destruct m as [a|e]; simpl; split.
  - eauto.
  - intros (a' & [= <-] & Hk). exact Hk.
  - discriminate.
  - intros (a' & [=] & _).
Qed.

Lemma bind_Raise {A B : Type} (m : res A) (k : A -> res B) (e : error) :
  bind m k = Raise e <->
  m = Raise e \/ exists a, m = Ok a /\ k a = Raise e.
Proof.
  destruct m as [a|e']; simpl; split.
  - eauto.
  - intros [[=]|(a' & [= <-] & Hk)]. exact Hk.
  - intros [= ->]. by left.
  - intros [[= ->]|(a' & [=] & _)]. reflexivity.
Qed.

(** Splits the hypotheses that say a chain of [let*] returned. *)
Ltac bind_inv :=
  repeat match goal with
    | H : bind _ _ = Ok _ |- _ =>
        let a := fresh "a" in
        let Ha := fresh "Ha" in
        apply bind_Ok in H as (a & Ha & H)
    | H : Ok _ = Ok _ |- _ => injection H as H
    | H : Raise _ = Ok _ |- _ => discriminate H
    end.

Lemma for_each_app {S A : Type} (body : S -> A -> res S) (l1 l2 : list A)
  (s : S) :
  for_each body (l1 ++ l2) s =
  let* s' := for_each body l1 s in for_each body l2 s'.
Proof.
  revert s. induction l1 as [|a l1 IH]; intros s; simpl; [done|].
  destruct (body s a) as [s'|e]; simpl; [apply IH|done].
Qed.

Lemma for_each_snoc {S A : Type} (body : S -> A -> res S) (l : list A)
  (a : A) (s : S) :
  for_each body (l ++ [a]) s = let* s' := for_each body l s in body s' a.
Proof.
  rewrite for_each_app. destruct (for_each body l s) as [s'|e]; simpl; [|done].
  by destruct (body s' a).
Qed.

(** An exception raised by the body ends the loop with that exception. *)
Lemma for_each_raise {S A : Type} (body : S -> A -> res S)
  (l1 l2 : list A) (a : A) (s s1 : S) (e : error) :
  for_each body l1 s = Ok s1 -> body s1 a = Raise e ->
  for_each body (l1 ++ a :: l2) s = Raise e.
Proof. intros H1 H2. rewrite for_each_app, H1. simpl. by rewrite H2. Qed.

(** A loop over a list that holds an item on which the body always
    raises does not return. *)
Lemma for_each_fails {S A : Type} (body : S -> A -> res S) (l : list A)
  (a : A) (s : S) :
  a ∈ l -> (forall s', exists e, body s' a = Raise e) ->
  exists e, for_each body l s = Raise e.
Proof.
  intros Hin Hbody. revert s.
  induction l as [|a' l IH]; intros s; [by apply elem_of_nil in Hin|].
  simpl. apply elem_of_cons in Hin as [<-|Hin].
  - destruct (Hbody s) as [e ->]. by exists e.
  - destruct (body s a') as [s'|e]; simpl; [by apply IH|by exists e].
Qed.

(** ** C6: the coordinate resolver *)

(** C6. The cell (1, 1) is resolved to (0.5, 0.5) at low fidelity
    (version 1) and to (0.95, 0.95) at high fidelity (version 2), in
    binary64 arithmetic; in general each coordinate is the raw value minus
    half a cell side, the side being 0.1 at version 2 and 1.0 otherwise. *)
Theorem parse_coordinates_half_cell :
  _parse_coordinates [1; 1]%float 1 = Ok (mkPoint 0.5 0.5)
  /\ _parse_coordinates [1; 1]%float 2 = Ok (mkPoint 0.95 0.95)
  /\ (forall (x y : float) (rest : list float),
        _parse_coordinates (x :: y :: rest) 1
        = Ok (mkPoint (x - 1.0 / 2) (y - 1.0 / 2))
        /\ _parse_coordinates (x :: y :: rest) 2
          = Ok (mkPoint (x - 0.1 / 2) (y - 0.1 / 2)))
  /\ (forall (x y : float) (rest : list float) (fidelity_version : Z),
        _parse_coordinates (x :: y :: rest) fidelity_version
        = let cell_side :=
            if decide (fidelity_version = 2) then 0.1%float else 1.0%float in
          Ok (mkPoint (x - cell_side / 2) (y - cell_side / 2))).
Proof.
  split; [vm_compute; reflexivity|].
  split; [vm_compute; reflexivity|].
  split; intros x y rest; [split; reflexivity|].
  intros fidelity_version. unfold _parse_coordinates. simpl.
  by destruct (decide (fidelity_version = 2)).
Qed.

(** ** C5: the fidelity detector *)

(** [is_integer] on whole, fractional and special values. *)
Example is_integer_examples :
  is_integer 61 = true /\ is_integer (-3) = true /\ is_integer 0 = true
  /\ is_integer 40.5 = false /\ is_integer 0.1 = false
  /\ is_integer infinity = false /\ is_integer nan = false.
Proof. repeat split; vm_compute; reflexivity. Qed.

Lemma fidelity_step_spec (versions : Z * Z) (event : RawEvent) :
  (forall location,
     raw_location event = Some location -> (2 <= length location)%nat) ->
  fidelity_step versions event =
  Ok (if fractional_location event && is_shot event then 2 else versions.1,
      if fractional_location event && negb (is_shot event)
         && is_movement event then 2 else versions.2).
Proof.
  intros Hlen. destruct versions as [s m].
  unfold fidelity_step, fractional_location, is_shot, is_movement.
  destruct (raw_location event) as [[|x [|y rest]]|] eqn:Hloc; simpl.
  - specialize (Hlen _ eq_refl). simpl in Hlen. lia.
  - specialize (Hlen _ eq_refl). simpl in Hlen. lia.
  - destruct (negb (is_integer x) || negb (is_integer y)); simpl; [|done].
    destruct (decide (raw_type_id event = SB_EVENT_TYPE_SHOT)) as [Hs|Hs].
    + by rewrite bool_decide_eq_true_2.
    + rewrite (bool_decide_eq_false_2 _ Hs). simpl.
      by case_decide; [rewrite bool_decide_eq_true_2
                      |rewrite bool_decide_eq_false_2].
  - done.
Qed.

Lemma fidelity_loop_spec (events : list RawEvent) (versions : Z * Z) :
  locations_unpack events ->
  for_each fidelity_step events versions =
  Ok (if existsb (fun e => fractional_location e && is_shot e) events
      then 2 else versions.1,
      if existsb (fun e => fractional_location e && is_movement e) events
      then 2 else versions.2).
Proof.
  revert versions. induction events as [|event events IH];
    intros versions Hlen; simpl.
  - by destruct versions.
  - rewrite fidelity_step_spec
      by (intros location; apply Hlen; apply elem_of_cons; by left).
    simpl. rewrite IH
      by (intros e l He; apply Hlen; apply elem_of_cons; by right).
    simpl. f_equal. f_equal.
    + destruct (fractional_location event && is_shot event); simpl; [|done].
      by destruct (existsb _ events).
    + destruct (existsb (fun e => fractional_location e && is_movement e)
                  events); [by rewrite orb_true_r|].
      rewrite orb_false_r.
      unfold is_shot, is_movement, SB_EVENT_TYPE_SHOT, SB_EVENT_TYPE_CARRY,
        SB_EVENT_TYPE_DRIBBLE, SB_EVENT_TYPE_PASS.
      destruct (fractional_location event); simpl; [|done].
      repeat case_bool_decide; simpl; try lia; done.
Qed.

(** C5. On raw events whose locations have two components the detector
    returns, after one pass over the list, a pair of tags: the shot tag is
    2 exactly when some shot event carries a location with a fractional x
    or y, the movement tag is 2 exactly when some carry, dribble or pass
    event does, and a tag that is not 2 is 1. *)
Theorem determine_xy_fidelity_versions_spec (events : list RawEvent) :
  locations_unpack events ->
  exists shot_fidelity_version xy_fidelity_version,
    _determine_xy_fidelity_versions events
    = Ok (shot_fidelity_version, xy_fidelity_version)
    /\ (shot_fidelity_version = 2 <->
        exists event, event ∈ events /\ raw_type_id event = SB_EVENT_TYPE_SHOT
                      /\ fractional_location event = true)
    /\ (xy_fidelity_version = 2 <->
        exists event, event ∈ events
                      /\ (raw_type_id event = SB_EVENT_TYPE_CARRY
                          \/ raw_type_id event = SB_EVENT_TYPE_DRIBBLE
                          \/ raw_type_id event = SB_EVENT_TYPE_PASS)
                      /\ fractional_location event = true)
    /\ (shot_fidelity_version <> 2 -> shot_fidelity_version = 1)
    /\ (xy_fidelity_version <> 2 -> xy_fidelity_version = 1).
Proof.
  intros Hlen. unfold _determine_xy_fidelity_versions.
  rewrite (fidelity_loop_spec _ _ Hlen). simpl.
  eexists _, _. split; [reflexivity|].
  assert (forall (P : RawEvent -> bool),
            (if existsb P events then 2 else 1) = 2 <->
            exists event, event ∈ events /\ P event = true) as Hex.
  { intros P. destruct (existsb P events) eqn:HP.
    - apply existsb_exists in HP as (event & Hin & HP).
      split; [|done]. intros _. exists event.
      by rewrite list_elem_of_In.
    - split; [done|]. intros (event & Hin & HPe).
      assert (existsb P events = true) as Habs; [|congruence].
      apply existsb_exists. exists event. by rewrite <- list_elem_of_In. }
  repeat split.
  - intros H. apply Hex in H as (event & Hin & [Hf Hs]%andb_prop).
    exists event. by apply bool_decide_eq_true in Hs.
  - intros (event & Hin & Hs & Hf). apply Hex. exists event.
    split; [done|]. rewrite Hf. by apply bool_decide_eq_true.
  - intros H. apply Hex in H as (event & Hin & [Hf Hs]%andb_prop).
    exists event. by apply bool_decide_eq_true in Hs.
  - intros (event & Hin & Hs & Hf). apply Hex. exists event.
    split; [done|]. rewrite Hf. by apply bool_decide_eq_true.
  - by destruct (existsb _ events).
  - by destruct (existsb _ events).
Qed.

(** ** C1: the pass mapper *)

(** C1. The outcome code decides the result of [_parse_pass]: 75 and 74
    give OUT, 9 INCOMPLETE, 76 OFFSIDE, 77 no result, each with no
    receiver; any other code (8, the COMPLETE code of the take-on mapper,
    included) raises the deserialization error naming the code; an absent
    outcome gives COMPLETE with the receiver that the roster lookup
    returns for the recipient id. A returned result is one of OUT,
    INCOMPLETE, OFFSIDE, COMPLETE and null. *)
Theorem parse_pass_outcome_mapping (pass_dict : PassDict) (team : Team)
  (fidelity_version : Z) :
  (forall outcome_id,
     pass_outcome pass_dict = Some outcome_id ->
     outcome_id ∉ [SB_PASS_OUTCOME_OUT; SB_PASS_OUTCOME_INCOMPLETE;
                   SB_PASS_OUTCOME_OFFSIDE; SB_PASS_OUTCOME_INJURY_CLEARANCE;
                   SB_PASS_OUTCOME_UNKNOWN] ->
     _parse_pass pass_dict team fidelity_version
     = Raise (DeserializationError
                ("Unknown pass outcome: " +:+ str outcome_id)))
  /\ (forall kwargs,
        _parse_pass pass_dict team fidelity_version = Ok kwargs ->
        pk_result kwargs ∈ [Some PassResult.OUT; Some PassResult.INCOMPLETE;
                            Some PassResult.OFFSIDE; Some PassResult.COMPLETE;
                            None])
  /\ (forall end_location point qualifiers,
        pass_end_location pass_dict = Some end_location ->
        _parse_coordinates end_location fidelity_version = Ok point ->
        _get_event_qualifiers (pass_type pass_dict) (pass_body_part pass_dict)
        = Ok qualifiers ->
        (pass_outcome pass_dict = Some SB_PASS_OUTCOME_OUT
         \/ pass_outcome pass_dict = Some SB_PASS_OUTCOME_INJURY_CLEARANCE ->
         _parse_pass pass_dict team fidelity_version
         = Ok (mkPassKwargs (Some PassResult.OUT) point None qualifiers))
        /\ (pass_outcome pass_dict = Some SB_PASS_OUTCOME_INCOMPLETE ->
            _parse_pass pass_dict team fidelity_version
            = Ok (mkPassKwargs (Some PassResult.INCOMPLETE) point None
                    qualifiers))
        /\ (pass_outcome pass_dict = Some SB_PASS_OUTCOME_OFFSIDE ->
            _parse_pass pass_dict team fidelity_version
            = Ok (mkPassKwargs (Some PassResult.OFFSIDE) point None
                    qualifiers))
        /\ (pass_outcome pass_dict = Some SB_PASS_OUTCOME_UNKNOWN ->
            _parse_pass pass_dict team fidelity_version
            = Ok (mkPassKwargs None point None qualifiers))
        /\ (pass_outcome pass_dict = None ->
            forall recipient_id receiver_player,
              pass_recipient pass_dict = Some recipient_id ->
              get_player_by_id team recipient_id = Ok receiver_player ->
              _parse_pass pass_dict team fidelity_version
              = Ok (mkPassKwargs (Some PassResult.COMPLETE) point
                      receiver_player qualifiers))).
Proof.
  split; [|split].
  - intros outcome_id Ho Hnot. unfold _parse_pass. rewrite Ho.
    repeat (case_decide; [exfalso; apply Hnot; subst; set_solver|]).
    reflexivity.
  - intros kwargs _. destruct (pk_result kwargs) as [[]|]; set_solver.
  - intros end_location point qualifiers Hend Hpoint Hq.
    unfold _parse_pass. rewrite Hend. simpl. rewrite Hpoint, Hq. simpl.
    repeat split.
    + by intros [-> | ->].
    + by intros ->.
    + by intros ->.
    + by intros ->.
    + intros -> recipient_id receiver_player -> . simpl. by intros ->.
Qed.

(** ** The loop over the new events *)

Lemma bind_fails {A B : Type} (m : res A) (k : A -> res B) :
  (forall a, m = Ok a -> exists e, k a = Raise e) ->
  exists e, bind m k = Raise e.
Proof. destruct m as [a|e]; simpl; intros Hk; [by apply Hk|by exists e]. Qed.

(** An event whose result is not an out result is appended, if the filter
    keeps it, and nothing else happens. *)
Lemma emit_not_out (events : list Event) (kw : GenericEventKwargs)
  (event : Event) :
  event_result event ∉ OUT_EVENT_RESULTS ->
  emit (events, kw) event = Ok (append_if_included events event, kw).
Proof. intros Hout. unfold emit. by rewrite decide_False. Qed.

Lemma no_result_not_out : None ∉ OUT_EVENT_RESULTS.
Proof. by apply (bool_decide_unpack _). Qed.

(** The events whose result is an out result. *)
Lemma out_event_result (event : Event) :
  event_result event ∈ OUT_EVENT_RESULTS <->
  (exists receive_timestamp receiver_coordinates receiver_player qualifiers kw,
     event = PassEvent receive_timestamp (Some PassResult.OUT)
               receiver_coordinates receiver_player qualifiers kw)
  \/ (exists kw, event = TakeOnEvent TakeOnResult.OUT kw).
Proof.
  unfold OUT_EVENT_RESULTS. split.
  - intros Hin. set_unfold in Hin.
    destruct Hin as [Hin|[Hin|[]]];
      destruct event as [? [[]|] | | [] | | | | | | | | |]; simplify_eq/=;
      [left|right]; eauto 10.
  - intros [(? & ? & ? & ? & ? & ->)|(? & ->)]; simpl; set_solver.
Qed.

(** A pass that went out is followed by the ball-out event made from the
    generic arguments, with the receiver's coordinates and a dead ball. *)
Lemma emit_pass_out (events : list Event) (kw kw' : GenericEventKwargs)
  (receive_timestamp : float) (point : Point) (receiver_player : option Player)
  (qualifiers : list Qualifier) :
  let pass_event :=
    PassEvent receive_timestamp (Some PassResult.OUT) (Some point)
      receiver_player qualifiers kw' in
  let kw_out := set_coordinates (set_ball_state kw BallState.DEAD) (Some point) in
  emit (events, kw) pass_event
  = Ok (append_if_included (append_if_included events pass_event)
          (BallOutEvent kw_out), kw_out).
Proof.
  cbv zeta. unfold emit.
  rewrite decide_True by (unfold OUT_EVENT_RESULTS; simpl; set_solver).
  reflexivity.
Qed.

(** A take-on that went out has no receiver coordinates to read. *)
Lemma emit_take_on_out (events : list Event) (kw kw' : GenericEventKwargs) :
  emit (events, kw) (TakeOnEvent TakeOnResult.OUT kw')
  = Raise (AttributeError "receiver_coordinates").
Proof.
  unfold emit.
  rewrite decide_True by (unfold OUT_EVENT_RESULTS; simpl; set_solver).
  reflexivity.
Qed.

(** X1. The ball-out event is made for passes and take-ons that went
    out and for no other event: any other event is appended, if the
    filter keeps it, and the generic arguments stay as they are. *)
Theorem only_out_results_make_ball_out (events : list Event)
  (kw : GenericEventKwargs) (event : Event) :
  (forall receive_timestamp receiver_coordinates receiver_player qualifiers
          kw',
     event <> PassEvent receive_timestamp (Some PassResult.OUT)
                receiver_coordinates receiver_player qualifiers kw') ->
  (forall kw', event <> TakeOnEvent TakeOnResult.OUT kw') ->
  emit (events, kw) event = Ok (append_if_included events event, kw).
Proof.
  intros Hpass Htake_on. apply emit_not_out.
  intros [(? & ? & ? & ? & ? & ->)|(? & ->)]%out_event_result.
  - by eapply Hpass.
  - by eapply Htake_on.
Qed.

(** ** Sums of floats that are not negative

    The addition of binary64, read off its specification [SFadd]: a sum
    of two floats that are not negative is not below either of them. *)

Lemma digits2_pos_bounds (m : positive) :
  2 ^ (Zpos (digits2_pos m) - 1) <= Zpos m < 2 ^ Zpos (digits2_pos m).
Proof.
  induction m as [m IH|m IH|]; simpl digits2_pos.
  - rewrite Pos2Z.inj_succ.
    replace (Z.succ (Zpos (digits2_pos m)) - 1)
      with (Z.succ (Zpos (digits2_pos m) - 1)) by lia.
    rewrite !Z.pow_succ_r by lia. lia.
  - rewrite Pos2Z.inj_succ.
    replace (Z.succ (Zpos (digits2_pos m)) - 1)
      with (Z.succ (Zpos (digits2_pos m) - 1)) by lia.
    rewrite !Z.pow_succ_r by lia. lia.
  - simpl. lia.
Qed.

Lemma digits2_pos_lower (m n : positive) (k : Z) :
  0 <= k -> Zpos n * 2 ^ k <= Zpos m ->
  Zpos (digits2_pos n) + k <= Zpos (digits2_pos m).
Proof.
  intros Hk Hle.
  destruct (digits2_pos_bounds m) as [_ Hm].
  destruct (digits2_pos_bounds n) as [Hn _].
  destruct (Z.le_gt_cases (Zpos (digits2_pos n) + k) (Zpos (digits2_pos m)))
    as [|Hlt]; [done|exfalso].
  assert (2 ^ Zpos (digits2_pos m) <= 2 ^ (Zpos (digits2_pos n) - 1 + k))
    as Hpow by (apply Z.pow_le_mono_r; lia).
  rewrite Z.pow_add_r in Hpow by lia.
  assert (0 < 2 ^ k) by (apply Z.pow_pos_nonneg; lia).
  nia.
Qed.

(** The exponent function of binary64. *)
Lemma fexp_eq (e : Z) : SpecFloat.fexp prec emax e = Z.max (e - 53) (-1074).
Proof. reflexivity. Qed.

Lemma shr_1_m (mrs : shr_record) :
  0 <= shr_m mrs -> shr_m (shr_1 mrs) = shr_m mrs / 2.
Proof.
  destruct mrs as [m r s]. cbn [shr_m]. intros Hm.
  destruct m as [|[p|p|]|p]; cbn [shr_1 shr_m]; [done| | |done|lia].
  - apply Z.div_unique with 1; lia.
  - apply Z.div_unique with 0; lia.
Qed.

Lemma iter_shr_1_m (p : positive) (mrs : shr_record) :
  0 <= shr_m mrs ->
  shr_m (SpecFloat.iter_pos shr_1 p mrs) = shr_m mrs / 2 ^ Zpos p.
Proof.
  revert mrs. induction p as [p IH|p IH|]; intros mrs Hm; cbn [SpecFloat.iter_pos].
  - assert (0 <= shr_m (shr_1 mrs))
      by (rewrite shr_1_m by done; apply Z.div_pos; lia).
    assert (0 <= shr_m (SpecFloat.iter_pos shr_1 p (shr_1 mrs)))
      by (rewrite IH by done; apply Z.div_pos; [done|apply Z.pow_pos_nonneg; lia]).
    rewrite !IH, shr_1_m by done.
    assert (0 < 2 ^ Zpos p) by (apply Z.pow_pos_nonneg; lia).
    rewrite !Z.div_div by lia.
    replace (2 ^ Zpos p~1) with (2 * (2 ^ Zpos p * 2 ^ Zpos p)); [done|].
    rewrite (Pos2Z.inj_xI p).
    replace (2 * Zpos p + 1) with (1 + Zpos p + Zpos p) by lia.
    rewrite !Z.pow_add_r, Z.pow_1_r by lia. lia.
  - assert (0 <= shr_m (SpecFloat.iter_pos shr_1 p mrs))
      by (rewrite IH by done; apply Z.div_pos; [done|apply Z.pow_pos_nonneg; lia]).
    rewrite !IH by done.
    assert (0 < 2 ^ Zpos p) by (apply Z.pow_pos_nonneg; lia).
    rewrite !Z.div_div by lia.
    replace (2 ^ Zpos p~0) with (2 ^ Zpos p * 2 ^ Zpos p); [done|].
    rewrite (Pos2Z.inj_xO p).
    replace (2 * Zpos p) with (Zpos p + Zpos p) by lia.
    rewrite !Z.pow_add_r by lia. lia.
  - by apply shr_1_m.
Qed.

Lemma shr_m_of_loc (m : Z) (l : location) :
  shr_m (shr_record_of_loc m l) = m.
Proof. by destruct l as [|[]]. Qed.

(** A right shift, on a mantissa that is not negative. *)
Lemma shr_spec (m : Z) (l : location) (e n : Z) :
  0 <= m ->
  exists mrs,
    shr (shr_record_of_loc m l) e n = (mrs, e + Z.max n 0)
    /\ shr_m mrs = m / 2 ^ Z.max n 0
    /\ (n <= 0 -> mrs = shr_record_of_loc m l).
Proof.
  intros Hm. destruct n as [|p|p]; simpl shr.
  - eexists. split; [by rewrite Z.add_0_r|]. split; [|done].
    rewrite shr_m_of_loc. simpl. by rewrite Z.div_1_r.
  - eexists. split; [by rewrite Z.max_l by lia|]. split; [|lia].
    rewrite Z.max_l by lia. rewrite iter_shr_1_m; by rewrite shr_m_of_loc.
  - eexists. split; [by rewrite Z.add_0_r|]. split; [|done].
    rewrite shr_m_of_loc. simpl. by rewrite Z.div_1_r.
Qed.

Lemma round_nearest_even_bounds (m : Z) (l : location) :
  m <= round_nearest_even m l <= m + 1.
Proof. destruct l as [|[]]; simpl; try lia. destruct (Z.even m); lia. Qed.

Lemma div_pow2_lower (m k n : Z) :
  0 <= n -> k * 2 ^ n <= m -> k <= m / 2 ^ n.
Proof.
  intros Hn Hle. apply Z.div_le_lower_bound; [apply Z.pow_pos_nonneg; lia|].
  lia.
Qed.

(** Rounding a positive number that is at least a canonical float gives
    at least that float. *)
Lemma binary_round_lower (mx m : positive) (ex ez : Z) :
  canonical_mantissa prec emax mx ex = true ->
  ez <= ex -> Zpos mx * 2 ^ (ex - ez) <= Zpos m ->
  match binary_round prec emax false m ez with
  | S754_infinity false => True
  | S754_finite false mr er => ex < er \/ (ex = er /\ Zpos mx <= Zpos mr)
  | _ => False
  end.
Proof.
  intros Hcan%Z.eqb_eq Hez Hm. rewrite fexp_eq in Hcan.
  pose proof (digits2_pos_lower m mx (ex - ez) ltac:(lia) Hm) as Hd.
  pose proof (digits2_pos_bounds m) as [Hlow _].
  unfold binary_round. rewrite fexp_eq.
  set (f := Z.max (Zpos (digits2_pos m) + ez - 53) (-1074)).
  assert (ex <= f) as Hf by lia.
  assert (shl_align m ez f = (m, ez)) as ->.
  { unfold shl_align. destruct (f - ez) eqn:Hsub; [done|done|lia]. }
  unfold binary_round_aux, shr_fexp. cbn [Zdigits2]. rewrite fexp_eq.
  fold f.
  destruct (shr_spec (Zpos m) loc_Exact ez (f - ez) ltac:(lia))
    as (mrs1 & -> & Hm1 & _).
  rewrite Z.max_l in Hm1 by lia.
  replace (ez + Z.max (f - ez) 0) with f by lia.
  set (m1 := round_nearest_even (shr_m mrs1) (loc_of_shr_record mrs1)).
  pose proof (round_nearest_even_bounds (shr_m mrs1) (loc_of_shr_record mrs1))
    as [Hround _]. fold m1 in Hround.
  assert (1 <= shr_m mrs1) as Hpos1.
  { rewrite Hm1. apply div_pow2_lower; [lia|]. rewrite Z.mul_1_l.
    eapply Z.le_trans; [|exact Hlow]. apply Z.pow_le_mono_r; lia. }
  assert (ex = f -> Zpos mx <= shr_m mrs1) as Hsame.
  { intros <-. rewrite Hm1. by apply div_pow2_lower; [lia|]. }
  destruct m1 as [|q|q] eqn:Hq; [lia| |lia].
  destruct (shr_spec (Zpos q) loc_Exact f
              (SpecFloat.fexp prec emax (Zdigits2 (Zpos q) + f) - f)
              ltac:(lia)) as (mrs2 & -> & Hm2 & _).
  cbn [Zdigits2] in *. rewrite fexp_eq in *.
  set (n := Z.max (Z.max (Zpos (digits2_pos q) + f - 53) (-1074) - f) 0) in *.
  pose proof (digits2_pos_bounds q) as [Hlowq _].
  assert (1 <= shr_m mrs2) as Hpos2.
  { rewrite Hm2. apply div_pow2_lower; [lia|]. rewrite Z.mul_1_l.
    eapply Z.le_trans; [|exact Hlowq]. apply Z.pow_le_mono_r; lia. }
  destruct (shr_m mrs2) as [|mr|mr] eqn:Hmr; [lia| |lia].
  destruct (f + n <=? emax - prec); [|done].
  destruct (Z.eq_dec n 0) as [Hn|Hn]; [|left; lia].
  destruct (Z.eq_dec ex f) as [Hex|Hex]; [|left; lia].
  right. split; [lia|]. rewrite Hn, Z.div_1_r in Hm2. specialize (Hsame Hex).
  lia.
Qed.

Lemma pos_iter_xO (m d : positive) :
  Zpos (Pos.iter xO m d) = Zpos m * 2 ^ Zpos d.
Proof.
  induction d as [|d IH] using Pos.peano_ind.
  - simpl. lia.
  - rewrite Pos.iter_succ, Pos2Z.inj_xO, IH, Pos2Z.inj_succ.
    rewrite Z.pow_succ_r by lia. lia.
Qed.

Lemma shl_align_value (mx : positive) (ex ez : Z) :
  ez <= ex -> Zpos (shl_align mx ex ez).1 = Zpos mx * 2 ^ (ex - ez).
Proof.
  intros Hez. unfold shl_align.
  destruct (ez - ex) as [|d|d] eqn:Hsub; [|lia|].
  - replace (ex - ez) with 0 by lia. simpl. lia.
  - replace (ex - ez) with (Zpos d) by lia. simpl. apply pos_iter_xO.
Qed.

Lemma SFleb_finite (m1 m2 : positive) (e1 e2 : Z) :
  SFleb (S754_finite false m1 e1) (S754_finite false m2 e2) = true
  <-> e1 < e2 \/ (e1 = e2 /\ Zpos m1 <= Zpos m2).
Proof.
  unfold SFleb, SFcompare. fold (Pos.compare m1 m2).
  destruct (Z.compare_spec e1 e2); [|by intuition lia..].
  destruct (Pos.compare_spec m1 m2); intuition (try done; lia).
Qed.

Lemma SFleb_refl (x : spec_float) : sf_nonneg x -> SFleb x x = true.
Proof.
  destruct x as [s|[]| |[] m e]; try done. intros _.
  apply SFleb_finite. lia.
Qed.

Lemma SFleb_trans (x y z : spec_float) :
  sf_nonneg x -> sf_nonneg y -> sf_nonneg z ->
  SFleb x y = true -> SFleb y z = true -> SFleb x z = true.
Proof.
  destruct x as [sx|[]| |[] mx ex], y as [sy|[]| |[] my ey],
    z as [sz|[]| |[] mz ez]; try done.
  intros _ _ _. rewrite !SFleb_finite. lia.
Qed.

(** Adding two spec floats that are not negative: the sum is not negative
    and not below either of them. *)
Lemma SFadd_nonneg (x y : spec_float) :
  valid_binary x = true -> valid_binary y = true ->
  sf_nonneg x -> sf_nonneg y ->
  sf_nonneg (SF64add x y)
  /\ SFleb x (SF64add x y) = true /\ SFleb y (SF64add x y) = true.
Proof.
  destruct x as [sx|[]| |[] mx ex], y as [sy|[]| |[] my ey]; try done;
    intros Hx Hy _ _.
  - by destruct sx, sy.
  - split; [done|]. split; [done|]. by apply SFleb_refl.
  - split; [done|]. split; [by apply SFleb_refl|done].
  - unfold valid_binary, SpecFloat.valid_binary, bounded in Hx, Hy.
    apply andb_prop in Hx as [Hx _], Hy as [Hy _].
    unfold SF64add, SFadd. cbn [cond_Zopp].
    set (ez := Z.min ex ey).
    pose proof (shl_align_value mx ex ez ltac:(lia)) as Hmx.
    pose proof (shl_align_value my ey ez ltac:(lia)) as Hmy.
    rewrite <- Pos2Z.inj_add. cbn [binary_normalize].
    set (m := ((shl_align mx ex ez).1 + (shl_align my ey ez).1)%positive).
    assert (Zpos m = Zpos (shl_align mx ex ez).1 + Zpos (shl_align my ey ez).1)
      as Hsum by (subst m; lia).
    pose proof (binary_round_lower mx m ex ez Hx ltac:(lia) ltac:(lia)) as Hrx.
    pose proof (binary_round_lower my m ey ez Hy ltac:(lia) ltac:(lia)) as Hry.
    destruct (binary_round prec emax false m ez) as [s|[]| |[] mr er];
      try done.
    split; [done|]. by rewrite !SFleb_finite.
Qed.

Lemma nonneg_spec (x : float) : nonneg x <-> sf_nonneg (Prim2SF x).
Proof.
  unfold nonneg. rewrite leb_spec.
  change (Prim2SF 0) with (S754_zero false).
  by destruct (Prim2SF x) as [s|[]| |[] m e].
Qed.

(** Adding two floats that are not negative: the sum is not negative and
    not below either of them. *)
Lemma float_add_nonneg (x y : float) :
  nonneg x -> nonneg y ->
  nonneg (x + y) /\ (x <=? x + y)%float = true /\ (y <=? x + y)%float = true.
Proof.
  rewrite !nonneg_spec, !leb_spec, add_spec. intros Hx Hy.
  by apply SFadd_nonneg; [apply Prim2SF_valid..| |].
Qed.



(** Rounding a positive number gives no negative float and no NaN. *)
Lemma binary_round_nonneg (m : positive) (e : Z) :
  sf_nonneg (binary_round prec emax false m e).
Proof.
  unfold binary_round.
  destruct (shl_align m e _) as [mz ez].
  unfold binary_round_aux, shr_fexp.
  destruct (shr_spec (Zpos mz) loc_Exact ez
              (SpecFloat.fexp prec emax (Zdigits2 (Zpos mz) + ez) - ez)
              ltac:(lia)) as (mrs1 & -> & Hm1 & _).
  pose proof (round_nearest_even_bounds (shr_m mrs1) (loc_of_shr_record mrs1))
    as [Hround _].
  assert (0 <= shr_m mrs1) as Hpos1
    by (rewrite Hm1; apply Z.div_pos; [lia|apply Z.pow_pos_nonneg; lia]).
  set (m1 := round_nearest_even (shr_m mrs1) (loc_of_shr_record mrs1)) in *.
  destruct (shr_spec m1 loc_Exact (ez + Z.max
              (SpecFloat.fexp prec emax (Zdigits2 (Zpos mz) + ez) - ez) 0)
              (SpecFloat.fexp prec emax
                 (Zdigits2 m1
                  + (ez + Z.max (SpecFloat.fexp prec emax
                                   (Zdigits2 (Zpos mz) + ez) - ez) 0))
               - (ez + Z.max (SpecFloat.fexp prec emax
                                (Zdigits2 (Zpos mz) + ez) - ez) 0))
              ltac:(lia)) as (mrs2 & -> & Hm2 & _).
  assert (0 <= shr_m mrs2) as Hpos2
    by (rewrite Hm2; apply Z.div_pos; [lia|apply Z.pow_pos_nonneg; lia]).
  destruct (shr_m mrs2); [done| |lia]. by case_match.
Qed.

Lemma Z2float_spec (n : Z) :
  0 <= n < 2 ^ 63 ->
  Prim2SF (Z2float n) = binary_normalize prec emax n 0 false.
Proof.
  intros Hn. unfold Z2float.
  pose proof (of_uint63_spec (Uint63.of_Z n)) as Hspec.
  rewrite Uint63.of_Z_spec, Z.mod_small in Hspec by done.
  by rewrite <- Hspec, SF2Prim_Prim2SF.
Qed.

Lemma Z2float_nonneg (n : Z) : 0 <= n < 2 ^ 63 -> nonneg (Z2float n).
Proof.
  intros Hn. rewrite nonneg_spec, Z2float_spec by done.
  destruct n as [|m|m]; [done| |lia]. apply binary_round_nonneg.
Qed.

Section Loop.

Variables home_lineup away_lineup : Lineup.
Variables home_team away_team : Team.
Variables shot_fidelity_version xy_fidelity_version : Z.

Local Abbreviation context_of :=
  (resolve_context home_lineup away_lineup home_team away_team
     shot_fidelity_version xy_fidelity_version).
Local Abbreviation body :=
  (loop_body home_lineup away_lineup home_team away_team
     shot_fidelity_version xy_fidelity_version).

(** The acting team is the home team or the away team, by the team id. *)
Lemma resolve_context_team (st : State) (raw_event : RawEvent) (ctx : Context) :
  context_of st raw_event = Ok ctx ->
  (raw_team_id raw_event = lineup_team_id home_lineup
   /\ kw_team (ctx_kwargs ctx) = home_team)
  \/ (raw_team_id raw_event = lineup_team_id away_lineup
      /\ kw_team (ctx_kwargs ctx) = away_team).
Proof.
  unfold resolve_context. intros H.
  apply bind_Ok in H as (team & Hteam & H).
  apply bind_Ok in H as (possession_team & _ & H).
  apply bind_Ok in H as ([periods period] & _ & H).
  apply bind_Ok in H as (player & _ & H).
  apply bind_Ok in H as (coordinates & _ & H).
  injection H as <-. simpl.
  repeat case_decide; simplify_eq; auto.
Qed.

Lemma resolve_context_kwargs (st : State) (raw_event : RawEvent) (ctx : Context) :
  context_of st raw_event = Ok ctx ->
  kw_timestamp (ctx_kwargs ctx) = parse_str_ts (raw_timestamp raw_event)
  /\ kw_ball_state (ctx_kwargs ctx) = BallState.ALIVE
  /\ kw_period (ctx_kwargs ctx) = ctx_period ctx
  /\ kw_raw_event (ctx_kwargs ctx) = raw_event.
Proof.
  unfold resolve_context. intros H.
  apply bind_Ok in H as (team & Hteam & H).
  apply bind_Ok in H as (possession_team & _ & H).
  apply bind_Ok in H as ([periods period] & _ & H).
  apply bind_Ok in H as (player & _ & H).
  apply bind_Ok in H as (coordinates & _ & H).
  by injection H as <-.
Qed.

(** The loop body once the context is resolved and the new events are
    known. *)
Lemma loop_body_unfold (st : State) (raw_event : RawEvent) (ctx : Context)
  (new_events : list Event) :
  context_of st raw_event = Ok ctx ->
  new_events_of raw_event (ctx_fidelity_version ctx) (ctx_kwargs ctx)
  = Ok new_events ->
  body st raw_event =
  let* (events, _) :=
    for_each emit new_events (st_events st, ctx_kwargs ctx) in
  Ok {| st_periods := ctx_periods ctx;
        st_period := Some (ctx_period ctx);
        st_events := events |}.
Proof. intros Hctx Hnew. unfold loop_body. by rewrite Hctx; simpl; rewrite Hnew. Qed.

(** ** C7: fouls and cards *)

(** C7. For a foul-committed raw event whose context is resolved: with
    an embedded card of code 5 or 65 the new events are exactly the foul
    followed by a red card, and the loop appends them in that order (each
    if the filter keeps it); with no card sub-object the only new event is
    the foul. *)
Theorem foul_committed_then_card (st : State) (raw_event : RawEvent)
  (ctx : Context) :
  raw_type_id raw_event = SB_EVENT_TYPE_FOUL_COMMITTED ->
  context_of st raw_event = Ok ctx ->
  let kw := ctx_kwargs ctx in
  (forall card_id,
     foul_card raw_event = Some card_id -> card_id = 5 \/ card_id = 65 ->
     new_events_of raw_event (ctx_fidelity_version ctx) kw
     = Ok [FoulCommittedEvent kw; CardEvent CardType.RED kw]
     /\ body st raw_event
        = Ok {| st_periods := ctx_periods ctx;
                st_period := Some (ctx_period ctx);
                st_events :=
                  append_if_included
                    (append_if_included (st_events st) (FoulCommittedEvent kw))
                    (CardEvent CardType.RED kw) |})
  /\ (foul_card raw_event = None ->
      new_events_of raw_event (ctx_fidelity_version ctx) kw
      = Ok [FoulCommittedEvent kw]
      /\ body st raw_event
         = Ok {| st_periods := ctx_periods ctx;
                 st_period := Some (ctx_period ctx);
                 st_events :=
                   append_if_included (st_events st) (FoulCommittedEvent kw) |}).
Proof.
  intros Htype Hctx kw. unfold foul_card.
  assert (forall card_type,
            _parse_foul_committed
              (default (mkCardHolderDict None) (raw_foul_committed raw_event))
            = Ok card_type ->
            new_events_of raw_event (ctx_fidelity_version ctx) kw
            = Ok (FoulCommittedEvent kw ::
                  match card_type with
                  | Some c => [CardEvent c kw]
                  | None => []
                  end)) as Hnew.
  { intros card_type Hcard. unfold new_events_of. rewrite Htype.
    repeat (rewrite decide_False by done). rewrite decide_True by done.
    rewrite Hcard. simpl. by destruct card_type. }
  split.
  - intros card_id Hcard Hred.
    assert (_parse_foul_committed
              (default (mkCardHolderDict None) (raw_foul_committed raw_event))
            = Ok (Some CardType.RED)) as Hparse.
    { destruct (raw_foul_committed raw_event) as [fc|]; simpl in *; [|done].
      unfold _parse_foul_committed, _parse_card. rewrite Hcard.
      by rewrite decide_True. }
    pose proof (Hnew _ Hparse) as Hevents. split; [done|].
    rewrite (loop_body_unfold _ _ _ _ Hctx Hevents). cbn [for_each].
    by repeat (rewrite emit_not_out by apply no_result_not_out; cbn [bind]).
  - intros Hcard.
    assert (_parse_foul_committed
              (default (mkCardHolderDict None) (raw_foul_committed raw_event))
            = Ok None) as Hparse.
    { destruct (raw_foul_committed raw_event) as [fc|]; simpl in *; [|done].
      unfold _parse_foul_committed. by rewrite Hcard. }
    pose proof (Hnew _ Hparse) as Hevents. split; [done|].
    rewrite (loop_body_unfold _ _ _ _ Hctx Hevents). cbn [for_each].
    by repeat (rewrite emit_not_out by apply no_result_not_out; cbn [bind]).
Qed.

(** ** C9: injury clearance counts as out *)

(** C9. A pass raw event whose outcome code is 74 (injury clearance) is
    mapped to the result OUT, as one with code 75 is; in both cases the
    loop appends the pass and then the ball-out event with the receiver's
    coordinates and a dead ball (each if the filter keeps it). *)
Theorem injury_clearance_pass_goes_out (st : State) (raw_event : RawEvent)
  (ctx : Context) (pass_dict : PassDict) (outcome_id : Z)
  (end_location : list float) (point : Point) (qualifiers : list Qualifier)
  (duration : float) :
  raw_type_id raw_event = SB_EVENT_TYPE_PASS ->
  raw_pass raw_event = Some pass_dict ->
  pass_outcome pass_dict = Some outcome_id ->
  outcome_id = SB_PASS_OUTCOME_INJURY_CLEARANCE
  \/ outcome_id = SB_PASS_OUTCOME_OUT ->
  context_of st raw_event = Ok ctx ->
  pass_end_location pass_dict = Some end_location ->
  _parse_coordinates end_location (ctx_fidelity_version ctx) = Ok point ->
  _get_event_qualifiers (pass_type pass_dict) (pass_body_part pass_dict)
  = Ok qualifiers ->
  raw_duration raw_event = Some duration ->
  let kw := ctx_kwargs ctx in
  let pass_event :=
    PassEvent (kw_timestamp kw + duration)%float (Some PassResult.OUT)
      (Some point) None qualifiers kw in
  let ball_out_event :=
    BallOutEvent
      (set_coordinates (set_ball_state kw BallState.DEAD) (Some point)) in
  _parse_pass pass_dict (kw_team kw) (ctx_fidelity_version ctx)
  = Ok (mkPassKwargs (Some PassResult.OUT) point None qualifiers)
  /\ body st raw_event
     = Ok {| st_periods := ctx_periods ctx;
             st_period := Some (ctx_period ctx);
             st_events :=
               append_if_included
                 (append_if_included (st_events st) pass_event)
                 ball_out_event |}.
Proof.
  intros Htype Hpass Houtcome Hcode Hctx Hend Hpoint Hq Hduration
    kw pass_event ball_out_event.
  assert (_parse_pass pass_dict (kw_team kw) (ctx_fidelity_version ctx)
          = Ok (mkPassKwargs (Some PassResult.OUT) point None qualifiers))
    as Hparse.
  { unfold _parse_pass. rewrite Houtcome, Hend. simpl. rewrite Hpoint, Hq.
    by destruct Hcode as [-> | ->]. }
  split; [done|].
  assert (new_events_of raw_event (ctx_fidelity_version ctx) kw
          = Ok [pass_event]) as Hnew.
  { unfold new_events_of. rewrite Htype, decide_True by done.
    rewrite Hpass. simpl. fold kw. rewrite Hparse. simpl.
    by rewrite Hduration. }
  rewrite (loop_body_unfold _ _ _ _ Hctx Hnew). cbn [for_each].
  unfold pass_event. by rewrite emit_pass_out.
Qed.

(** ** C2: take-ons that go out *)

(** A dribble raw event whose outcome code is 75 becomes a take-on with
    the result OUT, and the loop over the new events stops at the read of
    its receiver coordinates. *)
Lemma take_on_out_body (st : State) (raw_event : RawEvent)
  (take_on_dict : DribbleDict) (outcome_name : string) :
  raw_type_id raw_event = SB_EVENT_TYPE_DRIBBLE ->
  raw_dribble raw_event = Some take_on_dict ->
  dribble_outcome take_on_dict = Some (SB_PASS_OUTCOME_OUT, outcome_name) ->
  body st raw_event = Raise (AttributeError "receiver_coordinates")
  \/ exists e, context_of st raw_event = Raise e /\ body st raw_event = Raise e.
Proof.
  intros Htype Hdribble Houtcome. unfold loop_body.
  destruct (context_of st raw_event) as [ctx|e] eqn:Hctx; simpl; [left|eauto].
  unfold new_events_of. rewrite Htype.
  repeat (rewrite decide_False by done). rewrite decide_True by done.
  rewrite Hdribble. simpl. unfold _parse_take_on. rewrite Houtcome.
  rewrite decide_True by done. cbn [bind for_each].
  by rewrite emit_take_on_out.
Qed.

(** ** C8: substitutions *)

Lemma parse_substitution_missing (substitution_dict : SubstitutionDict)
  (team : Team) :
  Forall (fun player =>
            player_id player <> str (replacement substitution_dict))
    (players team) ->
  _parse_substitution substitution_dict team
  = Raise (DeserializationError
             ("Could not find replacement player "
              +:+ str (replacement substitution_dict))).
Proof.
  unfold _parse_substitution.
  induction 1 as [|player roster Hplayer _ IH]; simpl; [done|].
  by rewrite decide_False.
Qed.

Lemma parse_substitution_found (substitution_dict : SubstitutionDict)
  (team : Team) (before after : list Player) (player : Player) :
  players team = before ++ player :: after ->
  player_id player = str (replacement substitution_dict) ->
  Forall (fun other =>
            player_id other <> str (replacement substitution_dict)) before ->
  _parse_substitution substitution_dict team = Ok player.
Proof.
  unfold _parse_substitution. intros -> Hid.
  induction 1 as [|other before Hother _ IH]; simpl.
  - by rewrite decide_True.
  - by rewrite decide_False.
Qed.

(** A substitution whose replacement is not in the acting team's roster
    ends the loop body with the error that names the replacement. *)
Lemma substitution_missing_body (st : State) (raw_event : RawEvent)
  (ctx : Context) (substitution_dict : SubstitutionDict) :
  raw_type_id raw_event = SB_EVENT_TYPE_SUBSTITUTION ->
  raw_substitution raw_event = Some substitution_dict ->
  context_of st raw_event = Ok ctx ->
  Forall (fun player =>
            player_id player <> str (replacement substitution_dict))
    (players (kw_team (ctx_kwargs ctx))) ->
  body st raw_event
  = Raise (DeserializationError
             ("Could not find replacement player "
              +:+ str (replacement substitution_dict))).
Proof.
  intros Htype Hsub Hctx Hmissing. unfold loop_body. rewrite Hctx. simpl.
  unfold new_events_of. rewrite Htype.
  repeat (rewrite decide_False by done). rewrite decide_True by done.
  rewrite Hsub. simpl. by rewrite parse_substitution_missing.
Qed.

(** ** The periods *)

Lemma last_ref (periods : list Period.t) (ref : nat) :
  S ref = length periods -> last periods = periods !! ref.
Proof. intros Href. rewrite last_lookup, <- Href. done. Qed.

Lemma split_last_ref (periods : list Period.t) (ref : nat) (p : Period.t) :
  S ref = length periods -> periods !! ref = Some p ->
  periods = take ref periods ++ [p] /\ length (take ref periods) = ref.
Proof.
  intros Href Hp. split; [|rewrite length_take; lia].
  rewrite <- (take_drop ref periods) at 1. f_equal.
  rewrite (drop_S _ _ _ Hp), drop_ge by lia. done.
Qed.

Lemma period_transition_step (periods periods' : list Period.t)
  (period : option nat) (ref' : nat) (timestamp : float) (period_id : Z) :
  period_ref_ok periods period ->
  period_transition periods period timestamp period_id = Ok (periods', ref') ->
  period_step timestamp period_id periods periods'
  /\ period_ref_ok periods' (Some ref').
Proof.
  unfold period_transition, period_ref_ok, deref.
  destruct period as [ref|]; intros Href H.
  - destruct (periods !! ref) as [p|] eqn:Hp; simpl in H; [|done].
    case_decide as Hid.
    + destruct (Period.end_timestamp p) as [e|] eqn:He; simpl in H; [|done].
      injection H as <- <-. split.
      * apply step_open_next with p; [by rewrite (last_ref _ ref)|done..].
      * rewrite length_app. simpl. lia.
    + injection H as <- <-.
      destruct (split_last_ref _ _ _ Href Hp) as [Hsplit Hlen].
      split; [|by rewrite length_insert].
      remember (take ref periods) as front eqn:Hfront. clear Hfront Hp Href.
      subst periods ref.
      replace (length front) with (length front + 0)%nat by lia.
      rewrite insert_app_r. simpl.
      apply step_extend. by destruct (decide (Period.id p = period_id)).
  - subst periods. injection H as <- <-. split; [constructor|done].
Qed.


Lemma period_step_length (timestamp : float) (period_id : Z)
  (periods periods' : list Period.t) :
  period_step timestamp period_id periods periods' ->
  (length periods <= length periods')%nat /\ periods' <> [].
Proof.
  destruct 1; rewrite ?length_app; simpl; split; try lia; try done;
    by intros []%app_eq_nil.
Qed.

(** A step leaves every period but the last one as it is. *)
Lemma period_step_frozen (timestamp : float) (period_id : Z)
  (periods periods' : list Period.t) (i : nat) :
  period_step timestamp period_id periods periods' ->
  (S i < length periods)%nat ->
  periods' !! i = periods !! i.
Proof.
  destruct 1; simpl; intros Hi.
  - lia.
  - apply lookup_app_l. lia.
  - rewrite length_app in Hi. simpl in Hi.
    by rewrite !lookup_app_l by lia.
Qed.


Lemma period_transition_no_dangling (periods : list Period.t)
  (period : option nat) (timestamp : float) (period_id : Z) :
  period_ref_ok periods period ->
  period_transition periods period timestamp period_id
  <> Raise DanglingReference.
Proof.
  unfold period_transition, period_ref_ok, deref.
  destruct period as [ref|]; [|done]. intros Href.
  destruct (lookup_lt_is_Some_2 periods ref) as [p ->]; [lia|]. simpl.
  case_decide; [|done]. by destruct (Period.end_timestamp p).
Qed.


Lemma loop_body_transition (st st' : State) (raw_event : RawEvent) :
  body st raw_event = Ok st' ->
  exists ref',
    period_transition (st_periods st) (st_period st)
      (parse_str_ts (raw_timestamp raw_event)) (raw_period raw_event)
    = Ok (st_periods st', ref')
    /\ st_period st' = Some ref'.
Proof.
  unfold loop_body. intros H.
  apply bind_Ok in H as (ctx & Hctx & H).
  apply bind_Ok in H as (new_events & _ & H).
  apply bind_Ok in H as ([events kw] & _ & H). injection H as <-. simpl.
  unfold resolve_context in Hctx.
  apply bind_Ok in Hctx as (team & _ & Hctx).
  apply bind_Ok in Hctx as (possession_team & _ & Hctx).
  apply bind_Ok in Hctx as ([periods period] & Hperiod & Hctx).
  apply bind_Ok in Hctx as (player & _ & Hctx).
  apply bind_Ok in Hctx as (coordinates & _ & Hctx).
  injection Hctx as <-. simpl. eauto.
Qed.

Lemma loop_body_step (st st' : State) (raw_event : RawEvent) :
  state_ok st ->
  body st raw_event = Ok st' ->
  state_ok st'
  /\ period_step (parse_str_ts (raw_timestamp raw_event))
       (raw_period raw_event) (st_periods st) (st_periods st').
Proof.
  intros Hok (ref' & Htransition & Href)%loop_body_transition.
  destruct (period_transition_step _ _ _ _ _ _ Hok Htransition).
  unfold state_ok. by rewrite Href.
Qed.


(** An invariant of the loop holds after the loop when it holds before
    and the body keeps it; the invariant may mention the raw events
    already processed. *)
Lemma loop_invariant (P : list RawEvent -> State -> Prop) (st0 : State) :
  P [] st0 ->
  (forall processed st raw_event st',
     P processed st -> body st raw_event = Ok st' ->
     P (processed ++ [raw_event]) st') ->
  forall raw_events st,
    for_each body raw_events st0 = Ok st -> P raw_events st.
Proof.
  intros Hinit Hstep raw_events.
  induction raw_events as [|raw_event processed IH] using rev_ind;
    intros st Hrun.
  - by injection Hrun as <-.
  - rewrite for_each_snoc in Hrun.
    apply bind_Ok in Hrun as (st1 & Hrun & Hbody). eauto.
Qed.

Lemma loop_state_ok (raw_events : list RawEvent) (st0 st : State) :
  state_ok st0 -> for_each body raw_events st0 = Ok st -> state_ok st.
Proof.
  intros Hok. revert raw_events st.
  apply (loop_invariant (fun _ st => state_ok st)); [done|].
  intros _ st raw_event st' Hst Hbody.
  by destruct (loop_body_step _ _ _ Hst Hbody).
Qed.

(** Periods that are followed by another one are not touched again. *)
Lemma loop_frozen (raw_events : list RawEvent) (st0 st : State) (i : nat) :
  state_ok st0 ->
  for_each body raw_events st0 = Ok st ->
  (S i < length (st_periods st0))%nat ->
  st_periods st !! i = st_periods st0 !! i.
Proof.
  intros Hok Hrun Hi.
  cut (state_ok st
       /\ (length (st_periods st0) <= length (st_periods st))%nat
       /\ st_periods st !! i = st_periods st0 !! i); [tauto|].
  revert raw_events st Hrun.
  apply (loop_invariant
           (fun _ st =>
              state_ok st
              /\ (length (st_periods st0) <= length (st_periods st))%nat
              /\ st_periods st !! i = st_periods st0 !! i)); [done|].
  intros _ st raw_event st' (Hst & Hlen & Hsame) Hbody.
  destruct (loop_body_step _ _ _ Hst Hbody) as [Hst' Hstep].
  destruct (period_step_length _ _ _ _ Hstep) as [Hlen' _].
  split; [done|]. split; [lia|].
  rewrite <- Hsame. apply (period_step_frozen _ _ _ _ _ Hstep). lia.
Qed.

(** *** The ids of the periods *)

(** A step keeps the list of ids when the event has the last id, and adds
    the event's period number otherwise. *)
Lemma period_step_ids (timestamp : float) (period_id : Z)
  (periods periods' : list Period.t) :
  period_step timestamp period_id periods periods' ->
  (Period.id <$> periods' = Period.id <$> periods
   /\ last (Period.id <$> periods) = Some period_id)
  \/ (Period.id <$> periods' = (Period.id <$> periods) ++ [period_id]
      /\ last (Period.id <$> periods) <> Some period_id).
Proof.
  destruct 1 as [|periods p e Hlast Hid He|periods p Hid].
  - by right.
  - right. rewrite fmap_app, fmap_last, Hlast. simpl.
    split; [done|congruence].
  - left. rewrite !fmap_app. simpl. rewrite last_snoc. by rewrite Hid.
Qed.

Lemma ids_alternate_snoc (ids : list Z) (a : Z) :
  ids_alternate ids -> last ids <> Some a -> ids_alternate (ids ++ [a]).
Proof.
  intros Hids Hlast i x y Hx Hy.
  apply lookup_snoc_Some in Hy as [[Hi Hy]|[Hi <-]].
  - rewrite lookup_app_l in Hx by lia. eauto.
  - rewrite lookup_app_l in Hx by lia.
    rewrite last_lookup, <- Hi in Hlast. simpl in Hlast. congruence.
Qed.

Lemma ids_increasing_snoc (ids : list Z) (a b : Z) :
  ids_increasing ids -> last ids = Some a -> a < b ->
  ids_increasing (ids ++ [b]).
Proof.
  intros Hids Hlast Hab i j x y Hij Hx Hy.
  apply lookup_snoc_Some in Hy as [[Hj Hy]|[Hj <-]].
  - rewrite lookup_app_l in Hx by lia. eauto.
  - rewrite lookup_app_l in Hx by lia. rewrite last_lookup in Hlast.
    destruct (decide (i = pred (length ids))) as [->|Hi].
    + congruence.
    + assert (x < a); [|lia].
      apply (Hids i (pred (length ids))); [lia|done..].
Qed.

Lemma period_numbers_sorted_snoc (processed : list RawEvent)
  (raw_event : RawEvent) :
  period_numbers_sorted (processed ++ [raw_event]) ->
  period_numbers_sorted processed
  /\ forall e, last processed = Some e -> raw_period e <= raw_period raw_event.
Proof.
  intros Hsorted. split.
  - intros i j e1 e2 Hij H1 H2. apply (Hsorted i j); [done|..];
      by apply lookup_app_l_Some.
  - intros e He. rewrite last_lookup in He.
    apply (Hsorted (pred (length processed)) (length processed)); [lia|..].
    + by apply lookup_app_l_Some.
    + by apply list_lookup_middle.
Qed.

Lemma loop_ids (raw_events : list RawEvent) (st : State) :
  for_each body raw_events initial_state = Ok st ->
  let ids := Period.id <$> st_periods st in
  ids_alternate ids
  /\ (period_numbers_sorted raw_events -> ids_increasing ids).
Proof.
  intros Hrun ids.
  cut (state_ok st /\ last ids = raw_period <$> last raw_events
       /\ ids_alternate ids
       /\ (period_numbers_sorted raw_events -> ids_increasing ids));
    [tauto|].
  subst ids. revert raw_events st Hrun.
  apply (loop_invariant
           (fun processed st =>
              let ids := Period.id <$> st_periods st in
              state_ok st /\ last ids = raw_period <$> last processed
              /\ ids_alternate ids
              /\ (period_numbers_sorted processed -> ids_increasing ids))).
  - simpl. repeat split.
    + by intros i a b [=].
    + by intros _ i j a b _ [=].
  - intros processed st raw_event st' (Hst & Hlast & Halt & Hinc) Hbody.
    destruct (loop_body_step _ _ _ Hst Hbody) as [Hst' Hstep]. simpl.
    rewrite last_snoc. simpl. split; [done|].
    destruct (period_step_ids _ _ _ _ Hstep) as [[-> Hsame]|[-> Hnew]].
    + split; [done|]. split; [done|].
      intros [Hsorted _]%period_numbers_sorted_snoc. auto.
    + rewrite last_snoc. split; [done|].
      split; [by apply ids_alternate_snoc|].
      intros [Hsorted Hle]%period_numbers_sorted_snoc.
      destruct (last (Period.id <$> st_periods st)) as [a|] eqn:Hlast_id.
      * destruct (last processed) as [e|]; [|done].
        injection Hlast as ->. specialize (Hle e eq_refl).
        apply ids_increasing_snoc with (raw_period e); auto.
        assert (raw_period e <> raw_period raw_event) by congruence. lia.
      * apply last_None in Hlast_id. rewrite Hlast_id. simpl.
        intros [|i] [|j] a b Hij; simpl; intros; by simplify_eq/=; lia.
Qed.

(** *** The time stamps of the periods *)







(** ** The events of one raw event *)

(** Unfolds the category codes, for [lia]. *)
Ltac unfold_categories :=
  unfold SB_EVENT_TYPE_PASS, SB_EVENT_TYPE_SHOT, SB_EVENT_TYPE_DRIBBLE,
    SB_EVENT_TYPE_CARRY, SB_EVENT_TYPE_SUBSTITUTION,
    SB_EVENT_TYPE_BAD_BEHAVIOUR, SB_EVENT_TYPE_FOUL_COMMITTED,
    SB_EVENT_TYPE_PLAYER_ON, SB_EVENT_TYPE_PLAYER_OFF,
    SB_EVENT_TYPE_RECOVERY in *.

(** Splits a hypothesis that says the dispatch returned. *)
Ltac dispatch_inv H :=
  repeat match type of H with
    | bind _ _ = Ok _ =>
        let a := fresh "a" in
        let Ha := fresh "Ha" in
        apply bind_Ok in H as (a & Ha & H)
    | (let (_, _) := ?x in _) = Ok _ => destruct x
    | match ?x with Some _ => _ | None => _ end = Ok _ =>
        let E := fresh "E" in destruct x eqn:E
    | (if decide ?P then _ else _) = Ok _ => destruct (decide P)
    end.

(** The new events carry the generic arguments they were made from, none
    is a ball-out event, and two of them come without result. *)
Lemma new_events_kwargs (raw_event : RawEvent) (fidelity_version : Z)
  (kw : GenericEventKwargs) (new_events : list Event) :
  new_events_of raw_event fidelity_version kw = Ok new_events ->
  Forall (fun event =>
            event_kwargs event = kw /\ forall kw', event <> BallOutEvent kw')
    new_events
  /\ ((length new_events <= 1)%nat
      \/ Forall (fun event => event_result event = None) new_events
         /\ length new_events = 2%nat).
Proof.
  intros H. unfold new_events_of in H. dispatch_inv H;
    injection H as <-; simpl;
    (split; [repeat constructor; done|]);
    first [left; lia|right; by repeat constructor].
Qed.

(** X10. The number of events a raw event is turned into: none or one
    card for bad behaviour, one with the card; one or two for a foul, two
    with the card; one for every other category. Each carries the generic
    arguments of the raw event. *)
Theorem new_events_count (raw_event : RawEvent) (fidelity_version : Z)
  (kw : GenericEventKwargs) (new_events : list Event) :
  new_events_of raw_event fidelity_version kw = Ok new_events ->
  Forall (fun event => event_kwargs event = kw) new_events
  /\ (raw_type_id raw_event = SB_EVENT_TYPE_BAD_BEHAVIOUR ->
      length new_events
      = match bad_behaviour_card raw_event with
        | Some _ => 1%nat
        | None => 0%nat
        end)
  /\ (raw_type_id raw_event = SB_EVENT_TYPE_FOUL_COMMITTED ->
      length new_events
      = match foul_card raw_event with
        | Some _ => 2%nat
        | None => 1%nat
        end)
  /\ (raw_type_id raw_event <> SB_EVENT_TYPE_BAD_BEHAVIOUR ->
      raw_type_id raw_event <> SB_EVENT_TYPE_FOUL_COMMITTED ->
      length new_events = 1%nat).
Proof.
  intros H. split.
  - eapply Forall_impl; [apply (new_events_kwargs _ _ _ _ H)|]. by intros ? [].
  - unfold new_events_of, foul_card, bad_behaviour_card in *.
    unfold _parse_bad_behaviour, _parse_foul_committed in H.
    destruct (raw_bad_behaviour raw_event) as [[[bad_card|]]|];
      destruct (raw_foul_committed raw_event) as [[[foul|]]|];
      simpl in *; dispatch_inv H; injection H as <-; simpl;
      repeat split; intros; try done; try (bind_inv; discriminate);
      unfold_categories; lia.
Qed.

(** The pass event of a raw event has receiver coordinates. *)
Lemma new_events_receiver (raw_event : RawEvent) (fidelity_version : Z) (kw : GenericEventKwargs)
  (new_events : list Event) :
  new_events_of raw_event fidelity_version kw = Ok new_events ->
  Forall (fun event =>
            match event with
            | PassEvent _ _ c _ _ _ => is_Some c
            | _ => True
            end) new_events.
Proof.
  intros H. unfold new_events_of in H. dispatch_inv H;
    injection H as <-; repeat constructor; eauto.
Qed.

(** ** What the loop appends *)

Lemma emit_output (events events' : list Event)
  (kw kw' kw0 : GenericEventKwargs) (event : Event) :
  emit (events, kw) event = Ok (events', kw') ->
  event_kwargs event = kw0 -> (forall k, event <> BallOutEvent k) ->
  same_origin kw kw0 ->
  exists out,
    events' = events ++ out
    /\ same_origin kw' kw0
    /\ Forall (record_of should_include_event transform_event (made_from kw0))
         out
    /\ (length out <= 2)%nat
    /\ (event_result event = None -> (length out <= 1)%nat).
Proof.
  intros H Hkw Hnot Horigin. unfold emit in H.
  assert (made_from kw0 event) as Hmade.
  { split; [by rewrite Hkw|]. destruct event; try done. by destruct (Hnot kw1). }
  assert (exists out,
            append_if_included events event = events ++ out
            /\ Forall (record_of should_include_event transform_event
                         (made_from kw0)) out
            /\ (length out <= 1)%nat) as (out & Hout & Hrecords & Hlen).
  { unfold append_if_included.
    destruct (should_include_event event) eqn:Hkeep.
    - exists [transform_event event]. split; [done|].
      split; [|simpl; lia]. repeat constructor. by exists event.
    - exists []. rewrite app_nil_r. split; [done|]. split; [done|simpl; lia]. }
  rewrite Hout in H. case_decide as Hresult.
  - apply bind_Ok in H as (coordinates & _ & H).
    destruct coordinates as [point|]; injection H as <- <-.
    + set (kw_out := set_coordinates (set_ball_state kw BallState.DEAD)
                       (Some point)).
      assert (made_from kw0 (BallOutEvent kw_out)) as Hball.
      { split; [exact Horigin|]. simpl. eauto. }
      unfold append_if_included.
      destruct (should_include_event (BallOutEvent kw_out)) eqn:Hkeep.
      * exists (out ++ [transform_event (BallOutEvent kw_out)]).
        rewrite app_assoc. split; [done|]. split; [exact Horigin|].
        split; [|rewrite length_app; simpl; split; [lia|]].
        -- apply Forall_app. split; [done|]. repeat constructor.
           by exists (BallOutEvent kw_out).
        -- intros Hnone. rewrite Hnone in Hresult.
           by destruct no_result_not_out.
      * exists out. split; [done|]. split; [exact Horigin|].
        split; [done|]. split; intros; lia.
    + exists out. split; [done|]. split; [exact Horigin|].
      split; [done|]. split; intros; lia.
  - injection H as <- <-. exists out. split; [done|].
    split; [exact Horigin|]. split; [done|]. split; intros; lia.
Qed.

Lemma emit_loop_output (new_events : list Event) (kw0 : GenericEventKwargs) :
  Forall (fun event =>
            event_kwargs event = kw0 /\ forall k, event <> BallOutEvent k)
    new_events ->
  forall events events' kw kw',
    for_each emit new_events (events, kw) = Ok (events', kw') ->
    same_origin kw kw0 ->
    exists out,
      events' = events ++ out
      /\ Forall (record_of should_include_event transform_event
                   (made_from kw0)) out
      /\ (length out <= 2 * length new_events)%nat
      /\ (Forall (fun event => event_result event = None) new_events ->
          (length out <= length new_events)%nat).
Proof.
  induction 1 as [|event new_events [Hkw Hnot] _ IH];
    intros events events' kw kw' Hrun Horigin; simpl in Hrun.
  - injection Hrun as <- <-. exists []. rewrite app_nil_r.
    repeat split; try done; simpl; lia.
  - apply bind_Ok in Hrun as ([events1 kw1] & Hemit & Hrun).
    destruct (emit_output _ _ _ _ _ _ Hemit Hkw Hnot Horigin)
      as (out1 & -> & Horigin1 & Hrecords1 & Hlen1 & Hnone1).
    destruct (IH _ _ _ _ Hrun Horigin1)
      as (out & -> & Hrecords & Hlen & Hnone).
    exists (out1 ++ out). rewrite app_assoc. split; [done|].
    split; [by apply Forall_app|]. rewrite length_app. simpl. split; [lia|].
    intros [Hr Hrs]%Forall_cons. specialize (Hnone1 Hr).
    specialize (Hnone Hrs). lia.
Qed.

Lemma period_step_last (timestamp : float) (period_id : Z)
  (periods periods' : list Period.t) :
  period_step timestamp period_id periods periods' ->
  exists p',
    last periods' = Some p' /\ Period.id p' = period_id
    /\ (Period.end_timestamp p' = None
        \/ Period.end_timestamp p'
           = Some (Period.start_timestamp p' + timestamp)%float).
Proof.
  destruct 1 as [|periods p e Hlast Hid He|periods p Hid]; eexists;
    (split; [first [reflexivity|apply last_snoc]|]); simpl; auto.
Qed.

Lemma period_step_id_kept (timestamp : float) (period_id : Z)
  (periods periods' : list Period.t) (i : nat) (p : Period.t) :
  period_step timestamp period_id periods periods' ->
  periods !! i = Some p ->
  exists p', periods' !! i = Some p' /\ Period.id p' = Period.id p.
Proof.
  destruct 1 as [|periods p0 e Hlast Hid He|periods p0 Hid]; intros Hp.
  - done.
  - exists p. split; [by apply lookup_app_l_Some|done].
  - apply lookup_snoc_Some in Hp as [[Hi Hp]|[-> <-]].
    + exists p. split; [by apply lookup_app_l_Some|done].
    + eexists. split; [by apply list_lookup_middle|done].
Qed.

Lemma event_sound_step (timestamp : float) (period_id : Z)
  (periods periods' : list Period.t) (event : Event) :
  period_step timestamp period_id periods periods' ->
  event_sound periods event -> event_sound periods' event.
Proof.
  intros Hstep ((p & Hp & Hid) & Hrest).
  destruct (period_step_id_kept _ _ _ _ _ _ Hstep Hp) as (p' & Hp' & Hid').
  split; [|done]. exists p'. split; [done|congruence].
Qed.

(** One step of the loop: what it appends to the events. *)
Lemma loop_body_output (st st' : State) (raw_event : RawEvent) :
  state_ok st ->
  body st raw_event = Ok st' ->
  exists out,
    st_events st' = st_events st ++ out
    /\ (length out <= 2)%nat
    /\ Forall (record_of should_include_event transform_event
                 (fun event =>
                    event_sound (st_periods st') event
                    /\ kw_raw_event (event_kwargs event) = raw_event)) out.
Proof.
  intros Hok Hbody.
  destruct (loop_body_step _ _ _ Hok Hbody) as [Hok' Hstep].
  destruct (period_step_last _ _ _ _ Hstep) as (p' & Hlast & Hid & _).
  unfold loop_body in Hbody.
  apply bind_Ok in Hbody as (ctx & Hctx & Hbody).
  apply bind_Ok in Hbody as (new_events & Hnew & Hbody).
  apply bind_Ok in Hbody as ([events kw'] & Hemit & Hbody).
  injection Hbody as <-. simpl in *.
  destruct (resolve_context_kwargs _ _ _ Hctx)
    as (Htimestamp & Halive & Hperiod & Hraw).
  destruct (new_events_kwargs _ _ _ _ Hnew) as [Hkwargs Hcount].
  destruct (emit_loop_output _ _ Hkwargs _ _ _ _ Hemit)
    as (out & -> & Hrecords & Hlen & Hnone); [done|].
  exists out. split; [done|]. split.
  - destruct Hcount as [?|[Hresults Htwo]]; [lia|].
    specialize (Hnone Hresults). lia.
  - eapply Forall_impl; [exact Hrecords|]. simpl.
    intros record (event & -> & Hkeep & [(Hp & Ht & Hr & _) Hstate]).
    exists event. split; [done|]. split; [done|].
    unfold state_ok, period_ref_ok in Hok'. simpl in Hok'.
    rewrite (last_ref _ _ Hok') in Hlast.
    split; [|congruence]. split; [|split].
    + exists p'. rewrite Hp, Hperiod, Hr, Hraw. done.
    + rewrite Ht, Hr, Hraw. done.
    + destruct event; simpl in *; congruence.
Qed.

(** The loop over the raw events: what it appends, raw event by raw
    event. *)
Lemma loop_output (raw_events : list RawEvent) (st0 st : State) :
  state_ok st0 ->
  for_each body raw_events st0 = Ok st ->
  exists chunks,
    st_events st = st_events st0 ++ concat chunks
    /\ Forall2 (made_records should_include_event transform_event
                  (st_periods st)) raw_events chunks.
Proof.
  intros Hok Hrun.
  cut (state_ok st
       /\ exists chunks,
            st_events st = st_events st0 ++ concat chunks
            /\ Forall2 (made_records should_include_event transform_event
                          (st_periods st)) raw_events chunks); [tauto|].
  revert raw_events st Hrun.
  apply (loop_invariant
           (fun processed st =>
              state_ok st
              /\ exists chunks,
                   st_events st = st_events st0 ++ concat chunks
                   /\ Forall2 (made_records should_include_event
                                 transform_event (st_periods st))
                        processed chunks)).
  - split; [done|]. exists []. rewrite app_nil_r. by split.
  - intros processed st raw_event st' (Hst & chunks & Hout & Hchunks) Hbody.
    destruct (loop_body_step _ _ _ Hst Hbody) as [Hst' Hstep].
    destruct (loop_body_output _ _ _ Hst Hbody)
      as (out & Hout' & Hlen & Hrecords).
    split; [done|]. exists (chunks ++ [out]).
    rewrite Hout', Hout, concat_app, app_assoc. simpl. rewrite app_nil_r.
    split; [done|]. apply Forall2_app.
    + eapply Forall2_impl; [exact Hchunks|]. simpl.
      intros raw chunk [Htwo Hmade]. split; [done|].
      eapply Forall_impl; [exact Hmade|]. simpl.
      intros record (event & -> & Hkeep & Hsound & Hraw).
      exists event. split; [done|]. split; [done|]. split; [|done].
      by eapply event_sound_step.
    + constructor; [by split|constructor].
Qed.

Lemma made_records_length (should_keep : Event -> bool)
  (transform : Event -> Event) (periods : list Period.t)
  (raw_events : list RawEvent) (chunks : list (list Event)) :
  Forall2 (made_records should_keep transform periods) raw_events chunks ->
  (length (concat chunks) <= 2 * length raw_events)%nat.
Proof.
  induction 1 as [|raw_event chunk raw_events chunks [Htwo _] _ IH];
    [done|].
  simpl. rewrite length_app. lia.
Qed.

(** ** The periods as runs of period numbers *)

Lemma compress_last (numbers : list Z) :
  last (compress numbers) = last numbers.
Proof.
  induction numbers as [|x [|y rest] IH]; [done..|].
  change (compress (x :: y :: rest))
    with (if decide (x = y) then compress (y :: rest)
          else x :: compress (y :: rest)).
  case_decide; [done|].
  change (last (x :: y :: rest)) with (last (y :: rest)). rewrite <- IH.
  destruct (compress (y :: rest)) eqn:Hc; [|done].
  simpl in IH. symmetry in IH. by apply last_None in IH.
Qed.

Lemma compress_snoc (numbers : list Z) (x : Z) :
  compress (numbers ++ [x])
  = if decide (last numbers = Some x) then compress numbers
    else compress numbers ++ [x].
Proof.
  induction numbers as [|a [|b rest] IH].
  - done.
  - simpl. repeat case_decide; simplify_eq; done.
  - change (compress ((a :: b :: rest) ++ [x]))
      with (if decide (a = b) then compress ((b :: rest) ++ [x])
            else a :: compress ((b :: rest) ++ [x])).
    change (compress (a :: b :: rest))
      with (if decide (a = b) then compress (b :: rest)
            else a :: compress (b :: rest)).
    change (last (a :: b :: rest)) with (last (b :: rest)).
    rewrite IH. by repeat case_decide.
Qed.

(** The ids of the periods after the loop: the period numbers of the raw
    events, one per run. *)
Lemma loop_period_ids (raw_events : list RawEvent) (st : State) :
  for_each body raw_events initial_state = Ok st ->
  state_ok st
  /\ Period.id <$> st_periods st = compress (raw_period <$> raw_events).
Proof.
  revert raw_events st.
  apply (loop_invariant
           (fun processed st =>
              state_ok st
              /\ Period.id <$> st_periods st
                 = compress (raw_period <$> processed))); [done|].
  intros processed st raw_event st' [Hst Hids] Hbody.
  destruct (loop_body_step _ _ _ Hst Hbody) as [Hst' Hstep].
  split; [done|]. rewrite fmap_app. simpl. rewrite compress_snoc.
  rewrite <- compress_last, <- Hids, fmap_last.
  destruct Hstep as [|periods p e Hlast Hid He|periods p Hid].
  - done.
  - rewrite Hlast. simpl. rewrite decide_False by congruence.
    rewrite fmap_app. done.
  - rewrite last_snoc. simpl. rewrite decide_True by congruence.
    rewrite !fmap_app. done.
Qed.

(** The last period after the loop: it carries the period number of the
    last raw event; its end is the clock reading of that event added to
    its start when the raw event before carries the same number, and is
    missing otherwise. *)
Lemma loop_last_period (processed : list RawEvent) (raw_event : RawEvent)
  (st : State) :
  for_each body (processed ++ [raw_event]) initial_state = Ok st ->
  exists p,
    last (st_periods st) = Some p
    /\ Period.id p = raw_period raw_event
    /\ Period.end_timestamp p
       = if decide (raw_period <$> last processed
                    = Some (raw_period raw_event))
         then Some (Period.start_timestamp p
                    + parse_str_ts (raw_timestamp raw_event))%float
         else None.
Proof.
  rewrite for_each_snoc. intros Hrun.
  apply bind_Ok in Hrun as (st1 & Hrun & Hbody).
  destruct (loop_period_ids _ _ Hrun) as [Hst Hids].
  destruct (loop_body_step _ _ _ Hst Hbody) as [_ Hstep].
  assert (Period.id <$> last (st_periods st1) = raw_period <$> last processed)
    as Hlast.
  { by rewrite <- !fmap_last, Hids, compress_last. }
  destruct Hstep as [|periods p e Hp Hid He|periods p Hid].
  - eexists. split; [done|]. split; [done|]. simpl.
    destruct (last processed); [done|]. by case_decide.
  - eexists. split; [apply last_snoc|]. split; [done|]. simpl.
    rewrite Hp in Hlast. rewrite <- Hlast. simpl.
    rewrite decide_False by congruence. done.
  - eexists. split; [apply last_snoc|]. split; [done|]. simpl.
    rewrite last_snoc in Hlast. rewrite <- Hlast. simpl.
    rewrite decide_True by congruence. done.
Qed.

(** ** Raw events that stop the loop *)

Lemma unknown_team_body (st : State) (raw_event : RawEvent) :
  raw_team_id raw_event <> lineup_team_id home_lineup ->
  raw_team_id raw_event <> lineup_team_id away_lineup ->
  body st raw_event
  = Raise (DeserializationError
             ("Unknown team_id " +:+ str (raw_team_id raw_event))).
Proof.
  intros Hhome Haway. unfold loop_body, resolve_context.
  destruct (decide (raw_team_id raw_event = lineup_team_id home_lineup));
    [done|].
  by destruct (decide (raw_team_id raw_event = lineup_team_id away_lineup)).
Qed.

Lemma missing_sub_object_new_events (raw_event : RawEvent)
  (fidelity_version : Z) (kw : GenericEventKwargs) (key : string) :
  missing_sub_object raw_event key ->
  new_events_of raw_event fidelity_version kw = Raise (KeyError key).
Proof.
  unfold new_events_of.
  intros [(Htype & -> & ->)|[(Htype & -> & ->)|[(Htype & -> & ->)
         |[(Htype & -> & ->)|(Htype & -> & ->)]]]]; rewrite Htype;
    by repeat (case_decide; [done|]).
Qed.

Lemma pass_without_duration_new_events (raw_event : RawEvent)
  (fidelity_version : Z) (kw : GenericEventKwargs) :
  raw_type_id raw_event = SB_EVENT_TYPE_PASS ->
  raw_duration raw_event = None ->
  exists e, new_events_of raw_event fidelity_version kw = Raise e.
Proof.
  intros Htype Hduration. unfold new_events_of.
  rewrite Htype, decide_True by done. rewrite Hduration.
  apply bind_fails. intros pass_dict _.
  apply bind_fails. intros pass_event_kwargs _. by eexists.
Qed.

Lemma new_events_fail_body (st : State) (raw_event : RawEvent) :
  (forall fidelity_version kw,
     exists e, new_events_of raw_event fidelity_version kw = Raise e) ->
  exists e, body st raw_event = Raise e.
Proof.
  intros Hfail. unfold loop_body.
  apply bind_fails. intros ctx _.
  destruct (Hfail (ctx_fidelity_version ctx) (ctx_kwargs ctx)) as [e He].
  rewrite He. by exists e.
Qed.

(** ** Teams and players of the events *)

Lemma resolve_context_attribution (st : State) (raw_event : RawEvent)
  (ctx : Context) :
  context_of st raw_event = Ok ctx ->
  let kw := ctx_kwargs ctx in
  kw_event_id kw = raw_id raw_event
  /\ (raw_team_id raw_event = lineup_team_id home_lineup
      /\ kw_team kw = home_team
      \/ raw_team_id raw_event <> lineup_team_id home_lineup
         /\ raw_team_id raw_event = lineup_team_id away_lineup
         /\ kw_team kw = away_team)
  /\ (raw_possession_team_id raw_event = lineup_team_id home_lineup
      /\ kw_ball_owning_team kw = home_team
      \/ raw_possession_team_id raw_event <> lineup_team_id home_lineup
         /\ raw_possession_team_id raw_event = lineup_team_id away_lineup
         /\ kw_ball_owning_team kw = away_team)
  /\ match raw_player raw_event with
     | Some id => get_player_by_id (kw_team kw) id = Ok (kw_player kw)
     | None => kw_player kw = None
     end.
Proof.
  unfold resolve_context. intros H.
  apply bind_Ok in H as (team & Hteam & H).
  apply bind_Ok in H as (possession_team & Hpossession & H).
  apply bind_Ok in H as ([periods period] & _ & H).
  apply bind_Ok in H as (player & Hplayer & H).
  apply bind_Ok in H as (coordinates & _ & H).
  injection H as <-. simpl. split; [done|]. split; [|split].
  - repeat case_decide; simplify_eq; auto.
  - clear Hteam. repeat case_decide; simplify_eq; auto.
  - destruct (raw_player raw_event); [done|congruence].
Qed.

Lemma loop_body_attributed (st st' : State) (raw_event : RawEvent) :
  body st raw_event = Ok st' ->
  exists out,
    st_events st' = st_events st ++ out
    /\ Forall (record_of should_include_event transform_event
                 (event_attributed get_player_by_id home_lineup away_lineup
                    home_team away_team)) out.
Proof.
  intros Hbody. unfold loop_body in Hbody.
  apply bind_Ok in Hbody as (ctx & Hctx & Hbody).
  apply bind_Ok in Hbody as (new_events & Hnew & Hbody).
  apply bind_Ok in Hbody as ([events kw'] & Hemit & Hbody).
  injection Hbody as <-. simpl.
  destruct (resolve_context_kwargs _ _ _ Hctx) as (_ & _ & _ & Hraw).
  pose proof (resolve_context_attribution _ _ _ Hctx) as Hattributed.
  destruct (new_events_kwargs _ _ _ _ Hnew) as [Hkwargs _].
  destruct (emit_loop_output _ _ Hkwargs _ _ _ _ Hemit)
    as (out & -> & Hrecords & _); [done|].
  exists out. split; [done|].
  eapply Forall_impl; [exact Hrecords|]. simpl.
  intros record
    (event & -> & Hkeep & [(_ & _ & Hr & Hid & Ht & Hb & Hp) _]).
  exists event. split; [done|]. split; [done|].
  unfold event_attributed. cbv zeta in *.
  by rewrite Hr, Hid, Ht, Hb, Hp, Hraw.
Qed.

Lemma loop_attributed (raw_events : list RawEvent) (st : State) :
  for_each body raw_events initial_state = Ok st ->
  Forall (record_of should_include_event transform_event
            (event_attributed get_player_by_id home_lineup away_lineup
               home_team away_team)) (st_events st).
Proof.
  revert raw_events st.
  apply (loop_invariant
           (fun _ st =>
              Forall (record_of should_include_event transform_event
                        (event_attributed get_player_by_id home_lineup
                           away_lineup home_team away_team))
                (st_events st))); [done|].
  intros _ st raw_event st' Hinv Hbody.
  destruct (loop_body_attributed _ _ _ Hbody) as (out & -> & Hout).
  by apply Forall_app.
Qed.

End Loop.

(** ** The whole call *)

(** The call fails when the loop body fails on one of the raw events,
    whatever the state it is run from. *)
Lemma deserialize_fails (inputs : StatsbombInputs) (raw_event : RawEvent) :
  raw_event ∈ event_data inputs ->
  (forall starting_player_ids shot_fidelity_version xy_fidelity_version st,
     exists e,
       loop_body (lineup_data inputs).1 (lineup_data inputs).2
         (build_team (lineup_data inputs).1 Ground.HOME starting_player_ids)
         (build_team (lineup_data inputs).2 Ground.AWAY starting_player_ids)
         shot_fidelity_version xy_fidelity_version st raw_event = Raise e) ->
  exists e, deserialize inputs = Raise e.
Proof.
  intros Hin Hbody. unfold deserialize.
  apply bind_fails. intros versions _.
  apply bind_fails. intros teams Hteams.
  apply bind_fails. intros st Hst. exfalso.
  unfold build_teams in Hteams.
  destruct (lineup_data inputs) as [home_lineup away_lineup] eqn:Hlineups.
  apply bind_Ok in Hteams as (starting_player_ids & _ & [= <-]).
  unfold run_loop in Hst. rewrite Hlineups in Hst. simpl in *.
  destruct (for_each_fails _ _ _ initial_state Hin
              (Hbody starting_player_ids versions.1 versions.2)) as [e He].
  congruence.
Qed.

(** The call fails with the exception of the first raw event on which the
    loop body raises. *)
Lemma deserialize_raise_at (inputs : StatsbombInputs)
  (before after : list RawEvent) (raw_event : RawEvent) (versions : Z * Z)
  (teams : Team * Team) (st : State) (e : error) :
  event_data inputs = before ++ raw_event :: after ->
  _determine_xy_fidelity_versions (event_data inputs) = Ok versions ->
  build_teams inputs = Ok teams ->
  run_loop inputs teams versions before initial_state = Ok st ->
  loop_body (lineup_data inputs).1 (lineup_data inputs).2 teams.1 teams.2
    versions.1 versions.2 st raw_event = Raise e ->
  deserialize inputs = Raise e.
Proof.
  intros Hsplit Hversions Hteams Hbefore Hbody. unfold deserialize.
  rewrite Hversions, Hteams. simpl. unfold run_loop in *. rewrite Hsplit.
  by rewrite (for_each_raise _ _ _ _ _ _ _ Hbefore Hbody).
Qed.

Lemma build_team_players (team_lineup : Lineup) (side : Ground.t)
  (starting_player_ids : gset string) (id : Z) :
  Forall (fun player => lineup_player_id player <> id) (lineup team_lineup) ->
  Forall (fun player => player_id player <> str id)
    (players (build_team team_lineup side starting_player_ids)).
Proof.
  intros Hlineup. simpl. apply Forall_fmap.
  eapply Forall_impl; [exact Hlineup|]. simpl.
  intros player Hne Heq. by apply (inj pretty) in Heq.
Qed.

(** C8. The substitution mapper returns the first player of the roster
    whose id is the replacement's, and raises the deserialization error
    that names the replacement id when the roster has none. A call whose
    raw events hold a substitution for a replacement that the acting
    team's lineup lacks does not return; when the loop reaches that raw
    event and resolves its context, the call fails with that error. *)
Theorem substitution_replacement_lookup :
  (forall substitution_dict team,
     Forall (fun player =>
               player_id player <> str (replacement substitution_dict))
       (players team) ->
     _parse_substitution substitution_dict team
     = Raise (DeserializationError
                ("Could not find replacement player "
                 +:+ str (replacement substitution_dict))))
  /\ (forall substitution_dict team before player after,
        players team = before ++ player :: after ->
        player_id player = str (replacement substitution_dict) ->
        Forall (fun other =>
                  player_id other <> str (replacement substitution_dict))
          before ->
        _parse_substitution substitution_dict team = Ok player)
  /\ (forall inputs raw_event substitution_dict,
        raw_event ∈ event_data inputs ->
        raw_type_id raw_event = SB_EVENT_TYPE_SUBSTITUTION ->
        raw_substitution raw_event = Some substitution_dict ->
        acting_lineup_lacks (lineup_data inputs) raw_event
          (replacement substitution_dict) ->
        exists e, deserialize inputs = Raise e)
  /\ (forall inputs before raw_event after substitution_dict versions teams
             st ctx,
        event_data inputs = before ++ raw_event :: after ->
        raw_type_id raw_event = SB_EVENT_TYPE_SUBSTITUTION ->
        raw_substitution raw_event = Some substitution_dict ->
        _determine_xy_fidelity_versions (event_data inputs) = Ok versions ->
        build_teams inputs = Ok teams ->
        run_loop inputs teams versions before initial_state = Ok st ->
        resolve_context (lineup_data inputs).1 (lineup_data inputs).2
          teams.1 teams.2 versions.1 versions.2 st raw_event = Ok ctx ->
        Forall (fun player =>
                  player_id player <> str (replacement substitution_dict))
          (players (kw_team (ctx_kwargs ctx))) ->
        deserialize inputs
        = Raise (DeserializationError
                   ("Could not find replacement player "
                    +:+ str (replacement substitution_dict)))).
Proof.
  split; [exact parse_substitution_missing|].
  split; [intros; by eapply parse_substitution_found|].
  split.
  - intros inputs raw_event substitution_dict Hin Htype Hsub [Hhome Haway].
    apply (deserialize_fails _ _ Hin).
    intros starting_player_ids shot_version xy_version st.
    destruct (resolve_context (lineup_data inputs).1 (lineup_data inputs).2
                (build_team (lineup_data inputs).1 Ground.HOME
                   starting_player_ids)
                (build_team (lineup_data inputs).2 Ground.AWAY
                   starting_player_ids)
                shot_version xy_version st raw_event) as [ctx|e] eqn:Hctx.
    + eexists. apply (substitution_missing_body _ _ _ _ _ _ _ _ _ _
                        Htype Hsub Hctx).
      destruct (resolve_context_team _ _ _ _ _ _ _ _ _ Hctx)
        as [[Hid ->]|[Hid ->]]; apply build_team_players; auto.
    + exists e. unfold loop_body. by rewrite Hctx.
  - intros inputs before raw_event after substitution_dict versions teams
      st ctx Hsplit Htype Hsub Hversions Hteams Hbefore Hctx Hmissing.
    apply (deserialize_raise_at _ _ _ _ _ _ _ _ Hsplit Hversions Hteams
             Hbefore).
    by apply (substitution_missing_body _ _ _ _ _ _ _ _ _ _ Htype Hsub Hctx).
Qed.

(** C2. A dribble raw event whose outcome code is 75 makes the call fail:
    no event list is returned, so no ball-out event follows the take-on.
    When the context of the raw event is resolved the loop body raises the
    attribute error of the missing receiver coordinates. *)
Theorem take_on_out_aborts_call (inputs : StatsbombInputs)
  (raw_event : RawEvent) (take_on_dict : DribbleDict)
  (outcome_name : string) :
  raw_event ∈ event_data inputs ->
  raw_type_id raw_event = SB_EVENT_TYPE_DRIBBLE ->
  raw_dribble raw_event = Some take_on_dict ->
  dribble_outcome take_on_dict = Some (SB_PASS_OUTCOME_OUT, outcome_name) ->
  (exists e, deserialize inputs = Raise e)
  /\ (forall home_lineup away_lineup home_team away_team shot_version
             xy_version st ctx,
        resolve_context home_lineup away_lineup home_team away_team
          shot_version xy_version st raw_event = Ok ctx ->
        loop_body home_lineup away_lineup home_team away_team
          shot_version xy_version st raw_event
        = Raise (AttributeError "receiver_coordinates")).
Proof.
  intros Hin Htype Hdribble Houtcome. split.
  - apply (deserialize_fails _ _ Hin).
    intros starting_player_ids shot_version xy_version st.
    destruct (take_on_out_body (lineup_data inputs).1 (lineup_data inputs).2
                (build_team (lineup_data inputs).1 Ground.HOME
                   starting_player_ids)
                (build_team (lineup_data inputs).2 Ground.AWAY
                   starting_player_ids)
                shot_version xy_version st _ _ _
                Htype Hdribble Houtcome) as [H|(e & _ & H)]; eauto.
  - intros home_lineup away_lineup home_team away_team shot_version
      xy_version st ctx Hctx.
    destruct (take_on_out_body home_lineup away_lineup home_team away_team
                shot_version xy_version st _ _ _ Htype Hdribble Houtcome)
      as [H|(e & He & _)]; [done|congruence].
Qed.

Lemma deserialize_Ok (inputs : StatsbombInputs) (dataset : EventDataset) :
  deserialize inputs = Ok dataset ->
  exists versions teams st,
    _determine_xy_fidelity_versions (event_data inputs) = Ok versions
    /\ build_teams inputs = Ok teams
    /\ run_loop inputs teams versions (event_data inputs) initial_state = Ok st
    /\ metadata_periods (metadata dataset) = st_periods st
    /\ records dataset = st_events st.
Proof.
  unfold deserialize. intros H.
  apply bind_Ok in H as (versions & Hversions & H).
  apply bind_Ok in H as (teams & Hteams & H).
  apply bind_Ok in H as (st & Hst & H). injection H as <-.
  by exists versions, teams, st.
Qed.

(** ** C10: a period that holds one raw event *)


(** ** C4: the ids of the periods and the ends that stay *)

(** C4, as amended. In the data set of a call that returns, successive
    periods have different ids, and the ids grow strictly when the period
    numbers of the raw events never decrease; a period that another one
    follows, at any point of the loop, is found unchanged in the data
    set. *)
Theorem period_ids_and_settled_ends (inputs : StatsbombInputs)
  (dataset : EventDataset) :
  deserialize inputs = Ok dataset ->
  let periods := metadata_periods (metadata dataset) in
  ids_alternate (Period.id <$> periods)
  /\ (period_numbers_sorted (event_data inputs) ->
      ids_increasing (Period.id <$> periods))
  /\ (forall before after versions teams st i,
        event_data inputs = before ++ after ->
        _determine_xy_fidelity_versions (event_data inputs) = Ok versions ->
        build_teams inputs = Ok teams ->
        run_loop inputs teams versions before initial_state = Ok st ->
        (S i < length (st_periods st))%nat ->
        periods !! i = st_periods st !! i).
Proof.
  intros (versions & teams & st & Hversions & Hteams & Hrun & Hperiods & _)
    %deserialize_Ok. simpl. rewrite Hperiods.
  destruct (loop_ids _ _ _ _ _ _ _ _ Hrun) as [Halt Hinc].
  split; [done|]. split; [done|].
  intros before after versions' teams' st1 i Hsplit Hversions' Hteams'
    Hbefore Hi.
  assert (versions' = versions) as -> by congruence.
  assert (teams' = teams) as -> by congruence.
  unfold run_loop in *. rewrite Hsplit, for_each_app, Hbefore in Hrun.
  simpl in Hrun.
  eapply loop_frozen; [|exact Hrun|exact Hi].
  eapply loop_state_ok; [|exact Hbefore]. reflexivity.
Qed.

(** ** C3: successive periods *)


(** ** The mappers and the detector: bounds, tables and errors *)

(** X2. The body part table is one to one: a body part comes from one
    vendor code only, and every body part has its code. *)
Theorem parse_bodypart_one_code :
  (forall code code' body_part,
     _parse_bodypart code = Ok body_part ->
     _parse_bodypart code' = Ok body_part -> code = code')
  /\ (forall body_part, exists code, _parse_bodypart code = Ok body_part).
Proof.
  split.
  - intros code code' body_part. unfold _parse_bodypart.
    repeat case_decide; intros; simplify_eq; done.
  - intros [];
      [exists SB_BODYPART_RIGHT_FOOT|exists SB_BODYPART_LEFT_FOOT
      |exists SB_BODYPART_HEAD|exists SB_BODYPART_BOTH_HANDS
      |exists SB_BODYPART_CHEST|exists SB_BODYPART_LEFT_HAND
      |exists SB_BODYPART_RIGHT_HAND|exists SB_BODYPART_DROP_KICK
      |exists SB_BODYPART_KEEPER_ARM|exists SB_BODYPART_OTHER
      |exists SB_BODYPART_NO_TOUCH]; reflexivity.
Qed.

(** X3. The qualifiers are at most one set piece qualifier followed by at
    most one body part qualifier. The set piece qualifier is there exactly
    when the key [type] holds the vendor code of a set piece, and it names
    that set piece: a sub-object without type, or with a type code outside
    the table, gets none. The body part qualifier is there exactly when
    the key [body_part] is. The only exception is the one the body part
    table raises. *)
Theorem get_event_qualifiers_shape (type_ body_part : option Z) :
  (forall qualifiers,
     _get_event_qualifiers type_ body_part = Ok qualifiers ->
     exists set_piece body,
       qualifiers = set_piece ++ body
       /\ (set_piece = []
           \/ exists type_id value,
                type_ = Some type_id /\ set_piece = [SetPieceQualifier value])
       /\ (forall value,
             type_ = Some (set_piece_code value) ->
             set_piece = [SetPieceQualifier value])
       /\ ((forall value, type_ <> Some (set_piece_code value)) ->
           set_piece = [])
       /\ match body_part with
          | None => body = []
          | Some bodypart_id =>
              exists part, _parse_bodypart bodypart_id = Ok part
                           /\ body = [BodyPartQualifier part]
          end)
  /\ (forall e,
        _get_event_qualifiers type_ body_part = Raise e ->
        exists bodypart_id,
          body_part = Some bodypart_id
          /\ _parse_bodypart bodypart_id = Raise e).
Proof.
  unfold _get_event_qualifiers.
  set (set_piece := match type_ with Some _ => _ | None => _ end).
  assert (set_piece = []
          \/ exists type_id value,
               type_ = Some type_id /\ set_piece = [SetPieceQualifier value])
    as Hset.
  { subst set_piece. destruct type_ as [type_id|]; [|by left].
    repeat case_decide; eauto. }
  assert (forall value,
            type_ = Some (set_piece_code value) ->
            set_piece = [SetPieceQualifier value]) as Hcode.
  { intros value ->. subst set_piece. by destruct value. }
  assert ((forall value, type_ <> Some (set_piece_code value)) ->
          set_piece = []) as Hnone.
  { intros Hnone. subst set_piece. destruct type_ as [type_id|]; [|done].
    repeat (case_decide;
            [subst type_id; exfalso;
             first [by apply (Hnone SetPieceType.CORNER_KICK)
                   |by apply (Hnone SetPieceType.FREE_KICK)
                   |by apply (Hnone SetPieceType.PENALTY)
                   |by apply (Hnone SetPieceType.THROW_IN)
                   |by apply (Hnone SetPieceType.KICK_OFF)
                   |by apply (Hnone SetPieceType.GOAL_KICK)]|]).
    done. }
  clearbody set_piece. split.
  - intros qualifiers H. destruct body_part as [bodypart_id|].
    + apply bind_Ok in H as (part & Hpart & [= <-]).
      exists set_piece, [BodyPartQualifier part]. eauto 10.
    + injection H as <-. exists set_piece, []. rewrite app_nil_r. eauto 10.
  - intros e H. destruct body_part as [bodypart_id|]; [|done].
    exists bodypart_id. split; [done|].
    destruct (_parse_bodypart bodypart_id); simpl in H;
      [discriminate|by injection H as ->].
Qed.

(** X4. The coordinate resolver raises the index error on fewer than two
    components, and on two or more it returns a point that depends on the
    first two only. *)
Theorem parse_coordinates_bounds (coordinates : list float)
  (fidelity_version : Z) :
  ((length coordinates < 2)%nat ->
   _parse_coordinates coordinates fidelity_version = Raise IndexError)
  /\ ((2 <= length coordinates)%nat ->
      exists point,
        _parse_coordinates coordinates fidelity_version = Ok point
        /\ _parse_coordinates (take 2 coordinates) fidelity_version = Ok point).
Proof.
  destruct coordinates as [|x [|y rest]]; simpl; split; intros; try lia;
    try reflexivity.
  eexists. split; reflexivity.
Qed.

Lemma fidelity_step_short (versions : Z * Z) (event : RawEvent) :
  (short_location event -> fidelity_step versions event = Raise ValueError)
  /\ (forall e, fidelity_step versions event = Raise e ->
                e = ValueError /\ short_location event).
Proof.
  unfold fidelity_step, short_location. destruct versions as [s m].
  destruct (raw_location event) as [[|x [|y rest]]|]; simpl; split.
  - done.
  - intros e [= <-]. split; [done|]. eexists. split; [done|]. simpl. lia.
  - done.
  - intros e [= <-]. split; [done|]. eexists. split; [done|]. simpl. lia.
  - intros (location & [= <-] & Hlen). simpl in Hlen. lia.
  - intros e. repeat case_match; done.
  - by intros (location & [=] & _).
  - done.
Qed.

(** X5. On raw events whose locations are lists of floats, the fidelity
    detector raises the value error of the unpacking exactly when some raw
    event has a location of fewer than two components. *)
Theorem determine_xy_fidelity_versions_fails (events : list RawEvent) :
  (exists event, event ∈ events /\ short_location event) <->
  _determine_xy_fidelity_versions events = Raise ValueError.
Proof.
  unfold _determine_xy_fidelity_versions. generalize (1, 1).
  induction events as [|event events IH]; intros versions; simpl.
  - split; [|done]. by intros (event & Hin%elem_of_nil & _).
  - destruct (fidelity_step_short versions event) as [Hshort Hraise].
    destruct (fidelity_step versions event) as [versions'|e] eqn:Hstep; simpl.
    + rewrite <- (IH versions'). split.
      * intros (ev & [->|Hin]%elem_of_cons & Hev); [|eauto].
        by specialize (Hshort Hev).
      * intros (ev & Hin & Hev). exists ev. split; [by right|done].
    + destruct (Hraise e eq_refl) as [-> Hev].
      split; [done|]. intros _. exists event. split; [by left|done].
Qed.

Lemma existsb_Permutation {A : Type} (P : A -> bool) (l l' : list A) :
  l ≡ₚ l' -> existsb P l = existsb P l'.
Proof.
  induction 1 as [|x l l' _ IH|x y l|l l' l'' _ IH1 _ IH2]; simpl.
  - done.
  - by rewrite IH.
  - by destruct (P x), (P y).
  - congruence.
Qed.

(** X6. The fidelity tags do not depend on the order of the raw events. *)
Theorem determine_xy_fidelity_versions_order_free
  (events events' : list RawEvent) :
  events ≡ₚ events' ->
  locations_unpack events ->
  _determine_xy_fidelity_versions events'
  = _determine_xy_fidelity_versions events.
Proof.
  intros Hperm Hunpack. unfold _determine_xy_fidelity_versions.
  rewrite !fidelity_loop_spec; [|done|].
  - by rewrite !(existsb_Permutation _ _ _ Hperm).
  - intros event location Hin. apply Hunpack. by rewrite Hperm.
Qed.

(** X7. A shot result names its vendor codes: GOAL comes from 97 only,
    POST from 99, BLOCKED from 96, OFF_TARGET from 98 or 101, SAVED from
    100, 115 or 116. A shot without outcome is a key error, and an outcome
    outside the table raises the error naming the code, before the
    qualifiers are looked at. *)
Theorem parse_shot_result_codes (shot_dict : ShotDict) :
  (forall result qualifiers,
     _parse_shot shot_dict = Ok (result, qualifiers) ->
     exists outcome_id,
       shot_outcome shot_dict = Some outcome_id
       /\ match result with
          | ShotResult.GOAL => outcome_id = SB_SHOT_OUTCOME_GOAL
          | ShotResult.OFF_TARGET =>
              outcome_id = SB_SHOT_OUTCOME_OFF_TARGET
              \/ outcome_id = SB_SHOT_OUTCOME_OFF_WAYWARD
          | ShotResult.POST => outcome_id = SB_SHOT_OUTCOME_POST
          | ShotResult.BLOCKED => outcome_id = SB_SHOT_OUTCOME_BLOCKED
          | ShotResult.SAVED =>
              outcome_id = SB_SHOT_OUTCOME_SAVED
              \/ outcome_id = SB_SHOT_OUTCOME_SAVED_OFF_TARGET
              \/ outcome_id = SB_SHOT_OUTCOME_SAVED_TO_POST
          end
       /\ _get_event_qualifiers (shot_type shot_dict)
            (shot_body_part shot_dict) = Ok qualifiers)
  /\ (shot_outcome shot_dict = None ->
      _parse_shot shot_dict = Raise (KeyError "outcome"))
  /\ (forall outcome_id,
        shot_outcome shot_dict = Some outcome_id ->
        outcome_id ∉ [SB_SHOT_OUTCOME_BLOCKED; SB_SHOT_OUTCOME_GOAL;
                      SB_SHOT_OUTCOME_OFF_TARGET; SB_SHOT_OUTCOME_POST;
                      SB_SHOT_OUTCOME_SAVED; SB_SHOT_OUTCOME_OFF_WAYWARD;
                      SB_SHOT_OUTCOME_SAVED_OFF_TARGET;
                      SB_SHOT_OUTCOME_SAVED_TO_POST] ->
        _parse_shot shot_dict
        = Raise (DeserializationError
                   ("Unknown shot outcome: " +:+ str outcome_id))).
Proof.
  unfold _parse_shot. split; [|split].
  - intros result qualifiers H.
    apply bind_Ok in H as (outcome_id & Houtcome & H).
    apply bind_Ok in H as (result' & Hresult & H).
    apply bind_Ok in H as (qualifiers' & Hq & [= <- <-]).
    exists outcome_id.
    destruct (shot_outcome shot_dict); simplify_eq/=.
    split; [done|]. split; [|done].
    repeat case_decide; simplify_eq; auto.
  - by intros ->.
  - intros outcome_id -> Hnot. simpl.
    repeat (case_decide; [exfalso; apply Hnot; subst; set_solver|]).
    reflexivity.
Qed.

(** X8. A clock reading whose hours and minutes are not negative, with
    fewer than 2^63 whole seconds, and whose seconds are a float that is
    not negative, gives elapsed seconds that are not negative, not below
    the seconds of the reading and not below its whole seconds. The
    elapsed seconds do not tell all readings apart: the float addition
    rounds 01:59:59.9999999999999 up to the elapsed seconds of 02:00:00. *)
Theorem parse_str_ts_nonneg :
  (forall clock,
     0 <= hours clock * 3600 + minutes clock * 60 < 2 ^ 63 ->
     nonneg (seconds clock) ->
     nonneg (parse_str_ts clock)
     /\ (seconds clock <=? parse_str_ts clock)%float = true
     /\ (Z2float (hours clock * 3600 + minutes clock * 60)
         <=? parse_str_ts clock)%float = true)
  /\ parse_str_ts (mkRawTimestamp 1 59 59.9999999999999)
     = parse_str_ts (mkRawTimestamp 2 0 0).
Proof.
  split; [|vm_compute; reflexivity].
  intros clock Hwhole Hseconds. unfold parse_str_ts.
  destruct (float_add_nonneg _ _ (Z2float_nonneg _ Hwhole) Hseconds)
    as (Hsum & Hle1 & Hle2).
  done.
Qed.

(** ** The roster builder *)

Lemma starting_player_ids_loop (raw_events : list RawEvent)
  (ids0 : gset string) :
  (forall ids,
     for_each starting_player_ids_step raw_events ids0 = Ok ids ->
     forall id, id ∈ ids <-> id ∈ ids0 \/ announced raw_events id)
  /\ (forall e,
        for_each starting_player_ids_step raw_events ids0 = Raise e ->
        e = KeyError "tactics"
        /\ exists raw_event,
             raw_event ∈ raw_events
             /\ raw_type_id raw_event = SB_EVENT_TYPE_STARTING_XI
             /\ raw_tactics raw_event = None).
Proof.
  revert ids0. induction raw_events as [|raw_event raw_events IH];
    intros ids0; simpl.
  - split; [|done]. intros ids [= <-] id. split; [auto|].
    intros [?|(? & ? & ? & []%elem_of_nil & _)]. done.
  - unfold starting_player_ids_step at 1 3.
    destruct (decide (raw_type_id raw_event = SB_EVENT_TYPE_STARTING_XI))
      as [Htype|Htype].
    + destruct (raw_tactics raw_event) as [tactics_lineup|] eqn:Htactics;
        simpl.
      * destruct (IH (ids0 ∪ list_to_set (str <$> tactics_lineup)))
          as [IHok IHraise]. split.
        -- intros ids Hids id. rewrite (IHok ids Hids id).
           rewrite elem_of_union, elem_of_list_to_set, list_elem_of_fmap.
           split.
           ++ intros [[?|(player & -> & Hin)]|(ev & l & p & Hin & H)].
              ** by left.
              ** right. exists raw_event, tactics_lineup, player.
                 repeat split; try done. by left.
              ** right. exists ev, l, p. split; [by right|done].
           ++ intros [?|(ev & l & p & [->|Hin]%elem_of_cons & Ht & Hl & Hp
                         & ->)].
              ** by left; left.
              ** left; right. exists p. split; [done|]. congruence.
              ** right. exists ev, l, p. done.
        -- intros e He. destruct (IHraise e He) as (-> & ev & Hin & H).
           split; [done|]. exists ev. split; [by right|done].
      * split; [done|]. intros e [= <-]. split; [done|].
        exists raw_event. split; [by left|done].
    + simpl. destruct (IH ids0) as [IHok IHraise]. split.
      * intros ids Hids id. rewrite (IHok ids Hids id). split.
        -- intros [?|(ev & l & p & Hin & H)]; [by left|].
           right. exists ev, l, p. split; [by right|done].
        -- intros [?|(ev & l & p & [->|Hin]%elem_of_cons & Ht & H)];
             [by left|done|].
           right. by exists ev, l, p.
      * intros e He. destruct (IHraise e He) as (-> & ev & Hin & H).
        split; [done|]. exists ev. split; [by right|done].
Qed.

(** X9. The roster builder keeps the players of each lineup in order,
    with the decimal rendering of their ids, puts the first lineup at
    home and the second away, and flags a player as starting exactly when
    a starting-eleven raw event announces the player's id. It fails only
    on a starting-eleven raw event without tactics, with the key error. *)
Theorem build_teams_roster (inputs : StatsbombInputs) :
  (forall home_team away_team,
     build_teams inputs = Ok (home_team, away_team) ->
     ground home_team = Ground.HOME /\ ground away_team = Ground.AWAY
     /\ player_id <$> players home_team
        = (fun player => str (lineup_player_id player))
          <$> lineup (lineup_data inputs).1
     /\ player_id <$> players away_team
        = (fun player => str (lineup_player_id player))
          <$> lineup (lineup_data inputs).2
     /\ forall player,
          player ∈ players home_team ++ players away_team ->
          (starting player = true
           <-> announced (event_data inputs) (player_id player)))
  /\ (forall e,
        build_teams inputs = Raise e ->
        e = KeyError "tactics"
        /\ exists raw_event,
             raw_event ∈ event_data inputs
             /\ raw_type_id raw_event = SB_EVENT_TYPE_STARTING_XI
             /\ raw_tactics raw_event = None).
Proof.
  unfold build_teams.
  destruct (lineup_data inputs) as [home_lineup away_lineup]. simpl.
  destruct (starting_player_ids_loop (event_data inputs) ∅)
    as [Hok Hraise].
  destruct (for_each starting_player_ids_step (event_data inputs) ∅)
    as [ids|e0]; simpl; split.
  - intros home_team away_team [= <- <-]. simpl.
    rewrite <- !list_fmap_compose.
    repeat split; try done.
    + intros Hstarting.
      apply elem_of_app in H as [H|H];
        apply list_elem_of_fmap in H as (lp & -> & _); simpl in *;
        apply bool_decide_eq_true in Hstarting;
        apply (Hok ids eq_refl) in Hstarting as [[]%elem_of_empty|?]; done.
    + intros Hannounced.
      apply elem_of_app in H as [H|H];
        apply list_elem_of_fmap in H as (lp & -> & _); simpl in *;
        apply bool_decide_eq_true; apply (Hok ids eq_refl); by right.
  - done.
  - done.
  - intros e [= <-]. by apply Hraise.
Qed.

(** ** The returned dataset *)

(** X11. When the call returns, the records are, in the order of the
    feed, the records made from the first raw event, then those made from
    the second, and so on: at most two for each raw event, each of them
    the transform of an event that the inclusion filter keeps and that the
    loop made from that raw event. The event's period is one of the
    returned periods and has the period number of the raw event, its time
    stamp is the clock reading of the raw event, and its ball state is
    alive, or dead with coordinates when it is a ball-out event. So the
    records are at most twice as many as the raw events. *)
Theorem deserialize_records_sound (inputs : StatsbombInputs)
  (dataset : EventDataset) :
  deserialize inputs = Ok dataset ->
  (exists chunks,
     records dataset = concat chunks
     /\ Forall2 (made_records should_include_event transform_event
                   (metadata_periods (metadata dataset)))
          (event_data inputs) chunks)
  /\ (length (records dataset) <= 2 * length (event_data inputs))%nat.
Proof.
  intros H.
  destruct (deserialize_Ok _ _ H)
    as (versions & teams & st & _ & _ & Hst & -> & ->).
  unfold run_loop in Hst.
  assert (state_ok initial_state) as Hinit by done.
  destruct (loop_output _ _ _ _ _ _ _ _ _ Hinit Hst)
    as (chunks & Hout & Hchunks).
  simpl in Hout. rewrite Hout. split; [by exists chunks|].
  by eapply made_records_length.
Qed.

(** X12. When the call returns, the ids of the returned periods are the
    period numbers of the raw events in input order, one for each run of
    equal neighbours: the call opens a period exactly where the period
    number changes, and returns no period for an empty feed. *)
Theorem period_ids_are_runs (inputs : StatsbombInputs)
  (dataset : EventDataset) :
  deserialize inputs = Ok dataset ->
  Period.id <$> metadata_periods (metadata dataset)
  = compress (raw_period <$> event_data inputs).
Proof.
  intros H.
  destruct (deserialize_Ok _ _ H)
    as (versions & teams & st & _ & _ & Hst & -> & _).
  unfold run_loop in Hst. by apply loop_period_ids in Hst as [_ Hids].
Qed.

(** X13. When the call returns on a feed that is not empty, the last
    returned period has the period number of the last raw event; its end
    is its start plus the clock reading of the last raw event when the
    raw event before has the same period number, and is missing when the
    last raw event is the only one of its period. *)
Theorem last_period_of_call (inputs : StatsbombInputs)
  (dataset : EventDataset) (before : list RawEvent) (last_event : RawEvent) :
  deserialize inputs = Ok dataset ->
  event_data inputs = before ++ [last_event] ->
  exists p,
    last (metadata_periods (metadata dataset)) = Some p
    /\ Period.id p = raw_period last_event
    /\ Period.end_timestamp p
       = if decide (raw_period <$> last before
                    = Some (raw_period last_event))
         then Some (Period.start_timestamp p
                    + parse_str_ts (raw_timestamp last_event))%float
         else None.
Proof.
  intros H Hsplit.
  destruct (deserialize_Ok _ _ H)
    as (versions & teams & st & _ & _ & Hst & -> & _).
  unfold run_loop in Hst. rewrite Hsplit in Hst.
  by apply loop_last_period in Hst.
Qed.

(** X14. A raw event whose team id is neither lineup's makes the loop
    body raise the deserialization error that names the id, whatever the
    state of the loop; a call whose feed holds such a raw event does not
    return, and fails with that error when the detector, the roster
    builder and the raw events before it raise nothing. *)
Theorem unknown_team_aborts (inputs : StatsbombInputs)
  (raw_event : RawEvent) :
  raw_team_id raw_event <> lineup_team_id (lineup_data inputs).1 ->
  raw_team_id raw_event <> lineup_team_id (lineup_data inputs).2 ->
  (forall home_team away_team shot_version xy_version st,
     loop_body (lineup_data inputs).1 (lineup_data inputs).2 home_team
       away_team shot_version xy_version st raw_event
     = Raise (DeserializationError
                ("Unknown team_id " +:+ str (raw_team_id raw_event))))
  /\ (raw_event ∈ event_data inputs ->
      exists e, deserialize inputs = Raise e)
  /\ (forall before after versions teams st,
        event_data inputs = before ++ raw_event :: after ->
        _determine_xy_fidelity_versions (event_data inputs) = Ok versions ->
        build_teams inputs = Ok teams ->
        run_loop inputs teams versions before initial_state = Ok st ->
        deserialize inputs
        = Raise (DeserializationError
                   ("Unknown team_id " +:+ str (raw_team_id raw_event)))).
Proof.
  intros Hhome Haway.
  assert (forall home_team away_team shot_version xy_version st,
            loop_body (lineup_data inputs).1 (lineup_data inputs).2 home_team
              away_team shot_version xy_version st raw_event
            = Raise (DeserializationError
                       ("Unknown team_id " +:+ str (raw_team_id raw_event))))
    as Hbody by (intros; by apply unknown_team_body).
  split; [done|]. split.
  - intros Hin. apply (deserialize_fails _ _ Hin). intros. eexists.
    apply Hbody.
  - intros before after versions teams st Hsplit Hversions Hteams Hbefore.
    by apply (deserialize_raise_at _ _ _ _ _ _ _ _ Hsplit Hversions Hteams
                Hbefore).
Qed.

(** X15. The sub-objects [pass], [shot], [dribble], [carry] and
    [substitution] are required by the raw events of their types: for a
    raw event that lacks its sub-object the loop body raises the key
    error of that key once the context is resolved, and a call whose
    feed holds such a raw event, or a pass without [duration], does not
    return. *)
Theorem missing_sub_object_aborts (inputs : StatsbombInputs)
  (raw_event : RawEvent) (key : string) :
  missing_sub_object raw_event key
  \/ (raw_type_id raw_event = SB_EVENT_TYPE_PASS
      /\ raw_duration raw_event = None) ->
  (raw_event ∈ event_data inputs -> exists e, deserialize inputs = Raise e)
  /\ (missing_sub_object raw_event key ->
      forall home_lineup away_lineup home_team away_team shot_version
             xy_version st ctx,
        resolve_context home_lineup away_lineup home_team away_team
          shot_version xy_version st raw_event = Ok ctx ->
        loop_body home_lineup away_lineup home_team away_team shot_version
          xy_version st raw_event = Raise (KeyError key)).
Proof.
  intros Hmissing. split.
  - intros Hin. apply (deserialize_fails _ _ Hin). intros.
    apply new_events_fail_body. intros fidelity_version kw.
    destruct Hmissing as [Hkey|[Htype Hduration]].
    + eexists. by apply missing_sub_object_new_events.
    + by apply pass_without_duration_new_events.
  - intros Hkey home_lineup away_lineup home_team away_team shot_version
      xy_version st ctx Hctx.
    unfold loop_body. rewrite Hctx. simpl.
    by rewrite (missing_sub_object_new_events _ _ _ _ Hkey).
Qed.

(** X19. When the call returns, the metadata names the two teams the
    roster builder made, home first, and every record is the transform of
    an event that the filter keeps and that names the id of its raw
    event; as team the home team when the home lineup has the raw event's
    team id, and the away team when the home lineup does not and the away
    lineup does; as possession team the team chosen in the same way by
    the possession team id; and as player what the roster lookup of the
    team gives for the raw event's player id, or no player when the raw
    event has none. *)
Theorem records_attributed (inputs : StatsbombInputs)
  (dataset : EventDataset) :
  deserialize inputs = Ok dataset ->
  exists home_team away_team,
    build_teams inputs = Ok (home_team, away_team)
    /\ metadata_teams (metadata dataset) = [home_team; away_team]
    /\ Forall (record_of should_include_event transform_event
                 (event_attributed get_player_by_id (lineup_data inputs).1
                    (lineup_data inputs).2 home_team away_team))
         (records dataset).
Proof.
  unfold deserialize. intros H.
  apply bind_Ok in H as (versions & _ & H).
  apply bind_Ok in H as ([home_team away_team] & Hteams & H).
  apply bind_Ok in H as (st & Hst & H). injection H as <-.
  exists home_team, away_team. split; [done|]. split; [done|].
  unfold run_loop in Hst. by apply loop_attributed in Hst.
Qed.


End Deserializer.

(** * The filter and the transformer

    The inclusion filter and the transformer are applied to an event when
    it is appended and take no other part in the call. *)

Lemma for_each_sim {S S' A : Type} (R : S -> S' -> Prop)
  (f : S -> A -> res S) (g : S' -> A -> res S') :
  (forall s s' a, R s s' -> res_rel R (f s a) (g s' a)) ->
  forall l s s', R s s' -> res_rel R (for_each f l s) (for_each g l s').
Proof.
  intros Hstep l. induction l as [|a l IH]; intros s s' HR; [done|].
  simpl. specialize (Hstep s s' a HR).
  destruct (f s a) as [s1|e], (g s' a) as [s1'|e']; simpl in *;
    [by apply IH|done..].
Qed.

Lemma append_if_included_sim (should_include_event : Event -> bool)
  (transform_event : Event -> Event) (events : list Event) (event : Event) :
  append_if_included should_include_event transform_event
    (keep_and_transform should_include_event transform_event events) event
  = keep_and_transform should_include_event transform_event
      (append_if_included include_all no_transform events event).
Proof.
  unfold append_if_included, keep_and_transform, include_all, no_transform.
  rewrite List.filter_app, fmap_app. simpl.
  destruct (should_include_event event); [done|]. by rewrite app_nil_r.
Qed.

Lemma emit_sim (should_include_event : Event -> bool)
  (transform_event : Event -> Event)
  (acc acc' : list Event * GenericEventKwargs) (event : Event) :
  acc.1 = keep_and_transform should_include_event transform_event acc'.1
  /\ acc.2 = acc'.2 ->
  res_rel
    (fun acc acc' =>
       acc.1 = keep_and_transform should_include_event transform_event acc'.1
       /\ acc.2 = acc'.2)
    (emit should_include_event transform_event acc event)
    (emit include_all no_transform acc' event).
Proof.
  destruct acc as [events kw], acc' as [events' kw']. simpl.
  intros [-> ->]. unfold emit. rewrite append_if_included_sim.
  case_decide; [|done].
  destruct (event_receiver_coordinates event) as [[point|]|e]; simpl;
    [|done..].
  by rewrite append_if_included_sim.
Qed.

Lemma loop_body_sim (get_player_by_id : Team -> Z -> res (option Player))
  (should_include_event : Event -> bool) (transform_event : Event -> Event)
  (home_lineup away_lineup : Lineup) (home_team away_team : Team)
  (shot_version xy_version : Z) (st st' : State) (raw_event : RawEvent) :
  st_periods st = st_periods st' ->
  st_period st = st_period st' ->
  st_events st
  = keep_and_transform should_include_event transform_event (st_events st') ->
  res_rel
    (fun st st' =>
       st_periods st = st_periods st'
       /\ st_period st = st_period st'
       /\ st_events st
          = keep_and_transform should_include_event transform_event
              (st_events st'))
    (loop_body get_player_by_id should_include_event transform_event
       home_lineup away_lineup home_team away_team shot_version xy_version
       st raw_event)
    (loop_body get_player_by_id include_all no_transform
       home_lineup away_lineup home_team away_team shot_version xy_version
       st' raw_event).
Proof.
  intros Hperiods Hperiod Hevents. unfold loop_body.
  replace (resolve_context get_player_by_id home_lineup away_lineup home_team
             away_team shot_version xy_version st raw_event)
    with (resolve_context get_player_by_id home_lineup away_lineup home_team
            away_team shot_version xy_version st' raw_event)
    by (unfold resolve_context; by rewrite Hperiods, Hperiod).
  destruct (resolve_context _ _ _ _ _ _ _ st' raw_event) as [ctx|e];
    [simpl|done].
  destruct (new_events_of _ raw_event _ _) as [new_events|e]; [simpl|done].
  rewrite Hevents.
  pose proof (for_each_sim _ _ _
                (emit_sim should_include_event transform_event) new_events
                (keep_and_transform should_include_event transform_event
                   (st_events st'), ctx_kwargs ctx)
                (st_events st', ctx_kwargs ctx) (conj eq_refl eq_refl))
    as Hsim.
  destruct (for_each (emit should_include_event transform_event) _ _)
    as [[events kw]|e],
    (for_each (emit include_all no_transform) _ _) as [[events' kw']|e'];
    simpl in *; [|done..].
  by destruct Hsim as [-> _].
Qed.

(** X16. Filtering and transforming while the loop runs is the same as
    doing so afterwards: a call with any inclusion filter and any
    transformer fails with the same exception as the call that keeps
    every event and transforms none, and when that call returns, it
    returns the same teams and periods, and as records the transforms of
    those records of that call that the filter keeps, in the same
    order. *)
Theorem filter_and_transform_afterwards
  (get_player_by_id : Team -> Z -> res (option Player))
  (should_include_event : Event -> bool) (transform_event : Event -> Event)
  (inputs : StatsbombInputs) :
  deserialize get_player_by_id should_include_event transform_event inputs
  = let* dataset :=
      deserialize get_player_by_id include_all no_transform inputs in
    Ok {| metadata := metadata dataset;
          records :=
            keep_and_transform should_include_event transform_event
              (records dataset) |}.
Proof.
  unfold deserialize.
  destruct (_determine_xy_fidelity_versions (event_data inputs))
    as [versions|e]; [simpl|done].
  destruct (build_teams inputs) as [teams|e]; [simpl|done].
  unfold run_loop.
  pose proof (for_each_sim _ _ _
                (fun st st' raw_event HR =>
                   loop_body_sim get_player_by_id should_include_event
                     transform_event (lineup_data inputs).1
                     (lineup_data inputs).2 teams.1 teams.2 versions.1
                     versions.2 st st' raw_event (proj1 HR)
                     (proj1 (proj2 HR)) (proj2 (proj2 HR)))
                (event_data inputs) initial_state initial_state
                (conj eq_refl (conj eq_refl eq_refl))) as Hsim.
  destruct (for_each (loop_body _ should_include_event _ _ _ _ _ _ _) _ _)
    as [st|e],
    (for_each (loop_body _ include_all _ _ _ _ _ _ _) _ _) as [st'|e'];
    simpl in *; [|done|done|by subst].
  by destruct Hsim as (-> & _ & ->).
Qed.

(** ** Passes that went out, in the unfiltered records *)

Lemma ball_out_after_pass_plain (events out : list Event) :
  ball_out_after_pass events -> Forall plain_event out ->
  ball_out_after_pass (events ++ out).
Proof.
  intros [Hball Hout] Hplain. split.
  - intros i kw Hi. apply lookup_app_Some in Hi as [Hi|[_ Hi]].
    + destruct (Hball _ _ Hi) as (j & pass & -> & Hj & Hpair).
      exists j, pass. split; [done|]. split; [|done].
      by apply lookup_app_l_Some.
    + rewrite Forall_lookup in Hplain.
      destruct (Hplain _ _ Hi) as [_ Hnot]. by destruct (Hnot kw).
  - intros j event Hj Hresult. apply lookup_app_Some in Hj as [Hj|[_ Hj]].
    + destruct (Hout _ _ Hj Hresult) as (ball_out & Hnext & Hpair).
      exists ball_out. split; [|done]. by apply lookup_app_l_Some.
    + rewrite Forall_lookup in Hplain.
      by destruct (Hplain _ _ Hj) as [Hnot _].
Qed.

Lemma ball_out_after_pass_pair (events : list Event) (pass ball_out : Event) :
  ball_out_after_pass events -> out_pass pass ball_out ->
  ball_out_after_pass (events ++ [pass; ball_out]).
Proof.
  intros [Hball Hout] Hpair.
  assert ((events ++ [pass; ball_out]) !! length events = Some pass)
    as Hpass by by rewrite list_lookup_middle.
  assert ((events ++ [pass; ball_out]) !! S (length events) = Some ball_out)
    as Hnext.
  { rewrite (cons_middle pass events [ball_out]), app_assoc.
    rewrite list_lookup_middle; [done|]. rewrite length_app. simpl. lia. }
  split.
  - intros i kw Hi. apply lookup_app_Some in Hi as [Hi|[Hle Hi]].
    + destruct (Hball _ _ Hi) as (j & pass' & -> & Hj & Hpair').
      exists j, pass'. split; [done|]. split; [|done].
      by apply lookup_app_l_Some.
    + destruct (i - length events)%nat as [|[|n]] eqn:Hn; simplify_eq/=.
      * by destruct Hpair as (? & ? & ? & ? & ? & ? & ?).
      * exists (length events), pass. split; [lia|]. by split.
  - intros j event Hj Hresult. apply lookup_app_Some in Hj as [Hj|[Hle Hj]].
    + destruct (Hout _ _ Hj Hresult) as (ball_out' & Hnext' & Hpair').
      exists ball_out'. split; [|done]. by apply lookup_app_l_Some.
    + destruct (j - length events)%nat as [|[|n]] eqn:Hn; simplify_eq/=.
      * exists ball_out. split; [|done].
        by replace j with (length events) by lia.
      * by destruct Hpair as (? & ? & ? & ? & ? & ? & ->),
          no_result_not_out.
Qed.

Lemma emit_plain (events : list Event) (kw : GenericEventKwargs)
  (event : Event) :
  event_result event ∉ OUT_EVENT_RESULTS ->
  emit include_all no_transform (events, kw) event
  = Ok (events ++ [event], kw).
Proof. intros Hplain. by rewrite emit_not_out. Qed.

(** What one raw event adds to the unfiltered records. *)
Lemma loop_body_unfiltered
  (get_player_by_id : Team -> Z -> res (option Player))
  (home_lineup away_lineup : Lineup) (home_team away_team : Team)
  (shot_version xy_version : Z) (st st' : State) (raw_event : RawEvent) :
  loop_body get_player_by_id include_all no_transform home_lineup away_lineup
    home_team away_team shot_version xy_version st raw_event = Ok st' ->
  exists out,
    st_events st' = st_events st ++ out
    /\ (Forall plain_event out
        \/ exists pass ball_out,
             out = [pass; ball_out] /\ out_pass pass ball_out).
Proof.
  intros Hbody. unfold loop_body in Hbody.
  apply bind_Ok in Hbody as (ctx & _ & Hbody).
  apply bind_Ok in Hbody as (new_events & Hnew & Hbody).
  apply bind_Ok in Hbody as ([events kw'] & Hemit & Hbody).
  injection Hbody as <-. simpl.
  destruct (new_events_kwargs _ _ _ _ _ Hnew) as [Hkwargs Hcount].
  pose proof (new_events_receiver _ _ _ _ _ Hnew) as Hreceiver.
  destruct Hcount as [Hone|[Hnone Htwo]].
  - destruct new_events as [|event [|? ?]]; [| |simpl in Hone; lia].
    + injection Hemit as <- _. exists []. rewrite app_nil_r. auto.
    + rewrite Forall_singleton in Hkwargs, Hreceiver.
      destruct Hkwargs as [Hkw Hnot]. cbn [for_each] in Hemit.
      apply bind_Ok in Hemit as ([events1 kw1] & Hemit & [= <- _]).
      destruct (decide (event_result event ∈ OUT_EVENT_RESULTS))
        as [Hout|Hplain].
      * apply out_event_result in Hout
          as [(receive_timestamp & c & receiver & qualifiers & kw & ->)
             |(kw & ->)].
        -- destruct Hreceiver as [point ->]. simpl in Hkw. subst kw.
           rewrite emit_pass_out in Hemit. injection Hemit as <- _.
           eexists. split; [unfold append_if_included; simpl;
                            by rewrite <- app_assoc|].
           right. do 2 eexists. split; [done|]. by repeat eexists.
        -- by rewrite emit_take_on_out in Hemit.
      * rewrite emit_plain in Hemit by done. injection Hemit as <- _.
        exists [event]. split; [done|]. left. by repeat constructor.
  - destruct new_events as [|first [|second [|? ?]]]; try done.
    rewrite Forall_cons, Forall_singleton in Hnone, Hkwargs.
    destruct Hnone as [Hfirst Hnone], Hkwargs as [[_ Hnot1] [_ Hnot2]].
    cbn [for_each] in Hemit.
    rewrite emit_plain in Hemit
      by (rewrite Hfirst; apply no_result_not_out).
    cbn [bind] in Hemit.
    rewrite emit_plain in Hemit by (rewrite Hnone; apply no_result_not_out).
    injection Hemit as <- _. exists [first; second].
    rewrite <- app_assoc. split; [done|]. left.
    repeat constructor; try done;
      [rewrite Hfirst|rewrite Hnone]; apply no_result_not_out.
Qed.

(** X17. In the records of a call that keeps every event and transforms
    none, every ball-out event comes directly after a pass with result
    OUT, has the generic arguments of that pass with a dead ball, and has
    the receiver coordinates of the pass as coordinates; and every event
    with result OUT is such a pass, directly followed by its ball-out
    event: no take-on with result OUT is ever returned. *)
Theorem ball_out_follows_its_pass
  (get_player_by_id : Team -> Z -> res (option Player))
  (inputs : StatsbombInputs) (dataset : EventDataset) :
  deserialize get_player_by_id include_all no_transform inputs = Ok dataset ->
  ball_out_after_pass (records dataset).
Proof.
  intros H.
  destruct (deserialize_Ok _ _ _ _ _ H)
    as (versions & teams & st & _ & _ & Hst & _ & ->).
  unfold run_loop in Hst. revert Hst.
  apply (loop_invariant _ _ _ _ _ _ _ _ _
           (fun _ st => ball_out_after_pass (st_events st))).
  - split; intros ? ? Hlookup; done.
  - intros _ st1 raw_event st2 Hinv Hbody.
    destruct (loop_body_unfiltered _ _ _ _ _ _ _ _ _ _ Hbody)
      as (out & -> & [Hplain|(pass & ball_out & -> & Hpair)]).
    + by apply ball_out_after_pass_plain.
    + by apply ball_out_after_pass_pair.
Qed.

(** ** The order of the unfiltered records *)

Lemma in_feed_order_app (processed : list RawEvent) (events out : list Event)
  (raw_event : RawEvent) :
  in_feed_order processed events ->
  Forall (fun event => kw_raw_event (event_kwargs event) = raw_event) out ->
  in_feed_order (processed ++ [raw_event]) (events ++ out).
Proof.
  intros Horder Hout i j e1 e2 Hij H1 H2.
  rewrite Forall_lookup in Hout.
  apply lookup_app_Some in H1 as [H1|[Hi H1]];
    apply lookup_app_Some in H2 as [H2|[Hj H2]].
  - destruct (Horder _ _ _ _ Hij H1 H2) as (a & b & Hab & Ha & Hb).
    exists a, b. split; [done|]. split; by apply lookup_app_l_Some.
  - destruct (Horder i i _ _ (le_n i) H1 H1) as (a & _ & _ & Ha & _).
    exists a, (length processed).
    split; [apply Nat.lt_le_incl; by eapply lookup_lt_Some|].
    split; [by apply lookup_app_l_Some|].
    rewrite (Hout _ _ H2). by apply list_lookup_middle.
  - apply lookup_lt_Some in H2. lia.
  - exists (length processed), (length processed). split; [done|].
    rewrite (Hout _ _ H1), (Hout _ _ H2).
    split; by apply list_lookup_middle.
Qed.

(** X18. The records of a call that keeps every event and transforms
    none follow the feed: every record was made from a raw event of the
    feed, and of two records the later one was made from the same raw
    event as the earlier one or from a raw event further down the feed. *)
Theorem records_in_feed_order
  (get_player_by_id : Team -> Z -> res (option Player))
  (inputs : StatsbombInputs) (dataset : EventDataset) :
  deserialize get_player_by_id include_all no_transform inputs = Ok dataset ->
  in_feed_order (event_data inputs) (records dataset).
Proof.
  intros H.
  destruct (deserialize_Ok _ _ _ _ _ H)
    as (versions & teams & st & _ & _ & Hst & _ & ->).
  unfold run_loop in Hst.
  cut (state_ok st /\ in_feed_order (event_data inputs) (st_events st));
    [tauto|].
  revert Hst.
  apply (loop_invariant _ _ _ _ _ _ _ _ _
           (fun processed st =>
              state_ok st /\ in_feed_order processed (st_events st))).
  - split; [done|]. intros ? ? ? ? _ ?. done.
  - intros processed st1 raw_event st2 [Hok Horder] Hbody.
    destruct (loop_body_step _ _ _ _ _ _ _ _ _ _ _ _ Hok Hbody)
      as [Hok' _].
    split; [done|].
    destruct (loop_body_output _ _ _ _ _ _ _ _ _ _ _ _ Hok Hbody)
      as (out & -> & _ & Hrecords).
    apply in_feed_order_app; [done|].
    eapply Forall_impl; [exact Hrecords|]. simpl.
    by intros record (event & -> & _ & _ & Hraw).
Qed.

(** * The properties on sample inputs

    The collaborators are the roster lookup modelled above, the filter
    that keeps every event and the transformer that changes nothing. *)

Lemma parse_pass_outcome_mapping_witness :
  _parse_pass roster_lookup (sample_pass_dict (Some 74)) sample_home_team 1
  = Ok (mkPassKwargs (Some PassResult.OUT) (mkPoint 69.5 79.5) None
          [BodyPartQualifier BodyPart.RIGHT_FOOT])
  /\ _parse_pass roster_lookup (sample_pass_dict (Some 8)) sample_home_team 1
     = Raise (DeserializationError "Unknown pass outcome: 8").
Proof.
  pose proof (parse_pass_outcome_mapping roster_lookup
                (sample_pass_dict (Some 74)) sample_home_team 1)
    as (_ & _ & Hmapped).
  pose proof (parse_pass_outcome_mapping roster_lookup
                (sample_pass_dict (Some 8)) sample_home_team 1)
    as (Hunmapped & _).
  split.
  - apply (Hmapped [70; 80]%float); [reflexivity..|]. by right.
  - apply (Hunmapped 8); [reflexivity|].
    apply (bool_decide_unpack _). reflexivity.
Defined.

Lemma determine_xy_fidelity_versions_witness :
  exists shot_fidelity_version xy_fidelity_version,
    _determine_xy_fidelity_versions
      [sample_located 16 [100.5; 40]%float; sample_located 30 [61; 40]%float]
    = Ok (shot_fidelity_version, xy_fidelity_version)
    /\ shot_fidelity_version = 2 /\ xy_fidelity_version = 1.
Proof.
  destruct (determine_xy_fidelity_versions_spec
              [sample_located 16 [100.5; 40]%float;
               sample_located 30 [61; 40]%float])
    as (s & m & Hrun & Hshot & Hmove & _ & Hlow).
  - intros event location Hin Hloc.
    apply elem_of_cons in Hin as [->|Hin];
      [|apply elem_of_cons in Hin as [->|Hin]; [|by apply elem_of_nil in Hin]];
      injection Hloc as <-; simpl; lia.
  - exists s, m. split; [exact Hrun|]. split.
    + apply Hshot. exists (sample_located 16 [100.5; 40]%float).
      split; [by left|]. split; reflexivity.
    + apply Hlow. intros Hm.
      apply Hmove in Hm as (event & Hin & Htype & Hfrac).
      apply elem_of_cons in Hin as [->|Hin];
        [|apply elem_of_cons in Hin as [->|Hin];
          [|by apply elem_of_nil in Hin]].
      * by destruct Htype as [?|[?|?]].
      * vm_compute in Hfrac. discriminate.
Defined.

(** A shot that is saved makes no ball-out event. *)
Lemma only_out_results_make_ball_out_witness :
  let kw :=
    {| kw_period := 0; kw_timestamp := 10; kw_ball_owning_team := sample_home_team;
       kw_ball_state := BallState.ALIVE; kw_event_id := "a3f7";
       kw_team := sample_home_team; kw_player := None;
       kw_coordinates := None;
       kw_raw_event := sample_event SB_EVENT_TYPE_SHOT 1 10 |} in
  emit include_all no_transform ([], kw) (ShotEvent ShotResult.SAVED [] kw)
  = Ok ([ShotEvent ShotResult.SAVED [] kw], kw).
Proof.
  intros kw.
  apply (only_out_results_make_ball_out include_all no_transform [] kw
           (ShotEvent ShotResult.SAVED [] kw)); discriminate.
Defined.

Lemma foul_committed_then_card_witness :
  exists ctx,
    resolve_context roster_lookup sample_lineups.1 sample_lineups.2
      sample_home_team sample_away_team 1 1 initial_state
      (sample_foul (Some (mkCardHolderDict (Some 5))) 1 62.5) = Ok ctx
    /\ loop_body roster_lookup include_all no_transform
         sample_lineups.1 sample_lineups.2 sample_home_team sample_away_team
         1 1 initial_state
         (sample_foul (Some (mkCardHolderDict (Some 5))) 1 62.5)
       = Ok {| st_periods := ctx_periods ctx;
               st_period := Some (ctx_period ctx);
               st_events := [FoulCommittedEvent (ctx_kwargs ctx);
                             CardEvent CardType.RED (ctx_kwargs ctx)] |}.
Proof.
  eexists. split; [vm_compute; reflexivity|].
  eapply (foul_committed_then_card roster_lookup include_all no_transform
            _ _ _ _ _ _ initial_state
            (sample_foul (Some (mkCardHolderDict (Some 5))) 1 62.5));
    [reflexivity|vm_compute; reflexivity|reflexivity|by left].
Defined.

Lemma substitution_replacement_lookup_witness :
  deserialize roster_lookup include_all no_transform
    (sample_inputs [sample_event SB_EVENT_TYPE_HALF_START 1 0;
                    sample_substitution 9999 1 60])
  = Raise (DeserializationError "Could not find replacement player 9999").
Proof.
  pose proof (substitution_replacement_lookup roster_lookup include_all
                no_transform) as (_ & _ & _ & Hcall).
  eapply (Hcall _ [sample_event SB_EVENT_TYPE_HALF_START 1 0]
            (sample_substitution 9999 1 60) [] (mkSubstitutionDict 9999));
    [reflexivity|reflexivity|reflexivity|vm_compute; reflexivity
    |vm_compute; reflexivity|vm_compute; reflexivity
    |vm_compute; reflexivity|].
  apply (bool_decide_unpack _). vm_compute. reflexivity.
Defined.

Lemma injury_clearance_pass_goes_out_witness :
  exists ctx,
    resolve_context roster_lookup sample_lineups.1 sample_lineups.2
      sample_home_team sample_away_team 1 1 initial_state
      (sample_pass (Some 74) 1 10) = Ok ctx
    /\ loop_body roster_lookup include_all no_transform
         sample_lineups.1 sample_lineups.2 sample_home_team sample_away_team
         1 1 initial_state (sample_pass (Some 74) 1 10)
       = Ok {| st_periods := ctx_periods ctx;
               st_period := Some (ctx_period ctx);
               st_events :=
                 [PassEvent (10 + 1.5)%float (Some PassResult.OUT)
                    (Some (mkPoint 69.5 79.5)) None
                    [BodyPartQualifier BodyPart.RIGHT_FOOT] (ctx_kwargs ctx);
                  BallOutEvent
                    (set_coordinates
                       (set_ball_state (ctx_kwargs ctx) BallState.DEAD)
                       (Some (mkPoint 69.5 79.5)))] |}.
Proof.
  eexists. split; [vm_compute; reflexivity|].
  match goal with
  | |- _ = Ok {| st_periods := ctx_periods ?ctx;
                 st_period := _; st_events := _ |} =>
      assert (resolve_context roster_lookup sample_lineups.1 sample_lineups.2
                sample_home_team sample_away_team 1 1 initial_state
                (sample_pass (Some 74) 1 10) = Ok ctx) as Hctx
        by (vm_compute; reflexivity)
  end.
  exact (proj2 (injury_clearance_pass_goes_out roster_lookup include_all
                  no_transform _ _ _ _ _ _ initial_state
                  (sample_pass (Some 74) 1 10) _ (sample_pass_dict (Some 74))
                  74 [70; 80]%float (mkPoint 69.5 79.5)
                  [BodyPartQualifier BodyPart.RIGHT_FOOT] 1.5%float
                  eq_refl eq_refl eq_refl (or_introl eq_refl) Hctx
                  eq_refl eq_refl eq_refl eq_refl)).
Defined.

Lemma take_on_out_aborts_call_witness :
  deserialize roster_lookup include_all no_transform
    (sample_inputs [sample_event SB_EVENT_TYPE_HALF_START 1 0;
                    sample_dribble (Some (75, "Out")) 1 10])
  = Raise (AttributeError "receiver_coordinates").
Proof.
  eapply (deserialize_raise_at roster_lookup include_all no_transform _
            [sample_event SB_EVENT_TYPE_HALF_START 1 0] []
            (sample_dribble (Some (75, "Out")) 1 10));
    [reflexivity|vm_compute; reflexivity|vm_compute; reflexivity
    |vm_compute; reflexivity|].
  eapply (take_on_out_aborts_call roster_lookup include_all no_transform
            (sample_inputs [sample_event SB_EVENT_TYPE_HALF_START 1 0;
                            sample_dribble (Some (75, "Out")) 1 10])
            (sample_dribble (Some (75, "Out")) 1 10)
            (mkDribbleDict (Some (75, "Out"))) "Out");
    [by right; left|reflexivity|reflexivity|reflexivity
    |vm_compute; reflexivity].
Defined.

(** The same dribble with the outcome 9 is deserialized. *)
Example take_on_incomplete_returns :
  exists dataset,
    deserialize roster_lookup include_all no_transform
      (sample_inputs [sample_event SB_EVENT_TYPE_HALF_START 1 0;
                      sample_dribble (Some (9, "Incomplete")) 1 10])
    = Ok dataset
    /\ length (records dataset) = 2%nat.
Proof. eexists. split; [vm_compute; reflexivity|reflexivity]. Qed.


(** C4, as written, fails: raw events whose period numbers run 1, 1, 2,
    2, 1 give three periods with the ids 1, 2, 1. *)
Lemma period_ids_not_increasing :
  exists dataset,
    deserialize roster_lookup include_all no_transform
      (sample_inputs revisited_period_events) = Ok dataset
    /\ Period.id <$> metadata_periods (metadata dataset) = [1; 2; 1]
    /\ ~ ids_increasing (Period.id <$> metadata_periods (metadata dataset)).
Proof.
  eexists. split; [vm_compute; reflexivity|]. split; [reflexivity|].
  intros Hinc. specialize (Hinc 0%nat 2%nat 1 1). simpl in Hinc.
  assert (1 < 1); [by apply Hinc; [lia|..]|lia].
Qed.

Lemma period_ids_and_settled_ends_witness :
  exists dataset,
    deserialize roster_lookup include_all no_transform
      (sample_inputs two_halves_events) = Ok dataset
    /\ ids_increasing (Period.id <$> metadata_periods (metadata dataset)).
Proof.
  eexists. split; [vm_compute; reflexivity|].
  eapply (period_ids_and_settled_ends roster_lookup include_all no_transform
            (sample_inputs two_halves_events)); [vm_compute; reflexivity|].
  intros i j e1 e2 Hij H1 H2.
  do 4 (destruct i as [|i];
        [do 4 (destruct j as [|j]; [simplify_eq/=; lia|]);
         by simplify_eq/=|]).
  by simplify_eq/=.
Defined.



(** ** The further properties *)

Lemma get_event_qualifiers_shape_witness :
  exists set_piece body,
    [SetPieceQualifier SetPieceType.FREE_KICK;
     BodyPartQualifier BodyPart.RIGHT_FOOT] = set_piece ++ body
    /\ set_piece = [SetPieceQualifier SetPieceType.FREE_KICK]
    /\ body = [BodyPartQualifier BodyPart.RIGHT_FOOT].
Proof.
  destruct (proj1 (get_event_qualifiers_shape
                     (Some SB_EVENT_TYPE_FREE_KICK)
                     (Some SB_BODYPART_RIGHT_FOOT))
              [SetPieceQualifier SetPieceType.FREE_KICK;
               BodyPartQualifier BodyPart.RIGHT_FOOT] eq_refl)
    as (set_piece & body & Hsplit & _ & Hcode & _ & part & Hpart & Hbody).
  exists set_piece, body. split; [done|].
  split; [exact (Hcode SetPieceType.FREE_KICK eq_refl)|].
  rewrite Hbody. by injection Hpart as <-.
Defined.

Lemma parse_coordinates_bounds_witness :
  exists point,
    _parse_coordinates [61; 40.5; 1.2]%float 2 = Ok point
    /\ _parse_coordinates (take 2 [61; 40.5; 1.2]%float) 2 = Ok point.
Proof.
  apply (proj2 (parse_coordinates_bounds [61; 40.5; 1.2]%float 2)).
  simpl; lia.
Defined.

Lemma determine_xy_fidelity_versions_fails_witness :
  _determine_xy_fidelity_versions
    [sample_located SB_EVENT_TYPE_PASS [61; 40.5]%float;
     sample_located SB_EVENT_TYPE_SHOT [100]%float]
  = Raise ValueError.
Proof.
  apply (determine_xy_fidelity_versions_fails _).
  exists (sample_located SB_EVENT_TYPE_SHOT [100]%float).
  split; [by right; left|]. exists [100]%float. split; [reflexivity|simpl; lia].
Defined.

Lemma determine_xy_fidelity_versions_order_free_witness :
  _determine_xy_fidelity_versions
    [sample_located SB_EVENT_TYPE_SHOT [100.5; 40]%float;
     sample_located SB_EVENT_TYPE_PASS [61; 40]%float]
  = _determine_xy_fidelity_versions
      [sample_located SB_EVENT_TYPE_PASS [61; 40]%float;
       sample_located SB_EVENT_TYPE_SHOT [100.5; 40]%float].
Proof.
  apply determine_xy_fidelity_versions_order_free; [apply perm_swap|].
  intros event location Hin Hlocation. set_unfold in Hin.
  destruct Hin as [->|[->|[]]]; injection Hlocation as <-; simpl; lia.
Defined.

Lemma parse_shot_result_codes_witness :
  _parse_shot (mkShotDict None None (Some SB_BODYPART_HEAD))
  = Raise (KeyError "outcome").
Proof.
  apply (proj1 (proj2 (parse_shot_result_codes _))). reflexivity.
Defined.

Lemma parse_str_ts_nonneg_witness :
  nonneg (parse_str_ts (mkRawTimestamp 0 44 59.5))
  /\ (59.5 <=? parse_str_ts (mkRawTimestamp 0 44 59.5))%float = true
  /\ (Z2float (0 * 3600 + 44 * 60)
      <=? parse_str_ts (mkRawTimestamp 0 44 59.5))%float = true.
Proof.
  apply (proj1 parse_str_ts_nonneg (mkRawTimestamp 0 44 59.5));
    [simpl; lia|reflexivity].
Defined.

Lemma build_teams_roster_witness :
  exists home_team away_team,
    build_teams (sample_inputs [sample_starting_xi]) = Ok (home_team, away_team)
    /\ ground home_team = Ground.HOME
    /\ player_id <$> players home_team = ["5203"%string; "5503"%string].
Proof.
  destruct (build_teams (sample_inputs [sample_starting_xi]))
    as [[home_team away_team]|e] eqn:Hteams; [|by vm_compute in Hteams].
  destruct (proj1 (build_teams_roster (sample_inputs [sample_starting_xi]))
              home_team away_team Hteams) as (Hhome & _ & Hids & _).
  exists home_team, away_team. split; [done|]. split; [done|].
  rewrite Hids. vm_compute; reflexivity.
Defined.

Lemma new_events_count_witness :
  exists new_events,
    new_events_of roster_lookup
      (sample_foul (Some (mkCardHolderDict (Some 5))) 1 62.5) 1 sample_kwargs
    = Ok new_events
    /\ length new_events = 2%nat.
Proof.
  eexists. split; [vm_compute; reflexivity|].
  eapply (proj1 (proj2 (proj2 (new_events_count roster_lookup
                                 (sample_foul
                                    (Some (mkCardHolderDict (Some 5))) 1 62.5)
                                 1 sample_kwargs _ _))));
    reflexivity.
  Unshelve. vm_compute; reflexivity.
Defined.

Lemma deserialize_records_sound_witness :
  exists dataset,
    deserialize roster_lookup include_all no_transform
      (sample_inputs out_pass_events) = Ok dataset
    /\ (length (records dataset) <= 2 * length out_pass_events)%nat.
Proof.
  eexists. split; [vm_compute; reflexivity|].
  eapply (deserialize_records_sound roster_lookup include_all no_transform
            (sample_inputs out_pass_events)).
  vm_compute; reflexivity.
Defined.

Lemma period_ids_are_runs_witness :
  exists dataset,
    deserialize roster_lookup include_all no_transform
      (sample_inputs two_halves_events) = Ok dataset
    /\ Period.id <$> metadata_periods (metadata dataset) = [1; 2].
Proof.
  eexists. split; [vm_compute; reflexivity|].
  eapply (period_ids_are_runs roster_lookup include_all no_transform
            (sample_inputs two_halves_events)).
  vm_compute; reflexivity.
Defined.

Lemma last_period_of_call_witness :
  exists dataset p,
    deserialize roster_lookup include_all no_transform
      (sample_inputs two_halves_events) = Ok dataset
    /\ last (metadata_periods (metadata dataset)) = Some p
    /\ Period.id p = 2
    /\ Period.end_timestamp p
       = Some (Period.start_timestamp p
               + parse_str_ts (mkRawTimestamp 0 0 2700))%float.
Proof.
  destruct (deserialize roster_lookup include_all no_transform
              (sample_inputs two_halves_events)) as [dataset|e] eqn:Hcall;
    [|by vm_compute in Hcall].
  destruct (last_period_of_call roster_lookup include_all no_transform
              (sample_inputs two_halves_events) dataset
              (take 3 two_halves_events)
              (sample_event SB_EVENT_TYPE_HALF_END 2 2700) Hcall eq_refl)
    as (p & Hlast & Hid & Hend).
  exists dataset, p. by rewrite decide_True in Hend by done.
Defined.

Lemma unknown_team_aborts_witness :
  deserialize roster_lookup include_all no_transform
    (sample_inputs [sample_event SB_EVENT_TYPE_HALF_START 1 0;
                    sample_stranger])
  = Raise (DeserializationError ("Unknown team_id " +:+ str 999)).
Proof.
  eapply (proj2 (proj2 (unknown_team_aborts roster_lookup include_all
                          no_transform
                          (sample_inputs
                             [sample_event SB_EVENT_TYPE_HALF_START 1 0;
                              sample_stranger])
                          sample_stranger _ _))
            [sample_event SB_EVENT_TYPE_HALF_START 1 0] []);
    [reflexivity|vm_compute; reflexivity..].
  Unshelve. all: by vm_compute.
Defined.

Lemma missing_sub_object_aborts_witness :
  loop_body roster_lookup include_all no_transform
    sample_lineups.1 sample_lineups.2 sample_home_team sample_away_team 1 1
    initial_state (sample_event SB_EVENT_TYPE_PASS 1 10)
  = Raise (KeyError "pass").
Proof.
  assert (missing_sub_object (sample_event SB_EVENT_TYPE_PASS 1 10) "pass")
    as Hmissing by by left.
  eapply (proj2 (missing_sub_object_aborts roster_lookup include_all
                   no_transform (sample_inputs [])
                   (sample_event SB_EVENT_TYPE_PASS 1 10) "pass"
                   (or_introl Hmissing)) Hmissing).
  vm_compute; reflexivity.
Defined.

Lemma ball_out_follows_its_pass_witness :
  exists dataset,
    deserialize roster_lookup include_all no_transform
      (sample_inputs out_pass_events) = Ok dataset
    /\ ball_out_after_pass (records dataset).
Proof.
  eexists. split; [vm_compute; reflexivity|].
  eapply (ball_out_follows_its_pass roster_lookup
            (sample_inputs out_pass_events)).
  vm_compute; reflexivity.
Defined.

Lemma records_in_feed_order_witness :
  exists dataset,
    deserialize roster_lookup include_all no_transform
      (sample_inputs out_pass_events) = Ok dataset
    /\ in_feed_order out_pass_events (records dataset).
Proof.
  eexists. split; [vm_compute; reflexivity|].
  eapply (records_in_feed_order roster_lookup
            (sample_inputs out_pass_events)).
  vm_compute; reflexivity.
Defined.

Lemma records_attributed_witness :
  exists dataset,
    deserialize roster_lookup include_all no_transform
      (sample_inputs out_pass_events) = Ok dataset
    /\ metadata_teams (metadata dataset) = [sample_home_team; sample_away_team].
Proof.
  destruct (deserialize roster_lookup include_all no_transform
              (sample_inputs out_pass_events)) as [dataset|e] eqn:Hcall;
    [|by vm_compute in Hcall].
  destruct (records_attributed roster_lookup include_all no_transform
              (sample_inputs out_pass_events) dataset Hcall)
    as (home_team & away_team & Hteams & Hmetadata & _).
  exists dataset. split; [done|]. rewrite Hmetadata.
  vm_compute in Hteams. injection Hteams as <- <-.
  vm_compute; reflexivity.
Defined.
